(** * mktree: a shallow embedding of [src/mktree.py]

    The development models the [TreePath] class of [src/mktree.py]:
    the indentation parser and assembler ([from_tree]), the re-rooting
    transforms ([rebase], [reparent]) and the materializer ([mktree],
    [write_comment]).

    Modelling conventions.
    - A Python [str] is a [string]; every [ascii] stands for the code point
      of the same number, so the model covers texts whose code points are
      below 256.  The character classes of [str.strip] and
      [str.splitlines] are those of CPython restricted to that range.
    - [TreePath] objects are mutable and shared (the parser keeps them on a
      stack while it appends to their child lists), so they live in an
      explicit store: a [heap] is the list of the objects allocated so far
      and a reference is an index into it.
    - [pathlib] is the POSIX flavour of CPython 3.10 / 3.11, where
      [Path.__new__] parses its arguments and there is no [__init__].
    - Python exceptions are values of [exn]; running out of recursion
      fuel or following a reference that is not in the store is [Stuck],
      which is an artefact of the model and not a Python behaviour. *)

From Stdlib Require Import ZArith Ascii String List Lia Bool.
From stdpp Require Import base tactics option list strings gmap.

Local Open Scope string_scope.

(** ** Python string operations *)

Module PyStr.

Definition code (c : ascii) : N := N_of_ascii c.

(** [str.isspace] on one character (code points below 256). *)
Definition isspace (c : ascii) : bool :=
  let n := code c in
  (((9 <=? n) && (n <=? 13)) || ((28 <=? n) && (n <=? 32))
   || (n =? 133) || (n =? 160))%N.

(** The line boundaries of [str.splitlines] other than the pair CR LF. *)
Definition is_linebreak (c : ascii) : bool :=
  let n := code c in
  (((10 <=? n) && (n <=? 13)) || ((28 <=? n) && (n <=? 30)) || (n =? 133))%N.

Definition LF : ascii := "010"%char.
Definition CR : ascii := "013"%char.
Definition TAB : ascii := "009"%char.
Definition SPACE : ascii := " "%char.

Definition is_empty (s : string) : bool :=
  match s with EmptyString => true | String _ _ => false end.

(** [s.lstrip(chars)], with the set of characters given as a predicate. *)
Fixpoint lstrip_by (p : ascii -> bool) (s : string) : string :=
  match s with
  | EmptyString => EmptyString
  | String c r => if p c then lstrip_by p r else s
  end.

(** [s.rstrip(chars)]. *)
Fixpoint rstrip_by (p : ascii -> bool) (s : string) : string :=
  match s with
  | EmptyString => EmptyString
  | String c r =>
      let r' := rstrip_by p r in
      if is_empty r' && p c then EmptyString else String c r'
  end.

Definition lstrip (s : string) : string := lstrip_by isspace s.
Definition rstrip (s : string) : string := rstrip_by isspace s.
Definition strip (s : string) : string := lstrip (rstrip s).

(** [c in s] for a one-character needle. *)
Fixpoint contains (c : ascii) (s : string) : bool :=
  match s with
  | EmptyString => false
  | String d r => Ascii.eqb c d || contains c r
  end.

(** [s.split(c, 1)] when [c] occurs in [s]: the text before the first
    occurrence and the text after it.  Without an occurrence the second
    component is empty. *)
Fixpoint split_first (c : ascii) (s : string) : string * string :=
  match s with
  | EmptyString => (EmptyString, EmptyString)
  | String d r =>
      if Ascii.eqb c d then (EmptyString, r)
      else let '(a, b) := split_first c r in (String d a, b)
  end.

(** [s.split(c)] for a one-character separator. *)
Fixpoint split (c : ascii) (s : string) : list string :=
  match s with
  | EmptyString => [EmptyString]
  | String d r =>
      match split c r with
      | [] => [String d EmptyString]
      | x :: xs => if Ascii.eqb c d then EmptyString :: x :: xs
                   else String d x :: xs
      end
  end.

(** [sep.join(l)]. *)
Fixpoint join (sep : string) (l : list string) : string :=
  match l with
  | [] => EmptyString
  | [x] => x
  | x :: xs => x ++ sep ++ join sep xs
  end.

(** [s.endswith(c)] for a one-character suffix. *)
Fixpoint endswith (c : ascii) (s : string) : bool :=
  match s with
  | EmptyString => false
  | String d EmptyString => Ascii.eqb c d
  | String _ r => endswith c r
  end.

(** [s[:-1]]. *)
Fixpoint drop_last (s : string) : string :=
  match s with
  | EmptyString => EmptyString
  | String _ EmptyString => EmptyString
  | String d r => String d (drop_last r)
  end.

(** [s[:n]]. *)
Fixpoint take (n : nat) (s : string) : string :=
  match n, s with
  | S n', String c r => String c (take n' r)
  | _, _ => EmptyString
  end.

(** [s[n:]]. *)
Fixpoint drop (n : nat) (s : string) : string :=
  match n, s with
  | S n', String _ r => drop n' r
  | _, _ => s
  end.

(** [s.startswith(p)]. *)
Fixpoint startswith (p s : string) : bool :=
  match p with
  | EmptyString => true
  | String a p' =>
      match s with
      | EmptyString => false
      | String b s' => Ascii.eqb a b && startswith p' s'
      end
  end.

(** [c * n] for a one-character string; empty when [n <= 0]. *)
Definition repeat (c : ascii) (n : Z) : string :=
  string_of_list_ascii (List.repeat c (Z.to_nat n)).

(** [s.replace(c, rep)] for a one-character needle. *)
Fixpoint replace (c : ascii) (rep : string) (s : string) : string :=
  match s with
  | EmptyString => EmptyString
  | String d r =>
      if Ascii.eqb c d then rep ++ replace c rep r
      else String d (replace c rep r)
  end.

(** [s.rfind(c)]: the index of the last occurrence of [c], if any. *)
Fixpoint rfind (c : ascii) (s : string) : option nat :=
  match s with
  | EmptyString => None
  | String d r =>
      match rfind c r with
      | Some i => Some (S i)
      | None => if Ascii.eqb c d then Some 0%nat else None
      end
  end.

(** [s.splitlines()]: [cur] holds the characters of the line being read,
    most recent first.  A text that ends in a line boundary has no empty
    last line. *)
Fixpoint splitlines_from (cur : string) (s : string) : list string :=
  match s with
  | EmptyString => if is_empty cur then [] else [String.rev cur]
  | String c r =>
      if Ascii.eqb c CR then
        match r with
        | String d r' =>
            if Ascii.eqb d LF then String.rev cur :: splitlines_from EmptyString r'
            else String.rev cur :: splitlines_from EmptyString r
        | EmptyString => [String.rev cur]
        end
      else if is_linebreak c then String.rev cur :: splitlines_from EmptyString r
      else splitlines_from (String c cur) r
  end.

Definition splitlines (s : string) : list string := splitlines_from EmptyString s.

End PyStr.

(** ** pathlib, POSIX flavour

    A pure path is the pair of [_root] and [_parts] that CPython keeps;
    the drive is always empty on POSIX.  When [root] is not empty it is
    also the first element of [parts]. *)

Module Pathlib.

Record PurePath := MkPath { root : string; parts : list string }.

#[export] Instance PurePath_eq_dec : EqDecision PurePath.
Proof. solve_decision. Defined.

(** An argument of a path constructor: a [str] or a path object (a
    [TreePath] passed as an argument contributes its path). *)
Inductive pyarg := AStr (s : string) | APath (p : PurePath).

Definition SEP : ascii := "/"%char.

(** [_PosixFlavour.splitroot]: the root ("", "/" or "//") and the rest. *)
Definition splitroot (part : string) : string * string :=
  match part with
  | String c _ =>
      if Ascii.eqb c SEP then
        let stripped := PyStr.lstrip_by (Ascii.eqb SEP) part in
        if (String.length part - String.length stripped =? 2)%nat
        then ("//", stripped) else ("/", stripped)
      else ("", part)
  | EmptyString => ("", part)
  end.

(** The components that [parse_parts] keeps of the relative rest of one
    part: the pieces between separators that are neither empty nor ".". *)
Definition components (rel : string) : list string :=
  List.filter (fun x => negb (PyStr.is_empty x) && negb (String.eqb x "."))
              (PyStr.split SEP rel).

(** [_Flavour.parse_parts], reading the parts last to first as the
    library does: a part with a root ends the scan, and the parts before
    it are dropped. *)
Fixpoint parse_rev (rparts : list string) : string * list string :=
  match rparts with
  | [] => ("", [])
  | part :: rest =>
      if PyStr.is_empty part then parse_rev rest
      else
        let '(rt, rel) := splitroot part in
        if PyStr.is_empty rt then
          let '(rt', ps) := parse_rev rest in (rt', (ps ++ components rel)%list)
        else (rt, rt :: components rel)
  end.

Definition parse_parts (ps : list string) : PurePath :=
  let '(rt, ps') := parse_rev (rev ps) in MkPath rt ps'.

(** [PurePath._parse_args]: the raw parts of the arguments. *)
Definition raw_parts (args : list pyarg) : list string :=
  List.concat (List.map (fun a => match a with AStr s => [s] | APath p => parts p end) args).

(** [PurePath._from_parts]. *)
Definition from_parts (args : list pyarg) : PurePath := parse_parts (raw_parts args).

(** [str(path)]. *)
Definition to_str (p : PurePath) : string :=
  let s := if PyStr.is_empty (root p)
           then PyStr.join "/" (parts p)
           else root p ++ PyStr.join "/" (List.tl (parts p)) in
  if PyStr.is_empty s then "." else s.

(** [path.name]. *)
Definition name (p : PurePath) : string :=
  if (List.length (parts p) =? (if PyStr.is_empty (root p) then 0 else 1))%nat
  then "" else List.last (parts p) "".

(** [path.parent]. *)
Definition parent (p : PurePath) : PurePath :=
  if (List.length (parts p) =? 1)%nat && negb (PyStr.is_empty (root p)) then p
  else MkPath (root p) (List.removelast (parts p)).

(** [path.suffix]. *)
Definition suffix (p : PurePath) : string :=
  let nm := name p in
  match PyStr.rfind "."%char nm with
  | Some i => if (0 <? i)%nat && (i <? String.length nm - 1)%nat
              then PyStr.drop i nm else ""
  | None => ""
  end.

(** [path / key] for a [str] key: [_make_child] with
    [join_parsed_parts]; a rooted key replaces the path. *)
Definition truediv (p : PurePath) (key : string) : PurePath :=
  let k := from_parts [AStr key] in
  if PyStr.is_empty (root k) then MkPath (root p) (parts p ++ parts k)%list
  else k.

End Pathlib.

Import Pathlib.

(** ** The object store and the monad of the methods *)

Inductive exn :=
| IndexError | ZeroDivisionError | RuntimeError
| FileNotFoundError | FileExistsError | NotADirectoryError | IsADirectoryError.

(** The result of running a method from a state of type [St]. *)
Inductive outcome (St A : Type) :=
| Return (a : A) (s : St)
| Raise (e : exn)
| Stuck.
Arguments Return {St A} a s.
Arguments Raise {St A} e.
Arguments Stuck {St A}.

Definition M (St A : Type) : Type := St -> outcome St A.

Definition ret {St A} (a : A) : M St A := fun s => Return a s.
Definition raise {St A} (e : exn) : M St A := fun _ => Raise e.
Definition stuck {St A} : M St A := fun _ => Stuck.
Definition bind {St A B} (c : M St A) (k : A -> M St B) : M St B :=
  fun s => match c s with
           | Return a s' => k a s'
           | Raise e => Raise e
           | Stuck => Stuck
           end.

Notation "'let*' x ':=' c 'in' k" := (bind c (fun x => k))
  (at level 10, x pattern, c at level 200, k at level 200).
Notation "c ';;;' k" := (bind c (fun _ => k))
  (at level 100, k at level 200, right associativity).

(** [for x in l: f(x)]. *)
Fixpoint for_each {St A} (f : A -> M St unit) (l : list A) : M St unit :=
  match l with
  | [] => ret tt
  | x :: xs => f x ;;; for_each f xs
  end.

(** [[f(x) for x in l]]. *)
Fixpoint list_comp {St A B} (f : A -> M St B) (l : list A) : M St (list B) :=
  match l with
  | [] => ret []
  | x :: xs => let* y := f x in let* ys := list_comp f xs in ret (y :: ys)
  end.

(** A reference to a [TreePath] object. *)
Abbreviation loc := nat.

(** The fields of a [TreePath] object: the path it is as a [Path], and
    the three attributes that [__new__] attaches. *)
Record TreePath := MkTreePath {
  path : PurePath;
  children : list loc;
  comment : string;
  is_dir_spec : bool
}.

Abbreviation heap := (list TreePath).

Definition alloc (o : TreePath) : M heap loc :=
  fun h => Return (length h) (h ++ [o])%list.

Definition load (l : loc) : M heap TreePath :=
  fun h => match h !! l with Some o => Return o h | None => Stuck end.

Definition modify (l : loc) (f : TreePath -> TreePath) : M heap unit :=
  fun h => match h !! l with Some o => Return tt (<[l := f o]> h) | None => Stuck end.

Definition set_children (l : loc) (cs : list loc) : M heap unit :=
  modify l (fun o => MkTreePath (path o) cs (comment o) (is_dir_spec o)).
Definition set_comment (l : loc) (c : string) : M heap unit :=
  modify l (fun o => MkTreePath (path o) (children o) c (is_dir_spec o)).
Definition set_is_dir_spec (l : loc) (d : bool) : M heap unit :=
  modify l (fun o => MkTreePath (path o) (children o) (comment o) d).

(** ** The methods of [TreePath] that build and copy trees *)

(** [__new__], default branch (source lines 18-24): an ordinary path with
    the three fields attached. *)
Definition new_default (args : list pyarg) : M heap loc :=
  alloc (MkTreePath (from_parts args) [] "" false).

(** [add_child]: append to the child list of [self], in place. *)
Definition add_child (self child : loc) : M heap loc :=
  modify self (fun o => MkTreePath (path o) (children o ++ [child])%list
                                   (comment o) (is_dir_spec o)) ;;;
  ret child.

(** [reparent], over the [rebase] it calls: [self.rebase(new_parent / self.name)]. *)
Definition reparent_with (rebase_ : loc -> PurePath -> M heap loc)
    (self new_parent : loc) : M heap loc :=
  let* np := load new_parent in
  let* me := load self in
  rebase_ self (truediv (path np) (name (path me))).

(** [rebase].  [type(self)(new_root_path)] is given a path object, so
    [__new__] takes its default branch.  The recursion through [reparent]
    follows the child lists; [fuel] bounds its depth. *)
Fixpoint rebase (fuel : nat) (self : loc) (new_root_path : PurePath) : M heap loc :=
  match fuel with
  | O => stuck
  | S fuel' =>
      let* new_root := new_default [APath new_root_path] in
      let* me := load self in
      set_is_dir_spec new_root (is_dir_spec me) ;;;
      let* me := load self in
      set_comment new_root (comment me) ;;;
      set_children new_root [] ;;;
      let* me := load self in
      for_each (fun c =>
                  let* c' := reparent_with (rebase fuel') c new_root in
                  add_child new_root c' ;;; ret tt)
               (children me) ;;;
      ret new_root
  end.

Definition reparent (fuel : nat) (self new_parent : loc) : M heap loc :=
  reparent_with (rebase fuel) self new_parent.

(** ** Trees as values

    The tree below a reference, read out of the store. *)

#[local] Unset Elimination Schemes.
Inductive Node := MkNode (p : PurePath) (d : bool) (c : string) (cs : list Node).
#[local] Set Elimination Schemes.

Definition node_path (t : Node) : PurePath := let '(MkNode p _ _ _) := t in p.
Definition node_is_dir (t : Node) : bool := let '(MkNode _ d _ _) := t in d.
Definition node_comment (t : Node) : string := let '(MkNode _ _ c _) := t in c.
Definition node_children (t : Node) : list Node := let '(MkNode _ _ _ cs) := t in cs.

Fixpoint reify (fuel : nat) (h : heap) (l : loc) : option Node :=
  match fuel with
  | O => None
  | S n =>
      match h !! l with
      | Some o =>
          match mapM (reify n h) (children o) with
          | Some cs => Some (MkNode (path o) (is_dir_spec o) (comment o) cs)
          | None => None
          end
      | None => None
      end
  end.

(** ** Python list indexing with integers of either sign *)

(** [l[:k]]. *)
Definition py_slice_to {A} (l : list A) (k : Z) : list A :=
  if (0 <=? k)%Z then take (Z.to_nat k) l
  else take (Z.to_nat (Z.of_nat (length l) + k)) l.

(** The position that the index [i] denotes in a list of length [n];
    [None] is the [IndexError]. *)
Definition py_position (n : nat) (i : Z) : option nat :=
  if (0 <=? i)%Z then
    if (i <? Z.of_nat n)%Z then Some (Z.to_nat i) else None
  else
    if (0 <=? Z.of_nat n + i)%Z then Some (Z.to_nat (Z.of_nat n + i)) else None.

(** [l[i]]. *)
Definition py_index {A} (l : list A) (i : Z) : option A :=
  match py_position (length l) i with
  | Some k => l !! k
  | None => None
  end.

(** [l[i] = x]. *)
Definition py_setitem {A} (l : list A) (i : Z) (x : A) : option (list A) :=
  match py_position (length l) i with
  | Some k => Some (<[k := x]> l)
  | None => None
  end.

(** ** [from_tree] *)

(** The lines that the first pass reads (source lines 107-109). *)
Definition spec_lines (tree_text : string) (indent_size : Z) : list string :=
  let tree_text :=
    PyStr.replace PyStr.TAB (PyStr.repeat PyStr.SPACE indent_size) tree_text in
  List.map PyStr.rstrip
    (List.filter (fun l => negb (PyStr.is_empty (PyStr.strip l)))
                 (PyStr.splitlines tree_text)).

(** What one line says, before the stack is consulted (source lines
    115-130): the level, the name part with its trailing blanks removed,
    and the annotation.  [None] is the [ZeroDivisionError] of
    [leading // indent_size]. *)
Record entry := MkEntry { e_level : Z; e_name_part : string; e_comment : string }.

Definition read_line (indent_size : Z) (line : string) : option entry :=
  let content := PyStr.lstrip_by (Ascii.eqb PyStr.SPACE) line in
  let leading := Z.of_nat (String.length line - String.length content) in
  if (indent_size =? 0)%Z then None
  else
    let level := (leading / indent_size)%Z in
    let '(name_part, cmt) :=
      if PyStr.contains "#" content
      then let '(a, b) := PyStr.split_first "#" content in (a, PyStr.strip b)
      else (content, "") in
    Some (MkEntry level (PyStr.rstrip name_part) cmt).

Definition e_is_dir (e : entry) : bool := PyStr.endswith "/" (e_name_part e).
Definition e_name (e : entry) : string :=
  if e_is_dir e then PyStr.drop_last (e_name_part e) else e_name_part e.

(** The two lists of the first pass. *)
Record pstate := MkPState { raw_roots : list loc; stack : list loc }.

(** The body of the loop over the lines (source lines 114-151).
    [cls_str name] is the call [cls(name)] with one [str] argument. *)
Definition from_tree_line (cls_str : string -> M heap loc) (indent_size : Z)
    (line : string) (st : pstate) : M heap pstate :=
  match read_line indent_size line with
  | None => raise ZeroDivisionError
  | Some e =>
      if PyStr.is_empty (e_name_part e) then ret st
      else
        let level := e_level e in
        let* ps :=
          (if (level =? 0)%Z then ret (None, stack st)
           else
             let stk := py_slice_to (stack st) level in
             match py_index stk (level - 1) with
             | Some p => ret (Some p, stk)
             | None => raise IndexError
             end) in
        let parent : option loc := fst ps in
        let stk : list loc := snd ps in
        let* node :=
          match parent with
          | None => cls_str (e_name e)
          | Some p => let* po := load p in
                      new_default [APath (path po); AStr (e_name e)]
          end in
        set_comment node (e_comment e) ;;;
        set_is_dir_spec node (e_is_dir e) ;;;
        let* roots :=
          match parent with
          | None => ret (raw_roots st ++ [node])%list
          | Some p => add_child p node ;;; ret (raw_roots st)
          end in
        if e_is_dir e then
          if (level =? Z.of_nat (length stk))%Z
          then ret (MkPState roots (stk ++ [node])%list)
          else match py_setitem stk level node with
               | Some stk' => ret (MkPState roots stk')
               | None => raise IndexError
               end
        else ret (MkPState roots stk)
  end.

(** The first pass over the lines. *)
Fixpoint from_tree_lines (cls_str : string -> M heap loc) (indent_size : Z)
    (lines : list string) (st : pstate) : M heap pstate :=
  match lines with
  | [] => ret st
  | line :: rest =>
      let* st' := from_tree_line cls_str indent_size line st in
      from_tree_lines cls_str indent_size rest st'
  end.

(** The selection of the result (source lines 155-182).  The paths are
    already [Path] objects here. *)
Definition from_tree_select (fuel : nat) (roots : list loc)
    (root_path parent_path : option PurePath) : M heap loc :=
  match roots with
  | [base_root] =>
      match parent_path with
      | Some pp =>
          let* parent := new_default [APath pp] in
          set_is_dir_spec parent true ;;;
          set_comment parent "" ;;;
          let* c := reparent fuel base_root parent in
          set_children parent [c] ;;;
          ret parent
      | None =>
          match root_path with
          | Some rp => rebase fuel base_root rp
          | None => ret base_root
          end
      end
  | _ =>
      let* top :=
        match parent_path with
        | Some pp => new_default [APath pp]
        | None => new_default [match root_path with
                               | Some rp => APath rp
                               | None => AStr "."
                               end]
        end in
      set_is_dir_spec top true ;;;
      set_comment top "" ;;;
      let* cs := list_comp (fun r => reparent fuel r top) roots in
      set_children top cs ;;;
      ret top
  end.

Section Environment.

(** [os.path.expanduser], which reads the environment and the password
    database. *)
Variable os_path_expanduser : string -> string.

(** [Path.expanduser]; [None] is the [RuntimeError] raised when the home
    directory cannot be determined. *)
Definition expanduser (p : PurePath) : option PurePath :=
  match parts p with
  | first :: rest =>
      if PyStr.is_empty (root p) && PyStr.startswith "~" first then
        let homedir := os_path_expanduser first in
        if PyStr.startswith "~" homedir then None
        else Some (from_parts (AStr homedir :: List.map AStr rest))
      else Some p
  | [] => Some p
  end.

(** [Path(x).expanduser()] for an optional argument (source lines
    100-104). *)
Definition expand_arg (x : option pyarg) : M heap (option PurePath) :=
  match x with
  | None => ret None
  | Some a =>
      match expanduser (from_parts [a]) with
      | Some p => ret (Some p)
      | None => raise RuntimeError
      end
  end.

(** [from_tree], over the constructor call [cls(name)] of its loop. *)
Definition from_tree_with (cls_str : string -> M heap loc) (fuel : nat)
    (tree_text : string) (root_path parent_path : option pyarg)
    (indent_size : Z) : M heap loc :=
  let* root_path := expand_arg root_path in
  let* parent_path := expand_arg parent_path in
  let* st := from_tree_lines cls_str indent_size
               (spec_lines tree_text indent_size) (MkPState [] []) in
  from_tree_select fuel (raw_roots st) root_path parent_path.

(** The test of [__new__] (source line 13): the first argument is a
    [str] with a newline in it. *)
Definition tree_text_arg (args : list pyarg) : option string :=
  match args with
  | AStr s :: _ => if PyStr.contains PyStr.LF s then Some s else None
  | _ => None
  end.

(** [__new__].  [fuel] bounds the nesting of constructor calls that go
    through [from_tree], and the depth of [rebase]. *)
Fixpoint TreePath_new (fuel : nat) (args : list pyarg) : M heap loc :=
  match tree_text_arg args with
  | Some s =>
      match fuel with
      | O => stuck
      | S n => from_tree_with (fun nm => TreePath_new n [AStr nm]) n s None None 2
      end
  | None => new_default args
  end.

Definition from_tree (fuel : nat) (tree_text : string)
    (root_path parent_path : option pyarg) (indent_size : Z) : M heap loc :=
  from_tree_with (fun nm => TreePath_new fuel [AStr nm]) fuel
                 tree_text root_path parent_path indent_size.

End Environment.

(** The re-rooted copy of a tree, as a function on tree values: the root
    takes the new path, and every child is re-rooted at the new path of its
    parent joined with the child's own name, keeping the directory flag,
    the annotation and the order of the children. *)
Fixpoint rebase_tree (t : Node) (p : PurePath) : Node :=
  match t with
  | MkNode _ d c cs =>
      let P := from_parts [APath p] in
      MkNode P d c
        (List.map (fun ct => rebase_tree ct (truediv P (name (node_path ct)))) cs)
  end.

(** Two trees of the same shape: the same annotation, directory flag and
    number of children at the root, and so on below, child by child. *)
Fixpoint same_structure (t t' : Node) : Prop :=
  match t, t' with
  | MkNode _ d c cs, MkNode _ d' c' cs' =>
      d = d' /\ c = c' /\ length cs = length cs' /\
      (fix all2 (l l' : list Node) : Prop :=
         match l, l' with
         | x :: xs, y :: ys => same_structure x y /\ all2 xs ys
         | _, _ => True
         end) cs cs'
  end.

(** No node that is not a directory has children. *)
Fixpoint files_are_leaves (t : Node) : Prop :=
  match t with
  | MkNode _ d _ cs =>
      (d = false -> cs = []) /\
      (fix all (l : list Node) : Prop :=
         match l with
         | x :: xs => files_are_leaves x /\ all xs
         | [] => True
         end) cs
  end.

Local Open Scope list_scope.

(** ** The assembler on tree values *)

(** The wrapper that the assembler synthesizes, as a tree value: a
    directory at [P] with an empty annotation whose children are the
    given trees, each re-rooted under [P] by its own name, in order. *)
Definition wrap_tree (P : PurePath) (ts : list Node) : Node :=
  MkNode P true ""
    (List.map (fun t => rebase_tree t (truediv P (name (node_path t)))) ts).

(** The argument from which the wrapper of several roots is built. *)
Definition top_arg (root_path parent_path : option PurePath) : pyarg :=
  match parent_path with
  | Some pp => APath pp
  | None => match root_path with Some rp => APath rp | None => AStr "." end
  end.

(** The decision table of the assembler on tree values. *)
Definition assemble_tree (ts : list Node) (root_path parent_path : option PurePath) : Node :=
  match ts with
  | [t] =>
      match parent_path with
      | Some pp => wrap_tree (from_parts [APath pp]) [t]
      | None => match root_path with Some rp => rebase_tree t rp | None => t end
      end
  | _ => wrap_tree (from_parts [top_arg root_path parent_path]) ts
  end.

(** The paths of a tree as strings, root first, children in order. *)
Fixpoint tree_paths (t : Node) : list string :=
  match t with
  | MkNode p _ _ cs => to_str p :: List.concat (List.map tree_paths cs)
  end.

(** ** The file system and the materializer *)

(** An entry of the file system: a regular file with its text, or a
    directory.  Entries are found by the components of their path; the
    current directory and the root always exist.  Symbolic links and ".."
    are not resolved, permissions are not modelled.  A file holds the text
    that reading it in text mode gives: a file whose bytes do not decode is
    not represented.  A path is read as the operating system reads it when
    it has no ".." and no regular file stands above its parent. *)
Inductive fsentry := File (content : string) | Dir.

Abbreviation fs := (gmap (list string) fsentry).

(** The paths "." and "/". *)
Definition is_anchor (p : PurePath) : bool :=
  match parts p with
  | [] => true
  | [_] => negb (PyStr.is_empty (root p))
  | _ => false
  end.

Definition entry_at (p : PurePath) (f : fs) : option fsentry :=
  if is_anchor p then Some Dir else f !! parts p.

(** [Path.exists]. *)
Definition path_exists (p : PurePath) : M fs bool :=
  fun f => Return (match entry_at p f with Some _ => true | None => false end) f.

(** [Path.is_dir]. *)
Definition is_dir (p : PurePath) (f : fs) : bool :=
  match entry_at p f with Some Dir => true | _ => false end.

(** Creating the entry [e] at [p], as [os.mkdir] and [open] with
    [O_CREAT] do: the parent has to be a directory. *)
Definition create (p : PurePath) (e : fsentry) : M fs unit :=
  fun f => match entry_at (parent p) f with
           | None => Raise FileNotFoundError
           | Some (File _) => Raise NotADirectoryError
           | Some Dir => Return tt (<[parts p := e]> f)
           end.

(** [os.mkdir]. *)
Definition os_mkdir (p : PurePath) : M fs unit :=
  fun f => match entry_at p f with
           | Some _ => Raise FileExistsError
           | None => create p Dir f
           end.

(** [Path.mkdir]: the ancestors are created on [FileNotFoundError] when
    [parents] is set; another error is swallowed when [exist_ok] is set
    and the path is a directory.  [fuel] bounds the walk up the
    ancestors. *)
Fixpoint mkdir_fuel (fuel : nat) (p : PurePath) (mode : Z) (parents exist_ok : bool)
    : M fs unit :=
  fun f =>
    match os_mkdir p f with
    | Return u f' => Return u f'
    | Raise FileNotFoundError =>
        if negb parents || bool_decide (parent p = p) then Raise FileNotFoundError
        else match fuel with
             | O => Stuck
             | S n => (mkdir_fuel n (parent p) 511 true true ;;;
                       mkdir_fuel n p mode false exist_ok) f
             end
    | Raise e => if negb exist_ok || negb (is_dir p f) then Raise e else Return tt f
    | Stuck => Stuck
    end.

Definition mkdir (p : PurePath) (mode : Z) (parents exist_ok : bool) : M fs unit :=
  mkdir_fuel (S (length (parts p))) p mode parents exist_ok.

(** [Path.touch] with the default [exist_ok=True]. *)
Definition touch (p : PurePath) : M fs unit :=
  fun f => match entry_at p f with
           | Some _ => Return tt f
           | None => create p (File "") f
           end.

(** The newline translation of a file opened for reading in text mode. *)
Fixpoint universal_newlines (s : string) : string :=
  match s with
  | EmptyString => EmptyString
  | String c r =>
      if Ascii.eqb c PyStr.CR then
        match r with
        | String d r' =>
            if Ascii.eqb d PyStr.LF then String PyStr.LF (universal_newlines r')
            else String PyStr.LF (universal_newlines r)
        | EmptyString => String PyStr.LF EmptyString
        end
      else String c (universal_newlines r)
  end.

(** [Path.read_text], and [open("r")] followed by [read]. *)
Definition read_text (p : PurePath) : M fs string :=
  fun f => match entry_at p f with
           | None => Raise FileNotFoundError
           | Some Dir => Raise IsADirectoryError
           | Some (File c) => Return (universal_newlines c) f
           end.

(** [open("r")] followed by [read(n)]. *)
Definition read_prefix (n : nat) (p : PurePath) : M fs string :=
  let* s := read_text p in ret (PyStr.take n s).

(** [Path.write_text]. *)
Definition write_text (p : PurePath) (data : string) : M fs unit :=
  fun f => match entry_at p f with
           | Some Dir => Raise IsADirectoryError
           | Some (File _) => Return tt (<[parts p := File data]> f)
           | None => create p (File data) f
           end.

(** The delimiter of a Python string-literal block: three double quotes. *)
Definition TRIPLE_QUOTE : string :=
  String "034"%char (String "034"%char (String "034"%char EmptyString)).

Definition NEWLINE : string := String PyStr.LF EmptyString.

(** [write_comment], on the object that [self] refers to. *)
Definition write_comment (self : TreePath) : M fs unit :=
  let p := path self in
  (let* ex := path_exists p in if ex then ret tt else touch p) ;;;
  let* st := read_prefix 4 p in
  let sfx := suffix p in
  if String.eqb sfx ".py" && negb (PyStr.startswith TRIPLE_QUOTE st) then
    let* s := read_text p in
    write_text p (TRIPLE_QUOTE ++ comment self ++ TRIPLE_QUOTE ++ NEWLINE ++ s)%string
  else if (String.eqb sfx ".js" || String.eqb sfx ".ts")
          && negb (PyStr.startswith "//" st) then
    let* s := read_text p in
    write_text p ("// " ++ comment self ++ NEWLINE ++ s)%string
  else if String.eqb sfx ".md" && PyStr.is_empty (PyStr.strip st) then
    write_text p (comment self)
  else if String.eqb sfx ".sh" && negb (PyStr.startswith "# " st) then
    let* s := read_text p in
    write_text p ("# " ++ comment self ++ NEWLINE ++ s)%string
  else ret tt.

(** [mktree].  The tree is read from the store [h], which the
    materializer does not change; [fuel] bounds the depth of the walk. *)
Fixpoint mktree (fuel : nat) (h : heap) (self : loc) (mode : Z) (parents exist_ok : bool)
    : M fs loc :=
  match fuel with
  | O => stuck
  | S n =>
      match h !! self with
      | None => stuck
      | Some o =>
          if is_dir_spec o then
            (let* ex := path_exists (path o) in
             if ex then ret tt else mkdir (path o) mode parents exist_ok) ;;;
            for_each (fun child => mktree n h child mode false exist_ok ;;; ret tt)
                     (children o) ;;;
            ret self
          else
            (let* ex := path_exists (path o) in
             if ex then ret tt else mkdir (parent (path o)) mode parents true) ;;;
            write_comment o ;;;
            ret self
      end
  end.

(** ** Definitions that the proofs about the store use *)

(** The body of the loop of [rebase]. *)
Definition rebase_child (fuel : nat) (new_root c : loc) : M heap unit :=
  let* c' := reparent_with (rebase fuel) c new_root in
  add_child new_root c' ;;; ret tt.

(** What [rebase] returns on a readable tree, with the new objects
    described independently of the objects that were there before. *)
Definition rebase_ok (n : nat) : Prop :=
  forall h self p t,
    reify n h self = Some t ->
    exists ext,
      rebase n self p h = Return (length h) (h ++ ext) /\
      forall g : heap, length g = length h ->
        reify n (g ++ ext) (length h) = Some (rebase_tree t p).

(** A store [g'] keeps the first [k] objects of [g] and is not shorter. *)
Definition keeps (k : nat) (g g' : heap) : Prop :=
  take k g' = take k g /\ length g <= length g'.

(** The constructor on a name without a newline. *)
Definition cls_plain (nm : string) : M heap loc := new_default [AStr nm].

(** The first pass of [from_tree] on a tree text, from empty lists. *)
Definition first_pass (tree_text : string) (indent_size : Z) : M heap pstate :=
  from_tree_lines cls_plain indent_size (spec_lines tree_text indent_size)
                  (MkPState [] []).

(** From reference [k] on, every object lists only children that were
    allocated after it, and an object that is not a directory lists none. *)
Definition heap_ok (k : nat) (h : heap) : Prop :=
  forall l o, k <= l -> h !! l = Some o ->
    (forall c, c ∈ children o -> l < c < length h) /\
    (is_dir_spec o = false -> children o = []).

(** The object at [l] is flagged as a directory. *)
Definition dir_at (h : heap) (l : loc) : Prop :=
  exists o, h !! l = Some o /\ is_dir_spec o = true.

(** What the loop of [from_tree] maintains, for the objects it allocates
    (those from reference [k] on). *)
Record parse_inv (k : nat) (h : heap) (st : pstate) : Prop := MkParseInv {
  inv_roots : forall l, l ∈ raw_roots st -> k <= l < length h;
  inv_stack : forall l, l ∈ stack st -> k <= l /\ dir_at h l;
  inv_heap : heap_ok k h
}.

(** ** Definitions that the proofs about the materializer use *)

(** The text that [write_comment] leaves in a file with the suffix [sfx]
    for the annotation [cmt], from the text [c] that the file has. *)
Definition new_content (sfx cmt c : string) : string :=
  let s := universal_newlines c in
  let st := PyStr.take 4 s in
  if String.eqb sfx ".py" && negb (PyStr.startswith TRIPLE_QUOTE st) then
    (TRIPLE_QUOTE ++ cmt ++ TRIPLE_QUOTE ++ NEWLINE ++ s)%string
  else if (String.eqb sfx ".js" || String.eqb sfx ".ts")
          && negb (PyStr.startswith "//" st) then
    ("// " ++ cmt ++ NEWLINE ++ s)%string
  else if String.eqb sfx ".md" && PyStr.is_empty (PyStr.strip st) then cmt
  else if String.eqb sfx ".sh" && negb (PyStr.startswith "# " st) then
    ("# " ++ cmt ++ NEWLINE ++ s)%string
  else c.

(** The text of the file at a key; empty when there is no file. *)
Definition cont (f : fs) (k : list string) : string :=
  match f !! k with Some (File c) => c | _ => ""%string end.

(** The part of [write_comment] after the file has been created. *)
Definition write_header (self : TreePath) : M fs unit :=
  let p := path self in
  let* st := read_prefix 4 p in
  let sfx := suffix p in
  if String.eqb sfx ".py" && negb (PyStr.startswith TRIPLE_QUOTE st) then
    let* s := read_text p in
    write_text p (TRIPLE_QUOTE ++ comment self ++ TRIPLE_QUOTE ++ NEWLINE ++ s)%string
  else if (String.eqb sfx ".js" || String.eqb sfx ".ts")
          && negb (PyStr.startswith "//" st) then
    let* s := read_text p in
    write_text p ("// " ++ comment self ++ NEWLINE ++ s)%string
  else if String.eqb sfx ".md" && PyStr.is_empty (PyStr.strip st) then
    write_text p (comment self)
  else if String.eqb sfx ".sh" && negb (PyStr.startswith "# " st) then
    let* s := read_text p in
    write_text p ("# " ++ comment self ++ NEWLINE ++ s)%string
  else ret tt.

(** [f'] has the entries of [f] and possibly new directories. *)
Definition grows (f f' : fs) : Prop :=
  forall k, f' !! k = f !! k \/ (f !! k = None /\ f' !! k = Some Dir).

(** What [mktree] does at one node: at a directory, make sure it exists;
    at a file, make sure its parent exists and write the header. *)
Inductive action :=
| ADir (p : PurePath) (mode : Z) (parents exist_ok : bool)
| AFile (o : TreePath) (mode : Z) (parents : bool).

Definition run_action (a : action) : M fs unit :=
  match a with
  | ADir p mode parents exist_ok =>
      let* ex := path_exists p in
      if ex then ret tt else mkdir p mode parents exist_ok
  | AFile o mode parents =>
      (let* ex := path_exists (path o) in
       if ex then ret tt else mkdir (parent (path o)) mode parents true) ;;;
      write_comment o
  end.

(** The actions of [mktree] at a node and below, in the order of the
    walk; [None] when the walk does not end within [fuel]. *)
Fixpoint actions (fuel : nat) (h : heap) (self : loc) (mode : Z)
    (parents exist_ok : bool) : option (list action) :=
  match fuel with
  | O => None
  | S n =>
      match h !! self with
      | None => None
      | Some o =>
          if is_dir_spec o then
            match mapM (fun c => actions n h c mode false exist_ok) (children o) with
            | Some ls => Some (ADir (path o) mode parents exist_ok :: List.concat ls)
            | None => None
            end
          else Some [AFile o mode parents]
      end
  end.

(** The outcome of [mktree] is the outcome of its actions. *)
Definition lift_unit {St} (r : loc) (x : outcome St unit) : outcome St loc :=
  match x with
  | Return _ s => Return r s
  | Raise e => Raise e
  | Stuck => Stuck
  end.

(** What an action does to the text of the file at key [k]. *)
Definition act_text (k : list string) (a : action) (c : string) : string :=
  match a with
  | ADir _ _ _ _ => c
  | AFile o _ _ =>
      if bool_decide (parts (path o) = k)
      then new_content (suffix (path o)) (comment o) c
      else c
  end.

(** What a list of actions does to the text of the file at key [k]. *)
Definition acts_text (k : list string) (acts : list action) (c : string) : string :=
  fold_left (fun c a => act_text k a c) acts c.

(** An action has nothing left to create in [f]. *)
Definition settled (a : action) (f : fs) : Prop :=
  match a with
  | ADir p _ _ _ => entry_at p f <> None
  | AFile o _ _ =>
      is_anchor (path o) = false /\ exists c, f !! parts (path o) = Some (File c)
  end.

(** What a settled action does to the file system. *)
Definition apply_action (a : action) (f : fs) : fs :=
  match a with
  | ADir _ _ _ _ => f
  | AFile o _ _ =>
      <[parts (path o) := File (new_content (suffix (path o)) (comment o)
                                            (cont f (parts (path o))))]> f
  end.

(** [f'] has the entries of [f], each of the same kind. *)
Definition same_kinds (f f' : fs) : Prop :=
  forall k, (f !! k = Some Dir -> f' !! k = Some Dir) /\
            (forall c, f !! k = Some (File c) -> exists c', f' !! k = Some (File c')).

(** No branch of [write_comment] fires on the text [c] of a file with the
    suffix [sfx]. *)
Definition fixed_text (sfx c : string) : bool :=
  let st := PyStr.take 4 (universal_newlines c) in
  if String.eqb sfx ".py" && negb (PyStr.startswith TRIPLE_QUOTE st) then false
  else if (String.eqb sfx ".js" || String.eqb sfx ".ts")
          && negb (PyStr.startswith "//" st) then false
  else if String.eqb sfx ".md" && PyStr.is_empty (PyStr.strip st) then false
  else if String.eqb sfx ".sh" && negb (PyStr.startswith "# " st) then false
  else true.

Definition run_texts (l : list (string -> string)) (c : string) : string :=
  fold_left (fun c w => w c) l c.

(** The updates of the actions that write the file at key [k]. *)
Fixpoint key_updates (k : list string) (acts : list action) : list (string -> string) :=
  match acts with
  | [] => []
  | ADir _ _ _ _ :: rest => key_updates k rest
  | AFile o _ _ :: rest =>
      if bool_decide (parts (path o) = k)
      then new_content (suffix (path o)) (comment o) :: key_updates k rest
      else key_updates k rest
  end.

(** ** The examples *)

(** The tree text of the first example: a directory [a] with a file
    [b.py] annotated "init" and a directory [c] that holds [d.txt]. *)
Definition ex1_text : string :=
  ("a/" ++ String PyStr.LF ("  b.py # init" ++ String PyStr.LF
   ("  c/" ++ String PyStr.LF "    d.txt")))%string.

Definition ex1_tree : Node :=
  MkNode (from_parts [AStr "a"]) true ""
    [ MkNode (from_parts [AStr "a/b.py"]) false "init" [];
      MkNode (from_parts [AStr "a/c"]) true ""
        [ MkNode (from_parts [AStr "a/c/d.txt"]) false "" [] ] ].

(** The store that [from_tree] leaves for the first example. *)
Definition ex1_heap : heap :=
  [ MkTreePath (from_parts [AStr "a"]) [1; 2] "" true;
    MkTreePath (from_parts [AStr "a/b.py"]) [] "init" false;
    MkTreePath (from_parts [AStr "a/c"]) [3] "" true;
    MkTreePath (from_parts [AStr "a/c/d.txt"]) [] "" false ].

(** Two files at level 0, wrapped under the parent path "out". *)
Definition ex2_text : string := ("x.txt" ++ String PyStr.LF "y.txt")%string.

(** A file at level 0 followed by a second file at level 2. *)
Definition ex3_text : string := ("a.py" ++ String PyStr.LF "    b.py")%string.

(** A file at level 0 followed by a comment-only line at level 2. *)
Definition ex3_comment_text : string := ("a.py" ++ String PyStr.LF "    # note")%string.

(** A directory [a] that holds a directory [b], then a directory [c] at
    level 0 followed by a file at level 2. *)
Definition ex8_text : string :=
  ("a/" ++ String PyStr.LF ("  b/" ++ String PyStr.LF
   ("c/" ++ String PyStr.LF "    d.txt")))%string.

(** The tree that [from_tree] returns for [ex8_text]. *)
Definition ex8_tree : Node :=
  MkNode (from_parts [AStr "."]) true ""
    [ MkNode (from_parts [AStr "a"]) true ""
        [ MkNode (from_parts [AStr "a/b"]) true ""
            [ MkNode (from_parts [AStr "a/b/d.txt"]) false "" [] ] ];
      MkNode (from_parts [AStr "c"]) true "" [] ].

(** A Markdown file that starts with an indented line. *)
Definition ex_md_node : TreePath :=
  MkTreePath (from_parts [AStr "notes.md"]) [] "project notes" false.

Definition ex_md_fs : fs :=
  {[ ["notes.md"%string] := File ("    code sample" ++ NEWLINE ++ "More text.")%string ]}.

(** ** Definitions for the further properties *)

(** The entry that a line yields, when it names one: [None] for a line
    whose name part is empty, and for every line when [indent_size] is 0. *)
Definition line_entry (indent_size : Z) (line : string) : option entry :=
  match read_line indent_size line with
  | Some e => if PyStr.is_empty (e_name_part e) then None else Some e
  | None => None
  end.

(** The entries of the lines, in order. *)
Definition entries (indent_size : Z) (lines : list string) : list entry :=
  omap (line_entry indent_size) lines.

(** The entries at level 0, in order. *)
Definition root_entries (indent_size : Z) (lines : list string) : list entry :=
  List.filter (fun e => (e_level e =? 0)%Z) (entries indent_size lines).

(** The number of nodes of a tree. *)
Fixpoint tree_size (t : Node) : nat :=
  match t with
  | MkNode _ _ _ cs => S (list_sum (List.map tree_size cs))
  end.

(** The nodes that [mktree] visits from [self]: [self], and what it
    visits from the children of a visited node that is flagged as a
    directory.  The children of a file node are not visited. *)
Inductive visited (h : heap) : loc -> loc -> Prop :=
| visited_here (self : loc) : visited h self self
| visited_child (self : loc) (o : TreePath) (c l : loc) :
    h !! self = Some o -> is_dir_spec o = true -> c ∈ children o ->
    visited h c l -> visited h self l.

(** The suffixes for which [write_comment] prepends a header line, with
    the marker that it looks for. *)
Definition header_marker (sfx : string) : option string :=
  if String.eqb sfx ".py" then Some TRIPLE_QUOTE
  else if String.eqb sfx ".js" || String.eqb sfx ".ts" then Some "//"%string
  else if String.eqb sfx ".sh" then Some "# "%string
  else None.

(** The header line that [write_comment] prepends for a suffix. *)
Definition header_line (sfx cmt : string) : string :=
  if String.eqb sfx ".py" then (TRIPLE_QUOTE ++ cmt ++ TRIPLE_QUOTE ++ NEWLINE)%string
  else if String.eqb sfx ".js" || String.eqb sfx ".ts" then ("// " ++ cmt ++ NEWLINE)%string
  else ("# " ++ cmt ++ NEWLINE)%string.

(** The suffixes that [write_comment] recognizes. *)
Definition known_suffix (sfx : string) : bool :=
  String.eqb sfx ".py" || String.eqb sfx ".js" || String.eqb sfx ".ts"
  || String.eqb sfx ".md" || String.eqb sfx ".sh".

(** No component of the path is "..".  The file system looks an entry
    up by the components of its path as they are written, which is what
    the operating system does for such a path. *)
Definition no_dotdot (p : PurePath) : bool :=
  forallb (fun x => negb (String.eqb x "..")) (parts p).

(** The action of [mktree] at the object [o]. *)
Definition is_action_of (o : TreePath) (a : action) : Prop :=
  if is_dir_spec o
  then exists mode parents exist_ok, a = ADir (path o) mode parents exist_ok
  else exists mode parents, a = AFile o mode parents.

(** Every object of [h] is in [h'] with the same path, annotation and
    directory flag; only child lists may differ. *)
Definition same_fields (h h' : heap) : Prop :=
  forall l o, h !! l = Some o ->
    exists o', h' !! l = Some o' /\ path o' = path o /\
               comment o' = comment o /\ is_dir_spec o' = is_dir_spec o.

(** The object at [r] is the root node of the entry [e]. *)
Definition root_of (h : heap) (r : loc) (e : entry) : Prop :=
  exists o, h !! r = Some o /\ path o = from_parts [AStr (e_name e)] /\
            comment o = e_comment e /\ is_dir_spec o = e_is_dir e.

(** * Properties *)

(** ** The string and path operations on examples *)

Example splitlines_ex :
  PyStr.splitlines (String "a" (String PyStr.LF (String PyStr.LF (String "b" (String PyStr.CR (String PyStr.LF "")))))) = ["a"; ""; "b"].
Proof. reflexivity. Qed.

Example path_ex1 : to_str (from_parts [AStr "a//b/./c/"]) = "a/b/c". Proof. reflexivity. Qed.
Example path_ex2 : to_str (from_parts [AStr "a"; AStr "/etc"; AStr "x"]) = "/etc/x". Proof. reflexivity. Qed.
Example path_ex3 : to_str (from_parts [AStr ""]) = ".". Proof. reflexivity. Qed.
Example path_ex4 : to_str (from_parts [APath (from_parts [AStr "//a"]); AStr "b.tar.gz"]) = "//a/b.tar.gz". Proof. reflexivity. Qed.
Example path_ex5 : suffix (from_parts [AStr "a/b.tar.gz"]) = ".gz" /\ suffix (from_parts [AStr "a/.bashrc"]) = "" /\ suffix (from_parts [AStr "a."]) = "". Proof. repeat split; reflexivity. Qed.
Example path_ex6 : to_str (parent (from_parts [AStr "a"])) = "." /\ to_str (parent (from_parts [AStr "/"])) = "/" /\ to_str (parent (from_parts [AStr "/a/b"])) = "/a". Proof. repeat split; reflexivity. Qed.
Example path_ex7 : to_str (truediv (from_parts [AStr "out"]) "x.txt") = "out/x.txt". Proof. reflexivity. Qed.

(** ** Induction on trees *)

Lemma Node_ind (P : Node -> Prop) :
  (forall p d c cs, Forall P cs -> P (MkNode p d c cs)) ->
  forall t, P t.
Proof.
  intros H. fix IH 1. intros [p d c cs]. apply H.
  induction cs as [|x xs IHxs]; constructor; [apply IH | exact IHxs].
Qed.

(** ** The store operations *)

Lemma load_app_l (h ext : heap) l o :
  h !! l = Some o -> load l (h ++ ext) = Return o (h ++ ext).
Proof. intros Hl. unfold load. by rewrite (lookup_app_l_Some _ _ _ _ Hl). Qed.

Lemma load_middle (h ext : heap) o :
  load (length h) (h ++ o :: ext) = Return o (h ++ o :: ext).
Proof. unfold load. by rewrite list_lookup_middle. Qed.

Lemma modify_middle (h ext : heap) o f :
  modify (length h) f (h ++ o :: ext) = Return tt (h ++ f o :: ext).
Proof.
  unfold modify. rewrite list_lookup_middle by done.
  f_equal. rewrite insert_app_r_alt by lia.
  by rewrite Nat.sub_diag.
Qed.

Lemma bind_Return {St A B} (c : M St A) (k : A -> M St B) s a s' :
  c s = Return a s' -> bind c k s = k a s'.
Proof. intros H. unfold bind. by rewrite H. Qed.

Lemma bind_inv {St A B} (c : M St A) (k : A -> M St B) s b s'' :
  bind c k s = Return b s'' ->
  exists a s', c s = Return a s' /\ k a s' = Return b s''.
Proof. unfold bind. destruct (c s) as [a s'| |]; [eauto | done | done]. Qed.

(** ** Reading trees out of the store *)

Lemma reify_S n h l :
  reify (S n) h l =
  match h !! l with
  | Some o =>
      match mapM (reify n h) (children o) with
      | Some cs => Some (MkNode (path o) (is_dir_spec o) (comment o) cs)
      | None => None
      end
  | None => None
  end.
Proof. reflexivity. Qed.

Lemma mapM_impl {A B} (f g : A -> option B) l k :
  (forall x y, x ∈ l -> f x = Some y -> g x = Some y) ->
  mapM f l = Some k -> mapM g l = Some k.
Proof.
  intros Hfg. rewrite !mapM_Some. intros HF.
  induction HF as [|x y l k Hxy HF IH]; constructor.
  - apply Hfg; [left | done].
  - apply IH. intros x' y' Hin. apply Hfg. by right.
Qed.

(** More fuel reads the same tree. *)
Lemma reify_mono n m h l t :
  reify n h l = Some t -> n <= m -> reify m h l = Some t.
Proof.
  revert m l t. induction n as [|n IH]; intros m l t Hr Hle; [done|].
  destruct m as [|m]; [lia|]. rewrite reify_S in *.
  destruct (h !! l) as [o|]; [|done].
  destruct (mapM (reify n h) (children o)) as [cs|] eqn:Hm; [|done].
  rewrite (mapM_impl (reify n h) (reify m h) _ cs); [done| |done].
  intros x y _ Hx. apply IH; [done | lia].
Qed.

(** Objects allocated later do not change the tree below a reference. *)
Lemma reify_extend n h ext l t :
  reify n h l = Some t -> reify n (h ++ ext) l = Some t.
Proof.
  revert l t. induction n as [|n IH]; intros l t Hr; [done|].
  rewrite reify_S in *.
  destruct (h !! l) as [o|] eqn:Hl; [|done].
  rewrite (lookup_app_l_Some _ _ _ _ Hl).
  destruct (mapM (reify n h) (children o)) as [cs|] eqn:Hm; [|done].
  rewrite (mapM_impl (reify n h) (reify n (h ++ ext)) _ cs); [done| |done].
  intros x y _ Hx. by apply IH.
Qed.

(** ** [rebase] and [reparent] *)

Lemma rebase_S fuel self p :
  rebase (S fuel) self p =
  (let* new_root := new_default [APath p] in
   let* me := load self in
   set_is_dir_spec new_root (is_dir_spec me) ;;;
   let* me := load self in
   set_comment new_root (comment me) ;;;
   set_children new_root [] ;;;
   let* me := load self in
   for_each (rebase_child fuel new_root) (children me) ;;;
   ret new_root).
Proof. reflexivity. Qed.

Lemma rebase_loop n (IH : rebase_ok n) :
  forall cs ts (h : heap) P d cmt acc ext1,
    mapM (reify n h) cs = Some ts ->
    exists new ext2,
      for_each (rebase_child n (length h)) cs
               (h ++ MkTreePath P acc cmt d :: ext1) =
        Return tt (h ++ MkTreePath P (acc ++ new) cmt d :: ext1 ++ ext2) /\
      forall g : heap, length g = S (length h) ->
        mapM (reify n (g ++ ext1 ++ ext2)) new =
          Some (List.map (fun t => rebase_tree t (truediv P (name (node_path t)))) ts).
Proof.
  induction cs as [|c cs IHcs]; intros ts h P d cmt acc ext1 Hm.
  - injection Hm as <-. exists [], []. rewrite !app_nil_r. done.
  - rewrite mapM_Some in Hm. apply Forall2_cons_inv_l in Hm as (t & ts' & Hc & Hcs & ->).
    rewrite <- mapM_Some in Hcs.
    set (obj := MkTreePath P acc cmt d).
    assert (Hc' : reify n (h ++ obj :: ext1) c = Some t) by by apply reify_extend.
    destruct (IH (h ++ obj :: ext1) c (truediv P (name (node_path t))) t Hc')
      as (ext & Hrun & Hnew).
    assert (exists oc, h !! c = Some oc /\ path oc = node_path t) as (oc & Hoc & Hpath).
    { destruct n as [|n]; [done|]. rewrite reify_S in Hc.
      destruct (h !! c) as [oc|] eqn:E; [|done]. exists oc. split; [done|].
      destruct (mapM _ _); [|done]. by simplify_eq. }
    destruct (IHcs ts' h P d cmt (acc ++ [length (h ++ obj :: ext1)]) (ext1 ++ ext) Hcs)
      as (new & ext2 & Hloop & Hrest).
    exists (length (h ++ obj :: ext1) :: new), (ext ++ ext2).
    split.
    + cbn [for_each]. unfold rebase_child at 1, reparent_with, add_child.
      unfold bind. rewrite load_middle. cbv beta iota.
      rewrite (load_app_l h (obj :: ext1) c oc Hoc). cbv beta iota.
      cbn [path obj]. rewrite Hpath, Hrun. cbv beta iota.
      rewrite <- (app_assoc h). cbn [app]. rewrite modify_middle.
      unfold ret at 1 2. cbv beta iota. cbn [children path comment is_dir_spec].
      subst obj. cbn [children path comment is_dir_spec].
      rewrite Hloop. rewrite <- !app_assoc. done.
    + intros g Hg. cbn [mapM List.map].
      specialize (Hrest g Hg). rewrite <- !app_assoc in Hrest. rewrite Hrest.
      assert (Hlen : length (h ++ obj :: ext1) = length (g ++ ext1)).
      { rewrite !length_app. cbn. lia. }
      specialize (Hnew (g ++ ext1) (eq_sym Hlen)).
      apply (reify_extend _ _ ext2) in Hnew. rewrite <- !app_assoc in Hnew.
      rewrite Hnew. done.
Qed.

Lemma rebase_ok_all n : rebase_ok n.
Proof.
  induction n as [|n IH]; intros h self p t Hr; [done|].
  rewrite reify_S in Hr.
  destruct (h !! self) as [o|] eqn:Ho; [|done].
  destruct (mapM (reify n h) (children o)) as [ts|] eqn:Hm; [|done].
  injection Hr as <-.
  destruct (rebase_loop n IH (children o) ts h (from_parts [APath p])
              (is_dir_spec o) (comment o) [] [] Hm) as (new & ext2 & Hloop & Hnew).
  exists (MkTreePath (from_parts [APath p]) new (comment o) (is_dir_spec o) :: ext2).
  split.
  - rewrite rebase_S. unfold new_default, alloc, set_is_dir_spec, set_comment, set_children.
    unfold bind. cbv beta iota.
    rewrite !(load_app_l h _ self o Ho). cbv beta iota.
    rewrite !modify_middle. cbv beta iota.
    rewrite !(load_app_l h _ self o Ho). cbv beta iota.
    rewrite !modify_middle. cbv beta iota.
    rewrite !(load_app_l h _ self o Ho). cbv beta iota.
    cbn [path children comment is_dir_spec]. rewrite Hloop. done.
  - intros g Hg. rewrite reify_S. rewrite <- Hg.
    rewrite list_lookup_middle by done. cbn [path children comment is_dir_spec].
    specialize (Hnew (g ++ [MkTreePath (from_parts [APath p]) new (comment o) (is_dir_spec o)])).
    rewrite <- app_assoc in Hnew. cbn [app] in Hnew.
    rewrite Hnew; [done|]. rewrite length_app. cbn. lia.
Qed.

Ltac inv_bind H :=
  let a := fresh "a" in
  let s := fresh "s" in
  let E := fresh "E" in
  apply bind_inv in H as (a & s & E & H).

Lemma ret_inv {St A} (a b : A) (s s' : St) : ret a s = Return b s' -> a = b /\ s = s'.
Proof. unfold ret. intros H. by simplify_eq. Qed.

Lemma load_inv l (h h' : heap) o :
  load l h = Return o h' -> h !! l = Some o /\ h' = h.
Proof. unfold load. destruct (h !! l); intros H; by simplify_eq. Qed.

Lemma modify_inv l f (h h' : heap) u :
  modify l f h = Return u h' -> exists o, h !! l = Some o /\ h' = <[l := f o]> h.
Proof. unfold modify. destruct (h !! l) as [o|]; intros H; [|done]. exists o. by simplify_eq. Qed.

Lemma alloc_inv o (h h' : heap) l :
  alloc o h = Return l h' -> l = length h /\ h' = h ++ [o].
Proof. unfold alloc. intros H. by simplify_eq. Qed.

Lemma keeps_refl k g : keeps k g g.
Proof. by split. Qed.

Lemma keeps_trans k g1 g2 g3 : keeps k g1 g2 -> keeps k g2 g3 -> keeps k g1 g3.
Proof. intros [H1 L1] [H2 L2]. split; [congruence | lia]. Qed.

Lemma keeps_insert k (g : heap) l x : k <= l -> keeps k g (<[l := x]> g).
Proof. intros Hk. split; [by apply take_insert_ge | by rewrite length_insert]. Qed.

Lemma keeps_app k (g ext : heap) : k <= length g -> keeps k g (g ++ ext).
Proof. intros Hk. split; [by rewrite take_app_le | rewrite length_app; lia]. Qed.

Lemma keeps_le k k' g g' : k' <= k -> keeps k g g' -> keeps k' g g'.
Proof.
  intros Hk [H L]. split; [|done].
  assert (E : forall l : heap, take k' l = take k' (take k l)).
  { intros l. rewrite take_take. by rewrite Nat.min_l. }
  by rewrite (E g), (E g'), H.
Qed.

Lemma keeps_prefix (g g' : heap) : keeps (length g) g g' -> exists ext, g' = g ++ ext.
Proof.
  intros [H L]. exists (drop (length g) g').
  rewrite <- (take_drop (length g) g') at 1. rewrite H. by rewrite take_ge.
Qed.

Lemma modify_keeps k l f (g g' : heap) u :
  k <= l -> modify l f g = Return u g' -> keeps k g g'.
Proof. intros Hk (o & _ & ->)%modify_inv. by apply keeps_insert. Qed.

Lemma for_each_keeps {A} k (f : A -> M heap unit) l :
  (forall x g u g', x ∈ l -> k < length g -> f x g = Return u g' -> keeps k g g') ->
  forall g u g', k < length g -> for_each f l g = Return u g' -> keeps k g g'.
Proof.
  induction l as [|x l IH]; intros Hf g u g' Hk H.
  - apply ret_inv in H as [_ <-]. apply keeps_refl.
  - cbn [for_each] in H. inv_bind H.
    assert (keeps k g s) as Hs by (eapply Hf; [left | done | done]).
    eapply keeps_trans; [exact Hs|].
    eapply IH; [|destruct Hs; lia|exact H].
    intros x' g0 u0 g0' Hin. apply Hf. by right.
Qed.

(** [rebase] allocates its result and changes none of the objects that
    were there when it was called. *)
Lemma rebase_frame n :
  forall self p (g : heap) r g',
    rebase n self p g = Return r g' -> r = length g /\ keeps (length g) g g'.
Proof.
  induction n as [|n IH]; intros self p g r g' H; [done|].
  rewrite rebase_S in H.
  apply bind_inv in H as (nr & g0 & E0 & H). apply alloc_inv in E0 as [-> ->].
  apply bind_inv in H as (me1 & g1 & E1 & H). apply load_inv in E1 as [_ ->].
  apply bind_inv in H as (u2 & g2 & E2 & H).
  apply (modify_keeps (length g)) in E2 as K2; [|done].
  apply bind_inv in H as (me3 & g3 & E3 & H). apply load_inv in E3 as [_ ->].
  apply bind_inv in H as (u4 & g4 & E4 & H).
  apply (modify_keeps (length g)) in E4 as K4; [|done].
  apply bind_inv in H as (u5 & g5 & E5 & H).
  apply (modify_keeps (length g)) in E5 as K5; [|done].
  apply bind_inv in H as (me6 & g6 & E6 & H). apply load_inv in E6 as [_ ->].
  apply bind_inv in H as (u7 & g7 & E7 & H).
  apply ret_inv in H as [<- <-]. split; [done|].
  assert (K0 : keeps (length g) g (g ++ [MkTreePath (from_parts [APath p]) [] "" false])).
  { apply keeps_app. lia. }
  assert (K : keeps (length g) g g5).
  { eapply keeps_trans; [|exact K5]. eapply keeps_trans; [|exact K4].
    eapply keeps_trans; [|exact K2]. exact K0. }
  assert (L : length g < length g5).
  { destruct K2 as [_ L2], K4 as [_ L4], K5 as [_ L5].
    rewrite length_app in L2. cbn in L2. lia. }
  eapply keeps_trans; [exact K|].
  eapply (for_each_keeps (length g)); [|exact L|exact E7].
  intros c h u h' _ Hlen Hc. unfold rebase_child, reparent_with, add_child in Hc.
  apply bind_inv in Hc as (c' & h1 & Ec & Hc).
  apply bind_inv in Ec as (np & h2 & Ea & Ec). apply load_inv in Ea as [_ ->].
  apply bind_inv in Ec as (mc & h3 & Ea & Ec). apply load_inv in Ea as [_ ->].
  apply IH in Ec as [-> Kc].
  apply bind_inv in Hc as (u8 & h4 & Ea & Hc). apply ret_inv in Hc as [_ <-].
  apply bind_inv in Ea as (u9 & h5 & Ea & Eb). apply ret_inv in Eb as [_ <-].
  eapply keeps_trans; [eapply keeps_le; [|exact Kc]; lia|].
  eapply modify_keeps; [|exact Ea]. lia.
Qed.

Lemma bind_mono {St A B} (c c' : M St A) (k k' : A -> M St B) s b s'' :
  bind c k s = Return b s'' ->
  (forall a s', c s = Return a s' -> c' s = Return a s') ->
  (forall a s', k a s' = Return b s'' -> k' a s' = Return b s'') ->
  bind c' k' s = Return b s''.
Proof.
  intros (a & s' & Ec & Ek)%bind_inv Hc Hk.
  rewrite (bind_Return _ _ _ _ _ (Hc _ _ Ec)). by apply Hk.
Qed.

Lemma for_each_mono {St A} (f f' : A -> M St unit) l :
  (forall x g u g', f x g = Return u g' -> f' x g = Return u g') ->
  forall g u g', for_each f l g = Return u g' -> for_each f' l g = Return u g'.
Proof.
  intros Hf. induction l as [|x l IH]; intros g u g' H; [done|].
  cbn [for_each] in *. eapply bind_mono; [exact H|by auto|by auto].
Qed.

Lemma list_comp_mono {St A B} (f f' : A -> M St B) l :
  (forall x g y g', f x g = Return y g' -> f' x g = Return y g') ->
  forall g ys g', list_comp f l g = Return ys g' -> list_comp f' l g = Return ys g'.
Proof.
  intros Hf. induction l as [|x l IH]; intros g ys g' H; [done|].
  cbn [list_comp] in *. eapply bind_mono; [exact H|by auto|].
  intros y s' Hy. eapply bind_mono; [exact Hy|by auto|by auto].
Qed.

Ltac mono_step H :=
  eapply bind_mono; [exact H | done | ]; clear H; intros ? ? H; cbv beta in H.

(** More fuel does not change what [rebase] returns. *)
Lemma rebase_fuel_mono n :
  forall m self p (g : heap) r g',
    rebase n self p g = Return r g' -> n <= m -> rebase m self p g = Return r g'.
Proof.
  induction n as [|n IH]; intros m self p g r g' H Hle; [done|].
  destruct m as [|m]; [lia|]. rewrite rebase_S in *.
  do 7 mono_step H.
  eapply bind_mono; [exact H| |done].
  apply for_each_mono. intros c h u h' Hc.
  unfold rebase_child, reparent_with in *.
  eapply bind_mono; [exact Hc| |done]. clear Hc. intros c' h1 Hc.
  do 2 mono_step Hc.
  apply IH; [done | lia].
Qed.

Lemma reparent_fuel_mono n m self np (g : heap) r g' :
  reparent n self np g = Return r g' -> n <= m -> reparent m self np g = Return r g'.
Proof.
  unfold reparent, reparent_with. intros H Hle.
  do 2 mono_step H.
  by eapply rebase_fuel_mono.
Qed.

(** ** Shapes of re-rooted trees *)

Lemma same_structure_rebase_tree t : forall p, same_structure t (rebase_tree t p).
Proof.
  induction t as [q d c cs IH] using Node_ind. intros p. cbn.
  split; [done|]. split; [done|]. split; [by rewrite length_map|].
  induction IH as [|x xs Hx _ IHxs]; cbn; [done|]. split; [apply Hx | apply IHxs].
Qed.

Lemma files_are_leaves_rebase_tree t :
  forall p, files_are_leaves t -> files_are_leaves (rebase_tree t p).
Proof.
  induction t as [q d c cs IH] using Node_ind. intros p [Hd Hcs]. cbn.
  split; [intros ->%Hd; done|].
  clear Hd. induction IH as [|x xs Hx _ IHxs]; cbn; [done|].
  destruct Hcs as [Hx' Hxs']. split; [by apply Hx | by apply IHxs].
Qed.

(** ** No name read from a tree text contains a newline *)

Section NoNewline.
Import PyStr.

Variable c : ascii.

Lemma contains_rev_app s acc :
  contains c (String.rev_app s acc) = contains c s || contains c acc.
Proof.
  revert acc. induction s as [|d s IH]; intros acc; cbn; [done|].
  rewrite IH. cbn. destruct (Ascii.eqb c d), (contains c s), (contains c acc); done.
Qed.

Lemma contains_rev s : contains c (String.rev s) = contains c s.
Proof. unfold String.rev. rewrite contains_rev_app. cbn. by rewrite orb_false_r. Qed.

Lemma contains_lstrip_by p s :
  contains c s = false -> contains c (lstrip_by p s) = false.
Proof.
  induction s as [|d s IH]; cbn; [done|]. intros [Hd Hs]%orb_false_elim.
  destruct (p d); [by apply IH|]. cbn. by rewrite Hd, Hs.
Qed.

Lemma contains_rstrip_by p s :
  contains c s = false -> contains c (rstrip_by p s) = false.
Proof.
  induction s as [|d s IH]; cbn; [done|]. intros [Hd Hs]%orb_false_elim.
  destruct (is_empty (rstrip_by p s) && p d); cbn; [done|]. by rewrite Hd, IH.
Qed.

Lemma contains_split_first_fst d s :
  contains c s = false -> contains c (fst (split_first d s)) = false.
Proof.
  induction s as [|x s IH]; cbn; [done|]. intros [Hx Hs]%orb_false_elim.
  destruct (Ascii.eqb d x); [done|]. specialize (IH Hs).
  destruct (split_first d s) as [a b]. cbn in *. by rewrite Hx, IH.
Qed.

Lemma contains_drop_last s :
  contains c s = false -> contains c (drop_last s) = false.
Proof.
  induction s as [|x s IH]; cbn; [done|]. intros [Hx Hs]%orb_false_elim.
  destruct s as [|y s]; [done|]. specialize (IH Hs). cbn in *. by rewrite Hx, IH.
Qed.

End NoNewline.

Lemma splitlines_from_no_newline_aux n :
  forall s cur l,
    String.length s <= n ->
    PyStr.contains PyStr.LF cur = false ->
    l ∈ PyStr.splitlines_from cur s ->
    PyStr.contains PyStr.LF l = false.
Proof.
  induction n as [|n IH]; intros s cur l Hn Hcur Hin.
  - destruct s as [|x s]; [|cbn in Hn; lia]. cbn in Hin.
    destruct (PyStr.is_empty cur); [by apply elem_of_nil in Hin|].
    apply list_elem_of_singleton in Hin as ->. by rewrite contains_rev.
  - destruct s as [|x s]; cbn [PyStr.splitlines_from] in Hin.
    { destruct (PyStr.is_empty cur); [by apply elem_of_nil in Hin|].
      apply list_elem_of_singleton in Hin as ->. by rewrite contains_rev. }
    cbn in Hn. destruct (Ascii.eqb x PyStr.CR) eqn:Hcr.
    + destruct s as [|d s].
      * apply list_elem_of_singleton in Hin as ->. by rewrite contains_rev.
      * cbn in Hn. destruct (Ascii.eqb d PyStr.LF);
          apply elem_of_cons in Hin as [->|Hin]; try by rewrite contains_rev.
        -- eapply (IH s ""%string); [lia|done|exact Hin].
        -- eapply (IH (String d s) ""%string); [cbn; lia|done|exact Hin].
    + destruct (PyStr.is_linebreak x) eqn:Hlb.
      * apply elem_of_cons in Hin as [->|Hin]; [by rewrite contains_rev|].
        eapply (IH s ""%string); [lia|done|exact Hin].
      * eapply (IH s (String x cur)); [lia| |exact Hin]. cbn. rewrite Hcur, orb_false_r.
        destruct (Ascii.eqb PyStr.LF x) eqn:E; [|done].
        apply Ascii.eqb_eq in E as <-. done.
Qed.

Lemma splitlines_from_no_newline s cur l :
  PyStr.contains PyStr.LF cur = false ->
  l ∈ PyStr.splitlines_from cur s ->
  PyStr.contains PyStr.LF l = false.
Proof. by apply (splitlines_from_no_newline_aux (String.length s)). Qed.

Lemma spec_lines_no_newline text indent_size line :
  line ∈ spec_lines text indent_size -> PyStr.contains PyStr.LF line = false.
Proof.
  unfold spec_lines. intros Hin%list_elem_of_In.
  apply in_map_iff in Hin as (l & <- & Hl). apply filter_In in Hl as [Hl _].
  apply contains_rstrip_by. apply list_elem_of_In in Hl.
  unfold PyStr.splitlines in Hl.
  by apply (splitlines_from_no_newline _ ""%string l eq_refl Hl).
Qed.

Lemma read_line_no_newline indent_size line e :
  PyStr.contains PyStr.LF line = false ->
  read_line indent_size line = Some e ->
  PyStr.contains PyStr.LF (e_name e) = false.
Proof.
  intros Hline. unfold read_line. destruct (indent_size =? 0)%Z; [done|].
  pose proof (contains_lstrip_by PyStr.LF (Ascii.eqb PyStr.SPACE) line Hline) as Hc.
  set (content := PyStr.lstrip_by _ line) in *.
  assert (Hn : PyStr.contains PyStr.LF (e_name_part e) = false ->
               PyStr.contains PyStr.LF (e_name e) = false).
  { intros H. unfold e_name. destruct (e_is_dir e); [by apply contains_drop_last|done]. }
  destruct (PyStr.contains "#" content).
  - pose proof (contains_split_first_fst PyStr.LF "#" content Hc) as Hf.
    destruct (PyStr.split_first "#" content) as [a b]. intros [= <-]. apply Hn. cbn.
    by apply contains_rstrip_by.
  - intros [= <-]. apply Hn. cbn. by apply contains_rstrip_by.
Qed.

(** ** The constructor calls of [from_tree] never re-enter [from_tree] *)

Lemma TreePath_new_plain os fuel nm :
  PyStr.contains PyStr.LF nm = false ->
  TreePath_new os fuel [AStr nm] = cls_plain nm.
Proof. intros H. destruct fuel; cbn; by rewrite H. Qed.

Lemma from_tree_line_ext cls1 cls2 indent_size line st h :
  (forall e, read_line indent_size line = Some e -> cls1 (e_name e) = cls2 (e_name e)) ->
  from_tree_line cls1 indent_size line st h = from_tree_line cls2 indent_size line st h.
Proof.
  intros H. unfold from_tree_line.
  destruct (read_line indent_size line) as [e|]; [|done].
  by rewrite (H e eq_refl).
Qed.

Lemma from_tree_lines_ext cls1 cls2 indent_size lines :
  (forall line, line ∈ lines -> PyStr.contains PyStr.LF line = false) ->
  (forall nm, PyStr.contains PyStr.LF nm = false -> cls1 nm = cls2 nm) ->
  forall st h,
    from_tree_lines cls1 indent_size lines st h =
    from_tree_lines cls2 indent_size lines st h.
Proof.
  intros Hlines Hcls. induction lines as [|line lines IH]; intros st h; [done|].
  cbn [from_tree_lines]. unfold bind.
  rewrite (from_tree_line_ext cls1 cls2).
  - destruct (from_tree_line cls2 indent_size line st h); [|done|done].
    apply IH. intros l Hl. apply Hlines. by right.
  - intros e He. apply Hcls. eapply read_line_no_newline; [|exact He].
    apply Hlines. by left.
Qed.

Lemma from_tree_unfold os fuel text rp pp indent_size h :
  from_tree os fuel text rp pp indent_size h =
  (let* root_path := expand_arg os rp in
   let* parent_path := expand_arg os pp in
   let* st := first_pass text indent_size in
   from_tree_select fuel (raw_roots st) root_path parent_path) h.
Proof.
  unfold from_tree, from_tree_with, first_pass, bind.
  destruct (expand_arg os rp h) as [rp' h1| |]; [|done|done].
  destruct (expand_arg os pp h1) as [pp' h2| |]; [|done|done].
  rewrite (from_tree_lines_ext _ cls_plain); [done| |].
  - intros line. apply spec_lines_no_newline.
  - intros nm. apply TreePath_new_plain.
Qed.

Lemma expand_arg_inv os x (h h' : heap) r :
  expand_arg os x h = Return r h' -> h' = h.
Proof.
  unfold expand_arg. destruct x as [a|]; [|by intros [_ ->]%ret_inv].
  destruct (expanduser os (from_parts [a])); [by intros [_ ->]%ret_inv|done].
Qed.

(** ** The invariant of the first pass *)

Lemma heap_ok_app k (h : heap) o :
  heap_ok k h -> children o = [] -> heap_ok k (h ++ [o]).
Proof.
  intros Hok Ho l o' Hk Hl. rewrite length_app. cbn.
  apply lookup_app_Some in Hl as [Hl|[Hlen Hl]].
  - destruct (Hok l o' Hk Hl) as [Hc Hd]. split; [|done].
    intros c Hin. specialize (Hc c Hin). lia.
  - apply list_lookup_singleton_Some in Hl as [_ <-]. rewrite Ho. split; [|done].
    intros c Hin. by apply elem_of_nil in Hin.
Qed.

Lemma heap_ok_insert k (h : heap) l o' :
  heap_ok k h ->
  (forall c, c ∈ children o' -> l < c < length h) ->
  (is_dir_spec o' = false -> children o' = []) ->
  heap_ok k (<[l := o']> h).
Proof.
  intros Hok Hc Hd l' o'' Hk Hl. rewrite length_insert.
  apply list_lookup_insert_Some in Hl as [(-> & <- & _)|[Hne Hl]]; [done|].
  by apply Hok.
Qed.

Lemma dir_at_app (h ext : heap) l : dir_at h l -> dir_at (h ++ ext) l.
Proof. intros (o & Hl & Hd). exists o. split; [by apply lookup_app_l_Some|done]. Qed.

Lemma dir_at_insert (h : heap) l p po po' :
  h !! p = Some po -> is_dir_spec po' = is_dir_spec po ->
  dir_at h l -> dir_at (<[p := po']> h) l.
Proof.
  intros Hp Hd (o & Hl & Ho). destruct (decide (p = l)) as [->|Hne].
  - exists po'. split; [|congruence].
    apply list_lookup_insert_eq. by eapply lookup_lt_Some.
  - exists o. by rewrite list_lookup_insert_ne.
Qed.

(** Membership in the results of the integer-indexed list operations. *)
Lemma elem_of_py_slice_to {A} (l : list A) k x : x ∈ py_slice_to l k -> x ∈ l.
Proof.
  unfold py_slice_to. destruct (0 <=? k)%Z;
    intros (i & Hi & _)%elem_of_take; apply list_elem_of_lookup; eauto.
Qed.

Lemma elem_of_py_index {A} (l : list A) i x : py_index l i = Some x -> x ∈ l.
Proof.
  unfold py_index. destruct (py_position (length l) i); [|done].
  intros H. apply list_elem_of_lookup. eauto.
Qed.

Lemma elem_of_insert_inv {A} (l : list A) i x y :
  y ∈ <[i := x]> l -> y = x \/ y ∈ l.
Proof.
  intros (j & Hj)%list_elem_of_lookup.
  apply list_lookup_insert_Some in Hj as [(_ & -> & _)|[_ Hj]]; [by left|].
  right. apply list_elem_of_lookup. eauto.
Qed.

Lemma elem_of_py_setitem {A} (l l' : list A) i x y :
  py_setitem l i x = Some l' -> y ∈ l' -> y = x \/ y ∈ l.
Proof.
  unfold py_setitem. destruct (py_position (length l) i); [|done].
  intros [= <-]. apply elem_of_insert_inv.
Qed.

Lemma from_tree_line_inv k indent_size line st (h : heap) st' h' :
  k <= length h ->
  parse_inv k h st ->
  from_tree_line cls_plain indent_size line st h = Return st' h' ->
  parse_inv k h' st' /\ keeps k h h'.
Proof.
  intros Hk [Hroots Hstack Hok] H. unfold from_tree_line in H.
  destruct (read_line indent_size line) as [e|] eqn:He; [|done].
  destruct (PyStr.is_empty (e_name_part e)) eqn:Hne.
  { apply ret_inv in H as [<- <-]. split; [done | apply keeps_refl]. }
  apply bind_inv in H as (ps & g0 & Eps & H).
  assert (Hps : g0 = h /\ (forall l, l ∈ snd ps -> l ∈ stack st) /\
                (forall p, fst ps = Some p -> p ∈ stack st)).
  { destruct (e_level e =? 0)%Z.
    - apply ret_inv in Eps as [<- <-]. by repeat split.
    - destruct (py_index _ _) as [p|] eqn:Hp; [|done].
      apply ret_inv in Eps as [<- <-]. cbn. repeat split.
      + apply elem_of_py_slice_to.
      + intros p' [= <-]. eapply elem_of_py_slice_to, elem_of_py_index, Hp. }
  destruct Hps as (-> & Hstk & Hpar). destruct ps as [parent stk]. cbn [fst snd] in *.
  apply bind_inv in H as (node & g1 & Enode & H).
  assert (Hnode : node = length h /\
                  exists P, g1 = h ++ [MkTreePath P [] "" false]).
  { destruct parent as [p|].
    - apply bind_inv in Enode as (po & g & El & Enode). apply load_inv in El as [_ ->].
      apply alloc_inv in Enode as [-> ->]. eauto.
    - apply alloc_inv in Enode as [-> ->]. eauto. }
  destruct Hnode as (-> & P & ->). clear Enode.
  apply bind_inv in H as (u1 & g2 & E1 & H).
  unfold set_comment in E1. rewrite modify_middle in E1. injection E1 as _ <-.
  apply bind_inv in H as (u2 & g3 & E2 & H).
  unfold set_is_dir_spec in E2. rewrite modify_middle in E2. injection E2 as _ <-.
  cbn [path children comment is_dir_spec] in H.
  set (onew := MkTreePath P [] (e_comment e) (e_is_dir e)) in *.
  apply bind_inv in H as (roots & g4 & Eroots & H).
  assert (F : keeps k h g4 /\ length g4 = S (length h) /\ heap_ok k g4 /\
              (forall l, dir_at h l -> dir_at g4 l) /\
              (exists o, g4 !! length h = Some o /\ is_dir_spec o = e_is_dir e) /\
              (forall l, l ∈ roots -> l ∈ raw_roots st \/ l = length h)).
  { destruct parent as [p|].
    - apply bind_inv in Eroots as (c & g & Ea & Er). apply ret_inv in Er as [<- <-].
      unfold add_child in Ea. apply bind_inv in Ea as (u & g' & Ea & Er).
      apply ret_inv in Er as [_ <-]. apply modify_inv in Ea as (po & Hpo & ->).
      destruct (Hstack p (Hpar p eq_refl)) as [Hkp (po' & Hpo' & Hdir)].
      rewrite (lookup_app_l_Some _ _ _ _ Hpo') in Hpo. injection Hpo as <-.
      pose proof (lookup_lt_Some _ _ _ Hpo') as Hlt.
      refine (conj _ (conj _ (conj _ (conj _ (conj _ _))))).
      + split; [|rewrite length_insert, length_app; cbn; lia].
        rewrite take_insert_ge by done. by rewrite take_app_le.
      + rewrite length_insert, length_app. cbn. lia.
      + apply heap_ok_insert.
        * by apply heap_ok_app.
        * cbn. intros c' [Hc| ->%list_elem_of_singleton]%elem_of_app.
          -- destruct (Hok p po' Hkp Hpo') as [Hcs _]. specialize (Hcs c' Hc).
             rewrite length_app. cbn. lia.
          -- rewrite length_app. cbn. lia.
        * cbn. congruence.
      + intros l Hl. eapply dir_at_insert; [by apply lookup_app_l_Some|done|].
        by apply dir_at_app.
      + exists onew. split; [|done]. rewrite list_lookup_insert_ne by lia.
        by apply list_lookup_middle.
      + by left.
    - apply ret_inv in Eroots as [<- <-].
      refine (conj _ (conj _ (conj _ (conj _ (conj _ _))))).
      + by apply keeps_app.
      + rewrite length_app. cbn. lia.
      + by apply heap_ok_app.
      + intros l. apply dir_at_app.
      + exists onew. split; [by apply list_lookup_middle|done].
      + intros l [Hl| ->%list_elem_of_singleton]%elem_of_app; [by left|by right]. }
  destruct F as (Hkeep & Hlen & Hok4 & Hdir & (o4 & Ho4 & Hd4) & Hr4).
  assert (Hst : exists stk', st' = MkPState roots stk' /\ h' = g4 /\
            forall l, l ∈ stk' -> l ∈ stk \/ (l = length h /\ e_is_dir e = true)).
  { destruct (e_is_dir e) eqn:Hisdir.
    - destruct (e_level e =? Z.of_nat (length stk))%Z.
      + apply ret_inv in H as [<- <-]. eexists. split; [done|]. split; [done|].
        intros l [Hl| ->%list_elem_of_singleton]%elem_of_app; [by left|by right].
      + destruct (py_setitem stk (e_level e) (length h)) as [stk'|] eqn:Hset; [|done].
        apply ret_inv in H as [<- <-]. eexists. split; [done|]. split; [done|].
        intros l Hl. destruct (elem_of_py_setitem _ _ _ _ _ Hset Hl); [by right|by left].
    - apply ret_inv in H as [<- <-]. eexists. split; [done|]. split; [done|].
      intros l Hl. by left. }
  destruct Hst as (stk' & -> & -> & Hstk').
  split; [|done]. constructor; cbn [raw_roots stack].
  - intros l Hl. rewrite Hlen. destruct (Hr4 l Hl) as [Hl'| ->]; [|lia].
    specialize (Hroots l Hl'). lia.
  - intros l Hl. destruct (Hstk' l Hl) as [Hl'|[-> Hisdir]].
    + destruct (Hstack l (Hstk l Hl')) as [Hkl Hdl]. split; [done|by apply Hdir].
    + split; [done|]. exists o4. split; [done|congruence].
  - done.
Qed.

Lemma from_tree_lines_inv k indent_size lines :
  forall st (h : heap) st' h',
    k <= length h ->
    parse_inv k h st ->
    from_tree_lines cls_plain indent_size lines st h = Return st' h' ->
    parse_inv k h' st' /\ keeps k h h'.
Proof.
  induction lines as [|line lines IH]; intros st h st' h' Hk Hinv H.
  - apply ret_inv in H as [<- <-]. split; [done | apply keeps_refl].
  - cbn [from_tree_lines] in H. apply bind_inv in H as (st1 & h1 & E & H).
    destruct (from_tree_line_inv k _ _ _ _ _ _ Hk Hinv E) as [Hinv1 K1].
    destruct (IH st1 h1 st' h') as [Hinv' K']; [destruct K1; lia|done|done|].
    split; [done | by eapply keeps_trans].
Qed.

Lemma first_pass_inv text indent_size (h : heap) st h' :
  first_pass text indent_size h = Return st h' ->
  parse_inv (length h) h' st /\ keeps (length h) h h'.
Proof.
  apply from_tree_lines_inv; [done|]. constructor; cbn.
  - intros l Hl. by apply elem_of_nil in Hl.
  - intros l Hl. by apply elem_of_nil in Hl.
  - intros l o Hl Ho. apply lookup_lt_Some in Ho. lia.
Qed.

Lemma files_are_leaves_node p d c cs :
  files_are_leaves (MkNode p d c cs) <->
  (d = false -> cs = []) /\ Forall files_are_leaves cs.
Proof.
  cbn. apply and_iff_compat_l. induction cs as [|x xs IH].
  - split; [by constructor | done].
  - rewrite Forall_cons. by rewrite IH.
Qed.

Lemma mapM_exists {A B} (f : A -> option B) (P : B -> Prop) l :
  (forall x, x ∈ l -> exists y, f x = Some y /\ P y) ->
  exists ys, mapM f l = Some ys /\ Forall P ys.
Proof.
  induction l as [|x l IH]; intros H.
  - exists []. by split.
  - destruct (H x) as (y & Hy & Py); [by left|].
    destruct IH as (ys & Hys & Pys); [intros x' Hx'; apply H; by right|].
    exists (y :: ys). split; [|by constructor]. cbn. by rewrite Hy, Hys.
Qed.

(** Below every reference that the invariant covers there is a tree, and
    in it no file has children. *)
Lemma heap_ok_reify k (h : heap) :
  heap_ok k h ->
  forall d l, k <= l -> l < length h -> length h - l <= d ->
    exists t, reify d h l = Some t /\ files_are_leaves t.
Proof.
  intros Hok. induction d as [|d IH]; intros l Hk Hl Hd; [lia|].
  destruct (lookup_lt_is_Some_2 h l Hl) as [o Ho].
  destruct (Hok l o Hk Ho) as [Hcs Hleaf].
  destruct (mapM_exists (reify d h) files_are_leaves (children o)) as (ts & Hts & Pts).
  { intros c Hc. specialize (Hcs c Hc). apply IH; lia. }
  exists (MkNode (path o) (is_dir_spec o) (comment o) ts). split.
  - rewrite reify_S, Ho, Hts. done.
  - apply files_are_leaves_node. split; [|done].
    intros Hd'. specialize (Hleaf Hd'). rewrite Hleaf in Hts. by injection Hts as <-.
Qed.

(** ** The selection of the result *)

Lemma reparent_list n :
  forall roots ts (h : heap) top ext1,
    mapM (reify n h) roots = Some ts ->
    exists new ext2,
      list_comp (fun r => reparent n r (length h)) roots (h ++ top :: ext1) =
        Return new (h ++ top :: ext1 ++ ext2) /\
      length new = length roots /\
      forall g : heap, length g = S (length h) ->
        mapM (reify n (g ++ ext1 ++ ext2)) new =
          Some (List.map (fun t => rebase_tree t (truediv (path top) (name (node_path t)))) ts).
Proof.
  induction roots as [|c cs IHcs]; intros ts h top ext1 Hm.
  - injection Hm as <-. exists [], []. rewrite !app_nil_r. done.
  - rewrite mapM_Some in Hm. apply Forall2_cons_inv_l in Hm as (t & ts' & Hc & Hcs & ->).
    rewrite <- mapM_Some in Hcs.
    assert (Hc' : reify n (h ++ top :: ext1) c = Some t) by by apply reify_extend.
    destruct (rebase_ok_all n (h ++ top :: ext1) c (truediv (path top) (name (node_path t))) t Hc')
      as (ext & Hrun & Hnew).
    assert (exists oc, h !! c = Some oc /\ path oc = node_path t) as (oc & Hoc & Hpath).
    { destruct n as [|n]; [done|]. rewrite reify_S in Hc.
      destruct (h !! c) as [oc|] eqn:E; [|done]. exists oc. split; [done|].
      destruct (mapM _ _); [|done]. by simplify_eq. }
    destruct (IHcs ts' h top (ext1 ++ ext) Hcs) as (new & ext2 & Hloop & Hlen & Hrest).
    exists (length (h ++ top :: ext1) :: new), (ext ++ ext2).
    split; [|split].
    + cbn [list_comp]. unfold reparent at 1, reparent_with.
      unfold bind. rewrite load_middle. cbv beta iota.
      rewrite (load_app_l h (top :: ext1) c oc Hoc). cbv beta iota.
      rewrite Hpath, Hrun. cbv beta iota.
      rewrite <- (app_assoc h). cbn [app]. unfold bind in Hloop. rewrite Hloop.
      unfold ret. rewrite <- !app_assoc. done.
    + cbn. by rewrite Hlen.
    + intros g Hg. cbn [mapM List.map].
      specialize (Hrest g Hg). rewrite <- !app_assoc in Hrest. rewrite Hrest.
      assert (Hl : length (h ++ top :: ext1) = length (g ++ ext1)).
      { rewrite !length_app. cbn. lia. }
      specialize (Hnew (g ++ ext1) (eq_sym Hl)).
      apply (reify_extend _ _ ext2) in Hnew. rewrite <- !app_assoc in Hnew.
      rewrite Hnew. done.
Qed.

(** The wrapping branches of the selection: a fresh directory at the path
    of [arg] whose children are the re-rooted copies of the roots. *)
Lemma wrap_spec n roots ts (h : heap) arg :
  mapM (reify n h) roots = Some ts ->
  exists new ext,
    (let* top := new_default [arg] in
     set_is_dir_spec top true ;;;
     set_comment top "" ;;;
     let* cs := list_comp (fun r => reparent n r top) roots in
     set_children top cs ;;;
     ret top) h
    = Return (length h) (h ++ MkTreePath (from_parts [arg]) new "" true :: ext) /\
    length new = length roots /\
    forall g : heap, length g = S (length h) ->
      mapM (reify n (g ++ ext)) new =
        Some (List.map (fun t => rebase_tree t
                 (truediv (from_parts [arg]) (name (node_path t)))) ts).
Proof.
  intros Hm.
  destruct (reparent_list n roots ts h (MkTreePath (from_parts [arg]) [] "" true) [] Hm)
    as (new & ext & Hrun & Hlen & Hnew).
  exists new, ext. split; [|split; [done|exact Hnew]].
  unfold new_default, alloc, set_is_dir_spec, set_comment, set_children.
  unfold bind. cbv beta iota. rewrite !modify_middle. cbv beta iota.
  cbn [path children comment is_dir_spec].
  rewrite Hrun. cbn [app]. rewrite modify_middle. done.
Qed.

Lemma reify_wrap n (h ext g : heap) P new ts :
  length g = length h ->
  mapM (reify n ((g ++ [MkTreePath P new "" true]) ++ ext)) new =
    Some (List.map (fun t => rebase_tree t (truediv P (name (node_path t)))) ts) ->
  reify (S n) (g ++ MkTreePath P new "" true :: ext) (length h) = Some (wrap_tree P ts).
Proof.
  intros Hg Hnew. rewrite reify_S, <- Hg, list_lookup_middle by done.
  cbn [path children comment is_dir_spec].
  rewrite <- app_assoc in Hnew. cbn [app] in Hnew. by rewrite Hnew.
Qed.

(** What the selection returns when every root has a tree below it. *)
Lemma select_tree n roots ts rp pp (h : heap) :
  mapM (reify n h) roots = Some ts ->
  exists r h',
    from_tree_select n roots rp pp h = Return r h' /\
    reify (S n) h' r = Some (assemble_tree ts rp pp) /\
    keeps (length h) h h'.
Proof.
  intros Hm.
  assert (Hwrap : forall arg, exists r h',
    (let* top := new_default [arg] in
     set_is_dir_spec top true ;;;
     set_comment top "" ;;;
     let* cs := list_comp (fun r => reparent n r top) roots in
     set_children top cs ;;;
     ret top) h = Return r h' /\
    reify (S n) h' r = Some (wrap_tree (from_parts [arg]) ts) /\
    keeps (length h) h h').
  { intros arg. destruct (wrap_spec n roots ts h arg Hm) as (new & ext & Hrun & _ & Hnew).
    eexists _, _. split; [exact Hrun|]. split; [|by apply keeps_app].
    apply reify_wrap; [done|]. apply Hnew. rewrite length_app. cbn. lia. }
  destruct roots as [|base [|r2 roots]].
  - injection Hm as <-. cbn [from_tree_select assemble_tree].
    destruct pp as [pp|]; [apply Hwrap|]. apply (Hwrap (top_arg rp None)).
  - pose proof Hm as Hm'. rewrite mapM_Some in Hm'.
    apply Forall2_cons_inv_l in Hm' as (t & ts' & Ht & Hnil & ->).
    apply Forall2_nil_inv_l in Hnil as ->.
    cbn [from_tree_select assemble_tree]. destruct pp as [pp|]; [|destruct rp as [rp|]].
    + destruct (Hwrap (APath pp)) as (r & h' & Hrun & Hr & K).
      exists r, h'. split; [|done]. rewrite <- Hrun.
      unfold bind. cbn [list_comp]. unfold bind, ret.
      repeat match goal with
             | |- context [match ?x with Return _ _ => _ | Raise _ => _ | Stuck => _ end] =>
                 destruct x
             end; done.
    + destruct (rebase_ok_all n h base rp t Ht) as (ext & Hrun & Hnew).
      eexists _, _. split; [exact Hrun|]. split; [|by apply keeps_app].
      eapply reify_mono; [by apply Hnew | lia].
    + eexists _, _. split; [done|]. split; [|apply keeps_refl].
      eapply reify_mono; [exact Ht | lia].
  - assert (exists t1 t2 ts', ts = t1 :: t2 :: ts') as (t1 & t2 & ts' & ->).
    { rewrite mapM_Some in Hm. apply Forall2_cons_inv_l in Hm as (t1 & ts1 & _ & Hm & ->).
      apply Forall2_cons_inv_l in Hm as (t2 & ts2 & _ & _ & ->). eauto. }
    cbn [from_tree_select assemble_tree].
    destruct pp as [pp|]; [apply Hwrap|]. apply (Hwrap (top_arg rp None)).
Qed.

Lemma select_fuel_mono n m roots rp pp (h : heap) r h' :
  from_tree_select n roots rp pp h = Return r h' -> n <= m ->
  from_tree_select m roots rp pp h = Return r h'.
Proof.
  intros H Hle.
  assert (Hwrap : forall top0 : M heap loc,
    (let* top := top0 in
     set_is_dir_spec top true ;;;
     set_comment top "" ;;;
     let* cs := list_comp (fun r => reparent n r top) roots in
     set_children top cs ;;;
     ret top) h = Return r h' ->
    (let* top := top0 in
     set_is_dir_spec top true ;;;
     set_comment top "" ;;;
     let* cs := list_comp (fun r => reparent m r top) roots in
     set_children top cs ;;;
     ret top) h = Return r h').
  { intros top0 Hw. do 3 mono_step Hw.
    eapply bind_mono; [exact Hw| |done].
    apply list_comp_mono. intros x g y g' Hx. by eapply reparent_fuel_mono. }
  destruct roots as [|base [|r2 roots]]; cbn [from_tree_select] in *.
  - by apply Hwrap.
  - destruct pp as [pp|]; [|destruct rp as [rp|]].
    + do 3 mono_step H. eapply bind_mono; [exact H| |done].
      intros c g Hc. by eapply reparent_fuel_mono.
    + by eapply rebase_fuel_mono.
    + done.
  - by apply Hwrap.
Qed.

(** ** Appending lines to the first pass *)

Lemma from_tree_lines_app cls indent_size pre rest st (h : heap) :
  from_tree_lines cls indent_size (pre ++ rest) st h =
  (let* st' := from_tree_lines cls indent_size pre st in
   from_tree_lines cls indent_size rest st') h.
Proof.
  revert st h. induction pre as [|l pre IH]; intros st h; [done|].
  cbn [app from_tree_lines]. unfold bind at 1 2 3.
  destruct (from_tree_line cls indent_size l st h) as [st1 h1| |]; [|done|done].
  rewrite IH. done.
Qed.

Lemma py_index_out_of_range {A} (l : list A) (i : Z) :
  (Z.of_nat (length l) <= i)%Z -> py_index l i = None.
Proof.
  intros Hi. unfold py_index, py_position.
  destruct (Z.leb_spec 0 i); [|lia].
  destruct (Z.ltb_spec i (Z.of_nat (length l))); [lia|done].
Qed.

Lemma py_slice_to_all {A} (l : list A) (k : Z) :
  (Z.of_nat (length l) <= k)%Z -> py_slice_to l k = l.
Proof.
  intros Hk. unfold py_slice_to. destruct (Z.leb_spec 0 k); [|lia].
  apply take_ge. lia.
Qed.

(** An entry that is nested deeper than the stack is long raises
    [IndexError] at [stack[level - 1]]. *)
Lemma from_tree_line_too_deep cls indent_size line st (h : heap) e :
  read_line indent_size line = Some e ->
  PyStr.is_empty (e_name_part e) = false ->
  (Z.of_nat (length (stack st)) < e_level e)%Z ->
  from_tree_line cls indent_size line st h = Raise IndexError.
Proof.
  intros He Hne Hlvl. unfold from_tree_line. rewrite He, Hne.
  destruct (Z.eqb_spec (e_level e) 0); [lia|].
  rewrite py_slice_to_all by lia. rewrite py_index_out_of_range by lia. done.
Qed.

Lemma reify_det n m (h : heap) l t t' :
  reify n h l = Some t -> reify m h l = Some t' -> t = t'.
Proof.
  intros Hn Hm.
  apply (reify_mono _ (n `max` m)) in Hn; [|lia].
  apply (reify_mono _ (n `max` m)) in Hm; [|lia]. congruence.
Qed.

(** After the first pass every root has a tree below it in which no file
    has children. *)
Lemma first_pass_roots text indent_size (h : heap) st h1 n :
  first_pass text indent_size h = Return st h1 ->
  length h1 <= n ->
  exists ts, mapM (reify n h1) (raw_roots st) = Some ts /\ Forall files_are_leaves ts.
Proof.
  intros Hp Hn. destruct (first_pass_inv _ _ _ _ _ Hp) as [[Hroots _ Hok] _].
  apply mapM_exists. intros r Hr. specialize (Hroots r Hr).
  destruct (heap_ok_reify _ _ Hok (length h1) r) as (t & Ht & Hl); [lia..|].
  exists t. split; [|done]. eapply reify_mono; [exact Ht|done].
Qed.

Lemma files_are_leaves_assemble ts rp pp :
  Forall files_are_leaves ts -> files_are_leaves (assemble_tree ts rp pp).
Proof.
  intros Hts.
  assert (Hw : forall P, files_are_leaves (wrap_tree P ts)).
  { intros P. unfold wrap_tree. apply files_are_leaves_node. split; [done|].
    apply Forall_fmap. eapply Forall_impl; [exact Hts|].
    intros t Ht. by apply files_are_leaves_rebase_tree. }
  unfold assemble_tree. destruct ts as [|t [|t2 ts]]; [apply Hw| |apply Hw].
  apply Forall_cons in Hts as [Ht _].
  destruct pp as [pp|]; [apply Hw|]. destruct rp as [rp|]; [|done].
  by apply files_are_leaves_rebase_tree.
Qed.

(** * The claims about parsing, assembling and re-rooting *)

(** C1.  Parsing the text of the first example with the default
    parameters (indentation 2, no root path, no parent path) in an empty
    store returns one root: the directory [a], whose children are, in
    order, the file [a/b.py] annotated "init" and the directory [a/c],
    whose only child is the file [a/c/d.txt]. *)
Theorem from_tree_example1 :
  forall (os : string -> string) (fuel : nat),
    from_tree os fuel ex1_text None None 2 [] = Return 0 ex1_heap /\
    reify 3 ex1_heap 0 = Some ex1_tree /\
    tree_paths ex1_tree = ["a"; "a/b.py"; "a/c"; "a/c/d.txt"].
Proof.
  intros os fuel. split; [|split; reflexivity].
  rewrite from_tree_unfold. vm_compute. reflexivity.
Qed.

(** C3.  [rebase] is structure-preserving.  For a node with a tree [t]
    below it and any new path [p], [rebase] returns a fresh node whose tree
    has the annotation, directory flag and number of children of [t] at its
    root and, child by child, all the way down; the root has the path [p]
    and every descendant has the path of its new parent joined with its
    own name. *)
Theorem rebase_structure_preserving :
  forall (n : nat) (h : heap) (self : loc) (p : PurePath) (t : Node),
    reify n h self = Some t ->
    exists h' t',
      rebase n self p h = Return (length h) h' /\
      reify n h' (length h) = Some t' /\
      same_structure t t' /\
      t' = rebase_tree t p.
Proof.
  intros n h self p t Ht.
  destruct (rebase_ok_all n h self p t Ht) as (ext & Hrun & Hnew).
  exists (h ++ ext), (rebase_tree t p).
  split; [done|]. split; [by apply Hnew|]. split; [|done].
  apply same_structure_rebase_tree.
Qed.

Lemma rebase_structure_preserving_witness :
  exists h' t',
    rebase 3 0 (from_parts [AStr "out"]) ex1_heap = Return 4 h' /\
    reify 3 h' 4 = Some t' /\
    same_structure ex1_tree t' /\
    t' = rebase_tree ex1_tree (from_parts [AStr "out"]).
Proof.
  apply (rebase_structure_preserving 3 ex1_heap 0 (from_parts [AStr "out"]) ex1_tree).
  reflexivity.
Defined.

(** C6.  [rebase] and [reparent] do not mutate their input: when either
    returns, every object that was in the store is still there with the
    same path, annotation, directory flag and child list, and so the tree
    below every reference is the one it was. *)
Theorem rebase_reparent_keep_input :
  forall (fuel : nat) (self : loc) (h : heap) (r : loc) (h' : heap),
    (exists p, rebase fuel self p h = Return r h') \/
    (exists new_parent, reparent fuel self new_parent h = Return r h') ->
    (forall l o, h !! l = Some o -> h' !! l = Some o) /\
    (forall n l t, reify n h l = Some t -> reify n h' l = Some t).
Proof.
  intros fuel self h r h' H.
  assert (exists p, rebase fuel self p h = Return r h') as [p Hp].
  { destruct H as [H|[np H]]; [done|].
    unfold reparent, reparent_with in H.
    apply bind_inv in H as (o1 & h1 & E1 & H). apply load_inv in E1 as [_ ->].
    apply bind_inv in H as (o2 & h2 & E2 & H). apply load_inv in E2 as [_ ->].
    eauto. }
  apply rebase_frame in Hp as [_ K]. apply keeps_prefix in K as [ext ->].
  split.
  - intros l o Hl. by apply lookup_app_l_Some.
  - intros n l t Ht. by apply reify_extend.
Qed.

Lemma rebase_reparent_keep_input_witness :
  exists h',
    rebase 3 0 (from_parts [AStr "out"]) ex1_heap = Return 4 h' /\
    (forall l o, ex1_heap !! l = Some o -> h' !! l = Some o) /\
    (forall n l t, reify n ex1_heap l = Some t -> reify n h' l = Some t).
Proof.
  eexists. split; [vm_compute; reflexivity|].
  apply (rebase_reparent_keep_input 3 0 ex1_heap 4).
  left. exists (from_parts [AStr "out"]). vm_compute. reflexivity.
Defined.

(** C5.  When the first pass over a tree text leaves exactly one root and
    neither a root path nor a parent path is given, [from_tree] returns
    that root itself, in the store as the first pass left it. *)
Theorem from_tree_single_root :
  forall (os : string -> string) (fuel : nat) (text : string) (indent_size : Z)
         (h : heap) (st : pstate) (h1 : heap) (r : loc),
    first_pass text indent_size h = Return st h1 ->
    raw_roots st = [r] ->
    from_tree os fuel text None None indent_size h = Return r h1.
Proof.
  intros os fuel text indent_size h st h1 r Hp Hr.
  rewrite from_tree_unfold. cbn [expand_arg]. unfold bind, ret.
  rewrite Hp, Hr. reflexivity.
Qed.

Lemma from_tree_single_root_witness :
  from_tree (fun s => s) 0 ex1_text None None 2 [] = Return 0 ex1_heap.
Proof.
  apply (from_tree_single_root (fun s => s) 0 ex1_text 2 []
           (MkPState [0] [0; 2]) ex1_heap 0); vm_compute; reflexivity.
Defined.

(** C4.  When the first pass leaves two or more roots, [from_tree]
    (given fuel for the store it copies) returns a fresh node that is
    flagged as a directory, has an empty annotation, and has as many
    children as there are roots: the i-th child is the copy of the i-th
    root, re-rooted under the wrapper by the root's name.  The wrapper is
    built from the parent path when one is given, otherwise from the root
    path when one is given, otherwise from ".". *)
Theorem from_tree_multi_root :
  forall (os : string -> string) (fuel : nat) (text : string)
         (rp pp : option pyarg) (indent_size : Z) (h : heap)
         (rp' pp' : option PurePath) (st : pstate) (h1 : heap),
    expand_arg os rp h = Return rp' h ->
    expand_arg os pp h = Return pp' h ->
    first_pass text indent_size h = Return st h1 ->
    2 <= length (raw_roots st) ->
    length h1 <= fuel ->
    exists top h2 o ts,
      from_tree os fuel text rp pp indent_size h = Return top h2 /\
      h2 !! top = Some o /\
      is_dir_spec o = true /\
      comment o = ""%string /\
      path o = from_parts [top_arg rp' pp'] /\
      length (children o) = length (raw_roots st) /\
      mapM (reify fuel h1) (raw_roots st) = Some ts /\
      mapM (reify fuel h2) (children o) =
        Some (List.map (fun t => rebase_tree t (truediv (path o) (name (node_path t)))) ts).
Proof.
  intros os fuel text rp pp indent_size h rp' pp' st h1 Hrp Hpp Hp Hlen Hfuel.
  destruct (first_pass_roots _ _ _ _ _ fuel Hp Hfuel) as (ts & Hts & _).
  destruct (wrap_spec fuel (raw_roots st) ts h1 (top_arg rp' pp') Hts)
    as (new & ext & Hrun & Hnew_len & Hnew).
  exists (length h1), (h1 ++ MkTreePath (from_parts [top_arg rp' pp']) new "" true :: ext),
         (MkTreePath (from_parts [top_arg rp' pp']) new "" true), ts.
  split; [|split; [by apply list_lookup_middle|]].
  - rewrite from_tree_unfold. unfold bind at 1. rewrite Hrp.
    unfold bind at 1. rewrite Hpp. unfold bind at 1. rewrite Hp.
    rewrite <- Hrun. destruct (raw_roots st) as [|r1 [|r2 roots]]; [cbn in Hlen; lia..|].
    cbn [from_tree_select]. unfold top_arg. destruct pp' as [pp'|]; done.
  - cbn [path children comment is_dir_spec]. do 5 (split; [done|]).
    specialize (Hnew (h1 ++ [MkTreePath (from_parts [top_arg rp' pp']) new "" true])).
    rewrite <- app_assoc in Hnew. cbn [app] in Hnew.
    apply Hnew. rewrite length_app. cbn. lia.
Qed.

Lemma from_tree_multi_root_witness :
  exists top h2 o ts,
    from_tree (fun s => s) 2 ex2_text None (Some (AStr "out")) 2 [] = Return top h2 /\
    h2 !! top = Some o /\
    is_dir_spec o = true /\
    comment o = ""%string /\
    path o = from_parts [APath (from_parts [AStr "out"])] /\
    length (children o) = 2 /\
    mapM (reify 2 [MkTreePath (from_parts [AStr "x.txt"]) [] "" false;
                   MkTreePath (from_parts [AStr "y.txt"]) [] "" false]) [0; 1] = Some ts /\
    mapM (reify 2 h2) (children o) =
      Some (List.map (fun t => rebase_tree t (truediv (path o) (name (node_path t)))) ts).
Proof.
  apply (from_tree_multi_root (fun s => s) 2 ex2_text None (Some (AStr "out")) 2 []
           None (Some (from_parts [AStr "out"])) (MkPState [0; 1] [])
           [MkTreePath (from_parts [AStr "x.txt"]) [] "" false;
            MkTreePath (from_parts [AStr "y.txt"]) [] "" false]).
  - reflexivity.
  - reflexivity.
  - vm_compute. reflexivity.
  - cbn. lia.
  - cbn. lia.
Defined.

(** C9.  In every tree that [from_tree] returns, a node that is not
    flagged as a directory has no children: the first pass attaches
    children only to nodes it took from its stack of directories, and the
    selection copies the flags and the child lists. *)
Theorem from_tree_files_are_leaves :
  forall (os : string -> string) (fuel : nat) (text : string)
         (rp pp : option pyarg) (indent_size : Z) (h : heap) (r : loc) (h' : heap),
    from_tree os fuel text rp pp indent_size h = Return r h' ->
    exists n t,
      reify n h' r = Some t /\
      files_are_leaves t /\
      forall m t', reify m h' r = Some t' -> files_are_leaves t'.
Proof.
  intros os fuel text rp pp indent_size h r h' H.
  rewrite from_tree_unfold in H.
  apply bind_inv in H as (rp' & h0 & Erp & H). apply expand_arg_inv in Erp as ->.
  apply bind_inv in H as (pp' & h0 & Epp & H). apply expand_arg_inv in Epp as ->.
  apply bind_inv in H as (st & h1 & Ep & H).
  set (n := fuel `max` length h1).
  destruct (first_pass_roots _ _ _ _ _ n Ep) as (ts & Hts & Hleaves); [lia|].
  destruct (select_tree n (raw_roots st) ts rp' pp' h1 Hts) as (r0 & h0 & Hsel & Hr & _).
  apply (select_fuel_mono _ n) in H; [|lia]. rewrite H in Hsel. injection Hsel as <- <-.
  pose proof (files_are_leaves_assemble ts rp' pp' Hleaves) as Hl.
  exists (S n), (assemble_tree ts rp' pp'). split; [done|]. split; [done|].
  intros m t' Ht'. by rewrite <- (reify_det _ _ _ _ _ _ Hr Ht').
Qed.

Lemma from_tree_files_are_leaves_witness :
  exists n t,
    reify n ex1_heap 0 = Some t /\
    files_are_leaves t /\
    forall m t', reify m ex1_heap 0 = Some t' -> files_are_leaves t'.
Proof.
  apply (from_tree_files_are_leaves (fun s => s) 0 ex1_text None None 2 [] 0 ex1_heap).
  vm_compute. reflexivity.
Defined.

Lemma expand_arg_cases os x (h : heap) :
  (exists r, expand_arg os x h = Return r h) \/ expand_arg os x h = Raise RuntimeError.
Proof.
  unfold expand_arg. destruct x as [a|]; [|left; by eexists].
  destruct (expanduser os (from_parts [a])); [left; by eexists | by right].
Qed.

(** X20.  A line that names an entry (its name part is not empty) and
    whose level is greater than the length of the stack makes [from_tree]
    raise instead of returning a tree: the lookup [stack[level - 1]] raises
    [IndexError] (unless expanding the root or parent path has already
    raised [RuntimeError]). *)
Theorem from_tree_entry_too_deep :
  forall (os : string -> string) (fuel : nat) (text : string)
         (rp pp : option pyarg) (indent_size : Z) (h : heap)
         (pre : list string) (line : string) (post : list string)
         (st : pstate) (h1 : heap) (e : entry),
    spec_lines text indent_size = pre ++ line :: post ->
    from_tree_lines cls_plain indent_size pre (MkPState [] []) h = Return st h1 ->
    read_line indent_size line = Some e ->
    PyStr.is_empty (e_name_part e) = false ->
    (Z.of_nat (length (stack st)) < e_level e)%Z ->
    exists err,
      from_tree os fuel text rp pp indent_size h = Raise err /\
      (err = IndexError \/ err = RuntimeError).
Proof.
  intros os fuel text rp pp indent_size h pre line post st h1 e Hlines Hpre He Hne Hlvl.
  rewrite from_tree_unfold. unfold bind at 1.
  destruct (expand_arg_cases os rp h) as [[rp' ->]| ->]; [|eauto].
  unfold bind at 1.
  destruct (expand_arg_cases os pp h) as [[pp' ->]| ->]; [|eauto].
  exists IndexError. split; [|by left].
  unfold bind at 1. unfold first_pass. rewrite Hlines, from_tree_lines_app.
  unfold bind at 1. rewrite Hpre. cbn [from_tree_lines]. unfold bind at 1.
  by rewrite (from_tree_line_too_deep _ _ _ _ _ e).
Qed.

Lemma from_tree_entry_too_deep_witness :
  exists err,
    from_tree (fun s => s) 0 ex3_text None None 2 [] = Raise err /\
    (err = IndexError \/ err = RuntimeError).
Proof.
  apply (from_tree_entry_too_deep (fun s => s) 0 ex3_text None None 2 []
           ["a.py"%string] "    b.py"%string [] (MkPState [0] [])
           [MkTreePath (from_parts [AStr "a.py"]) [] "" false]
           (MkEntry 2 "b.py" "")).
  - reflexivity.
  - reflexivity.
  - reflexivity.
  - reflexivity.
  - cbn. lia.
Defined.

(** A line without a name part is skipped before the stack is consulted:
    the second line of [ex3_comment_text] is at level 2 while the stack is
    empty, and [from_tree] returns the tree of [a.py]. *)
Lemma deep_comment_line_is_skipped :
  spec_lines ex3_comment_text 2 = ["a.py"; "    # note"]%string /\
  from_tree_lines cls_plain 2 ["a.py"%string] (MkPState [] []) [] =
    Return (MkPState [0] []) [MkTreePath (from_parts [AStr "a.py"]) [] "" false] /\
  read_line 2 "    # note" = Some (MkEntry 2 "" "note") /\
  (Z.of_nat (length (stack (MkPState [0%nat] []))) < e_level (MkEntry 2 "" "note"))%Z /\
  from_tree (fun s => s) 0 ex3_comment_text None None 2 [] =
    Return 0 [MkTreePath (from_parts [AStr "a.py"]) [] "" false].
Proof. repeat split; vm_compute; reflexivity. Qed.

(** C8 fails on the code.  In [ex8_text] the file [d.txt] is at level 2
    and the only directory open above it is [c], at level 0: the line is
    indented deeper than its open ancestor directories.  The loop cuts the
    stack only at a level above 0, so after the line of [c] the stack still
    holds [a/b] at index 1; the lookup [stack[level - 1]] finds it, and
    [from_tree] returns a tree in which [d.txt] is a child of [a/b] while
    [c] is empty. *)
Theorem from_tree_deep_entry_joins_stale_directory :
  forall os : string -> string,
    spec_lines ex8_text 2 = ["a/"; "  b/"; "c/"; "    d.txt"]%string /\
    from_tree_lines cls_plain 2 ["a/"; "  b/"; "c/"]%string (MkPState [] []) [] =
      Return (MkPState [0; 2] [2; 1])
        [ MkTreePath (from_parts [AStr "a"]) [1] "" true;
          MkTreePath (from_parts [AStr "a/b"]) [] "" true;
          MkTreePath (from_parts [AStr "c"]) [] "" true ] /\
    read_line 2 "    d.txt" = Some (MkEntry 2 "d.txt" "") /\
    exists h : heap,
      from_tree os 3 ex8_text None None 2 [] = Return 4 h /\
      reify 4 h 4 = Some ex8_tree /\
      tree_paths ex8_tree = ["."; "a"; "a/b"; "a/b/d.txt"; "c"]%string.
Proof.
  intros os. split; [reflexivity|]. split; [reflexivity|]. split; [reflexivity|].
  eexists. split; [rewrite from_tree_unfold; vm_compute; reflexivity|].
  split; reflexivity.
Qed.

(** C10.  [__new__] tests its arguments with [tree_text_arg]: when the
    first argument is a [str] with a newline in it, the result is
    [from_tree] of that text with the default parameters, whatever the
    other arguments are; otherwise it is a fresh path object built from
    all the arguments, with no children, an empty annotation and the
    directory flag off.  (With no fuel left for the nested call the model
    is [Stuck].) *)
Theorem TreePath_new_dispatch :
  forall (os : string -> string) (fuel : nat) (args : list pyarg) (h : heap),
    TreePath_new os fuel args h =
      match args with
      | AStr s :: _ =>
          if PyStr.contains PyStr.LF s
          then match fuel with
               | O => Stuck
               | S n => from_tree os n s None None 2 h
               end
          else Return (length h) (h ++ [MkTreePath (from_parts args) [] "" false])
      | _ => Return (length h) (h ++ [MkTreePath (from_parts args) [] "" false])
      end.
Proof.
  intros os fuel args h. destruct args as [|[s|p] rest]; [by destruct fuel| |by destruct fuel].
  destruct fuel as [|n]; cbn [TreePath_new tree_text_arg];
    destruct (PyStr.contains PyStr.LF s); done.
Qed.

(** ** What [write_comment] does to the text of a file *)

Lemma entry_at_File (p : PurePath) (f : fs) c :
  entry_at p f = Some (File c) -> is_anchor p = false /\ f !! parts p = Some (File c).
Proof. unfold entry_at. destruct (is_anchor p); [done|]. by intros ->. Qed.

Lemma entry_at_None (p : PurePath) (f : fs) :
  entry_at p f = None -> is_anchor p = false /\ f !! parts p = None.
Proof. unfold entry_at. destruct (is_anchor p); [done|]. by intros ->. Qed.

Lemma entry_at_insert (p : PurePath) (f : fs) e :
  is_anchor p = false -> entry_at p (<[parts p := e]> f) = Some e.
Proof. intros Ha. unfold entry_at. rewrite Ha. apply lookup_insert_eq. Qed.

Lemma write_comment_unfold (o : TreePath) :
  write_comment o =
  ((let* ex := path_exists (path o) in if ex then ret tt else touch (path o)) ;;;
   write_header o).
Proof. reflexivity. Qed.

Lemma write_header_file (o : TreePath) (f : fs) (c : string) :
  entry_at (path o) f = Some (File c) ->
  write_header o f =
    Return tt (<[parts (path o) := File (new_content (suffix (path o)) (comment o) c)]> f).
Proof.
  intros He. destruct (entry_at_File _ _ _ He) as [Ha Hl].
  unfold write_header, new_content, read_prefix, read_text, write_text.
  unfold bind, ret. repeat (rewrite He; cbv beta iota zeta).
  set (st := PyStr.take 4 (universal_newlines c)).
  set (sfx := suffix (path o)).
  destruct (String.eqb sfx ".py" && negb (PyStr.startswith TRIPLE_QUOTE st));
    [by repeat (rewrite He; cbv beta iota zeta)|].
  destruct ((String.eqb sfx ".js" || String.eqb sfx ".ts")
            && negb (PyStr.startswith "//" st));
    [by repeat (rewrite He; cbv beta iota zeta)|].
  destruct (String.eqb sfx ".md" && PyStr.is_empty (PyStr.strip st));
    [by repeat (rewrite He; cbv beta iota zeta)|].
  destruct (String.eqb sfx ".sh" && negb (PyStr.startswith "# " st));
    [by repeat (rewrite He; cbv beta iota zeta)|].
  by rewrite insert_id.
Qed.

Lemma write_comment_file (o : TreePath) (f : fs) (c : string) :
  entry_at (path o) f = Some (File c) ->
  write_comment o f =
    Return tt (<[parts (path o) := File (new_content (suffix (path o)) (comment o) c)]> f).
Proof.
  intros He. rewrite write_comment_unfold. unfold bind at 1 2, path_exists.
  rewrite He. unfold ret at 1. by apply write_header_file.
Qed.

Lemma write_comment_inv (o : TreePath) (f : fs) (u : unit) (f' : fs) :
  write_comment o f = Return u f' ->
  is_anchor (path o) = false /\
  f !! parts (path o) <> Some Dir /\
  f' = <[parts (path o) := File (new_content (suffix (path o)) (comment o)
                                              (cont f (parts (path o))))]> f.
Proof.
  intros H. destruct (entry_at (path o) f) as [[c|]|] eqn:He.
  - destruct (entry_at_File _ _ _ He) as [Ha Hl].
    rewrite (write_comment_file _ _ _ He) in H. injection H as _ <-.
    unfold cont. rewrite Hl. split; [done|]. split; [congruence|done].
  - exfalso. rewrite write_comment_unfold in H.
    unfold bind at 1 2, path_exists in H. rewrite He in H. unfold ret at 1 in H.
    unfold write_header, read_prefix, read_text, bind in H. by rewrite He in H.
  - destruct (entry_at_None _ _ He) as [Ha Hl].
    rewrite write_comment_unfold in H.
    unfold bind at 1 2, path_exists, touch, create in H. rewrite He in H.
    cbv beta iota in H. rewrite He in H.
    destruct (entry_at (parent (path o)) f) as [[c|]|] eqn:Hp;
      cbv beta iota in H; [done| |done].
    rewrite (write_header_file o _ "") in H by by apply entry_at_insert.
    injection H as _ <-.
    unfold cont. rewrite Hl. split; [done|]. split; [congruence|].
    by rewrite insert_insert_eq.
Qed.

(** ** What creating directories does to the file system *)

Lemma grows_refl (f : fs) : grows f f.
Proof. intros k. by left. Qed.

Lemma grows_trans (f1 f2 f3 : fs) : grows f1 f2 -> grows f2 f3 -> grows f1 f3.
Proof.
  intros H12 H23 k. destruct (H12 k) as [E12|[N1 D2]], (H23 k) as [E23|[N2 D3]].
  - left. congruence.
  - right. split; congruence.
  - right. split; congruence.
  - congruence.
Qed.

Lemma grows_insert_dir (f : fs) (k : list string) : f !! k = None -> grows f (<[k := Dir]> f).
Proof.
  intros Hk k'. destruct (decide (k = k')) as [<-|Hne].
  - right. by rewrite lookup_insert_eq.
  - left. by rewrite lookup_insert_ne.
Qed.

Lemma os_mkdir_grows (p : PurePath) (f : fs) (u : unit) (f' : fs) :
  os_mkdir p f = Return u f' -> grows f f'.
Proof.
  unfold os_mkdir, create. destruct (entry_at p f) eqn:He; [done|].
  destruct (entry_at_None _ _ He) as [_ Hl].
  destruct (entry_at (parent p) f) as [[c|]|]; [done| |done].
  intros [= _ <-]. by apply grows_insert_dir.
Qed.

Lemma mkdir_fuel_grows n :
  forall (p : PurePath) (mode : Z) (parents exist_ok : bool) (f : fs) (u : unit) (f' : fs),
    mkdir_fuel n p mode parents exist_ok f = Return u f' -> grows f f'.
Proof.
  induction n as [|n IH]; intros p mode parents exist_ok f u f' H;
    cbn [mkdir_fuel] in H;
    destruct (os_mkdir p f) as [u0 f0|e|] eqn:Hos; try done;
    try (injection H as _ <-; by eapply os_mkdir_grows).
  - destruct e; try (destruct (negb exist_ok || negb (is_dir p f)); [done|];
                     injection H as _ <-; apply grows_refl).
    destruct (negb parents || bool_decide (parent p = p)); done.
  - destruct e; try (destruct (negb exist_ok || negb (is_dir p f)); [done|];
                     injection H as _ <-; apply grows_refl).
    destruct (negb parents || bool_decide (parent p = p)); [done|].
    apply bind_inv in H as (u1 & f1 & E1 & H).
    eapply grows_trans; [eapply IH, E1 | eapply IH, H].
Qed.

Lemma mkdir_grows (p : PurePath) (mode : Z) (parents exist_ok : bool) (f : fs) (u : unit) (f' : fs) :
  mkdir p mode parents exist_ok f = Return u f' -> grows f f'.
Proof. apply mkdir_fuel_grows. Qed.

(** ** The walk of [mktree] as a list of actions *)

Lemma for_each_app {St A} (f : A -> M St unit) l1 l2 (s : St) :
  for_each f (l1 ++ l2) s = (for_each f l1 ;;; for_each f l2) s.
Proof.
  revert s. induction l1 as [|x l1 IH]; intros s; [done|].
  cbn [app for_each]. unfold bind at 1 2 3.
  destruct (f x s) as [[] s1| |]; [|done|done]. rewrite IH. done.
Qed.

Lemma mktree_children_run (n : nat) (h : heap) (mode : Z) (exist_ok : bool)
    (IH : forall (c : loc) (acts : list action), actions n h c mode false exist_ok = Some acts ->
          forall f : fs, mktree n h c mode false exist_ok f =
                    lift_unit c (for_each run_action acts f)) :
  forall (cs : list loc) (ls : list (list action)),
    mapM (fun c => actions n h c mode false exist_ok) cs = Some ls ->
    forall f : fs,
      for_each (fun child => mktree n h child mode false exist_ok ;;; ret tt) cs f =
      for_each run_action (List.concat ls) f.
Proof.
  induction cs as [|c cs IHcs]; intros ls Hm f.
  - injection Hm as <-. done.
  - rewrite mapM_Some in Hm. apply Forall2_cons_inv_l in Hm as (acts & ls' & Hc & Hcs & ->).
    rewrite <- mapM_Some in Hcs. cbn [for_each List.concat].
    rewrite for_each_app. unfold bind. rewrite (IH c acts Hc).
    destruct (for_each run_action acts f) as [[] f1| |]; cbn [lift_unit];
      [|done|done].
    unfold ret. exact (IHcs ls' Hcs f1).
Qed.

Lemma mktree_run fuel :
  forall (h : heap) (self : loc) (mode : Z) (parents exist_ok : bool) (acts : list action),
    actions fuel h self mode parents exist_ok = Some acts ->
    forall f : fs,
      mktree fuel h self mode parents exist_ok f =
      lift_unit self (for_each run_action acts f).
Proof.
  induction fuel as [|n IH]; intros h self mode parents exist_ok acts Ha f; [done|].
  cbn [actions mktree] in *. destruct (h !! self) as [o|]; [|done].
  destruct (is_dir_spec o).
  - destruct (mapM _ (children o)) as [ls|] eqn:Hm; [|done]. injection Ha as <-.
    cbn [for_each run_action].
    pose proof (mktree_children_run n h mode exist_ok
                  (fun c acts => IH h c mode false exist_ok acts) _ _ Hm) as Hcs.
    unfold bind, ret in *.
    destruct (path_exists (path o) f) as [[|] f0| |]; [| |done|done].
    + rewrite Hcs.
      destruct (for_each run_action (List.concat ls) f0) as [[] f2| |]; done.
    + destruct (mkdir (path o) mode parents exist_ok f0) as [[] f1| |]; [|done|done].
      rewrite Hcs.
      destruct (for_each run_action (List.concat ls) f1) as [[] f2| |]; done.
  - injection Ha as <-. cbn [for_each run_action]. unfold bind, ret.
    destruct (path_exists (path o) f) as [[|] f0| |]; [| |done|done].
    + destruct (write_comment o f0) as [[] f2| |]; done.
    + destruct (mkdir (parent (path o)) mode parents true f0) as [[] f1| |];
        [|done|done].
      destruct (write_comment o f1) as [[] f2| |]; done.
Qed.

Lemma mktree_actions_exist fuel :
  forall (h : heap) (self : loc) (mode : Z) (parents exist_ok : bool)
         (f : fs) (r : loc) (f' : fs),
    mktree fuel h self mode parents exist_ok f = Return r f' ->
    exists acts, actions fuel h self mode parents exist_ok = Some acts.
Proof.
  induction fuel as [|n IH]; intros h self mode parents exist_ok f r f' H; [done|].
  cbn [actions mktree] in *. destruct (h !! self) as [o|]; [|done].
  destruct (is_dir_spec o); [|by eexists].
  apply bind_inv in H as (u1 & f1 & _ & H).
  apply bind_inv in H as (u2 & f2 & H & _).
  assert (exists ls, mapM (fun c => actions n h c mode false exist_ok) (children o) = Some ls)
    as [ls ->]; [|by eexists].
  clear -IH H. revert f1 H. induction (children o) as [|c cs IHcs]; intros f1 H.
  - by exists [].
  - cbn [for_each] in H. apply bind_inv in H as (u3 & f3 & Hc & H).
    apply bind_inv in Hc as (r3 & f4 & Hc & _).
    destruct (IH _ _ _ _ _ _ _ _ Hc) as [acts Hacts].
    destruct (IHcs _ H) as [ls Hls].
    exists (acts :: ls). cbn. by rewrite Hacts, Hls.
Qed.

(** ** Running a list of actions twice *)

Lemma same_kinds_refl (f : fs) : same_kinds f f.
Proof. intros k. split; [done|]. intros c Hc. by exists c. Qed.

Lemma same_kinds_trans (f1 f2 f3 : fs) :
  same_kinds f1 f2 -> same_kinds f2 f3 -> same_kinds f1 f3.
Proof.
  intros H12 H23 k. destruct (H12 k) as [D12 F12], (H23 k) as [D23 F23].
  split; [auto|]. intros c Hc. destruct (F12 c Hc) as [c' Hc']. eauto.
Qed.

Lemma grows_same_kinds (f f' : fs) : grows f f' -> same_kinds f f'.
Proof.
  intros Hg k. destruct (Hg k) as [E|[N D]].
  - rewrite E. split; [done|]. intros c Hc. by exists c.
  - rewrite N. split; [done|]. intros c Hc. done.
Qed.

Lemma same_kinds_insert_file (f : fs) (k : list string) (c : string) :
  f !! k <> Some Dir -> same_kinds f (<[k := File c]> f).
Proof.
  intros Hk k'. destruct (decide (k = k')) as [<-|Hne].
  - rewrite lookup_insert_eq. split; [done|]. intros c' _. by exists c.
  - rewrite lookup_insert_ne by done. split; [done|]. intros c' Hc'. by exists c'.
Qed.

Lemma same_kinds_settled (a : action) (f f' : fs) :
  same_kinds f f' -> settled a f -> settled a f'.
Proof.
  intros Hk. destruct a as [p mode parents exist_ok|o mode parents]; cbn.
  - unfold entry_at. destruct (is_anchor p); [done|].
    destruct (f !! parts p) as [[c|]|] eqn:E; [| |done]; intros _.
    + destruct (Hk (parts p)) as [_ HF]. destruct (HF c E) as [c' ->]. done.
    + destruct (Hk (parts p)) as [HD _]. by rewrite (HD E).
  - intros [Ha [c Hc]]. split; [done|]. destruct (Hk (parts (path o))) as [_ HF]. eauto.
Qed.

(** ** Texts that [write_comment] leaves alone *)

Lemma new_content_fixed sfx cmt c :
  fixed_text sfx c = true -> new_content sfx cmt c = c.
Proof.
  unfold fixed_text, new_content. cbv zeta.
  repeat (destruct (_ && _); [done|]). done.
Qed.

Lemma header_py cmt x :
  PyStr.startswith TRIPLE_QUOTE
    (PyStr.take 4 (universal_newlines
       (TRIPLE_QUOTE ++ cmt ++ TRIPLE_QUOTE ++ NEWLINE ++ x)%string)) = true.
Proof. reflexivity. Qed.

Lemma header_js cmt x :
  PyStr.startswith "//"
    (PyStr.take 4 (universal_newlines ("// " ++ cmt ++ NEWLINE ++ x)%string)) = true.
Proof. reflexivity. Qed.

Lemma header_sh cmt x :
  PyStr.startswith "# "
    (PyStr.take 4 (universal_newlines ("# " ++ cmt ++ NEWLINE ++ x)%string)) = true.
Proof. reflexivity. Qed.

(** A text on which a branch fires is either turned into a text that is
    left alone from then on, or replaced by a text that does not depend on
    it. *)
Lemma new_content_not_fixed sfx cmt c c' :
  fixed_text sfx c = false ->
  fixed_text sfx c' = false ->
  fixed_text sfx (new_content sfx cmt c) = false ->
  new_content sfx cmt c' = new_content sfx cmt c.
Proof.
  destruct (String.eqb_spec sfx ".py") as [->|Hpy].
  { unfold fixed_text at 1 2, new_content. cbv zeta. cbn [String.eqb Ascii.eqb Bool.eqb andb orb].
    destruct (PyStr.startswith TRIPLE_QUOTE (PyStr.take 4 (universal_newlines c)));
      [done|]. intros _ _. cbn [negb].
    unfold fixed_text. cbv zeta. rewrite header_py. done. }
  destruct (String.eqb_spec sfx ".js") as [->|Hjs].
  { unfold fixed_text at 1 2, new_content. cbv zeta. cbn [String.eqb Ascii.eqb Bool.eqb andb orb].
    destruct (PyStr.startswith "//" (PyStr.take 4 (universal_newlines c)));
      [done|]. intros _ _. cbn [negb].
    unfold fixed_text. cbv zeta. rewrite header_js. done. }
  destruct (String.eqb_spec sfx ".ts") as [->|Hts].
  { unfold fixed_text at 1 2, new_content. cbv zeta. cbn [String.eqb Ascii.eqb Bool.eqb andb orb].
    destruct (PyStr.startswith "//" (PyStr.take 4 (universal_newlines c)));
      [done|]. intros _ _. cbn [negb].
    unfold fixed_text. cbv zeta. rewrite header_js. done. }
  destruct (String.eqb_spec sfx ".md") as [->|Hmd].
  { unfold fixed_text, new_content. cbv zeta. cbn [String.eqb Ascii.eqb Bool.eqb andb orb].
    destruct (PyStr.is_empty (PyStr.strip (PyStr.take 4 (universal_newlines c))));
      [|done].
    destruct (PyStr.is_empty (PyStr.strip (PyStr.take 4 (universal_newlines c'))));
      done. }
  destruct (String.eqb_spec sfx ".sh") as [->|Hsh].
  { unfold fixed_text at 1 2, new_content. cbv zeta. cbn [String.eqb Ascii.eqb Bool.eqb andb orb].
    destruct (PyStr.startswith "# " (PyStr.take 4 (universal_newlines c)));
      [done|]. intros _ _. cbn [negb].
    unfold fixed_text. cbv zeta. rewrite header_sh. done. }
  unfold fixed_text at 1. cbv zeta.
  destruct (String.eqb_spec sfx ".py"); [done|].
  destruct (String.eqb_spec sfx ".js"); [done|].
  destruct (String.eqb_spec sfx ".ts"); [done|].
  destruct (String.eqb_spec sfx ".md"); [done|].
  destruct (String.eqb_spec sfx ".sh"); [done|]. done.
Qed.

(** ** Applying a list of text updates twice *)

Section FoldTwice.
Variable F : string -> bool.
Variable ws : list (string -> string).

Hypothesis ws_fixed : forall w c, w ∈ ws -> F c = true -> w c = c.
Hypothesis ws_const :
  forall w c c', w ∈ ws ->
    F c = false -> F c' = false -> F (w c) = false -> w c' = w c.

Lemma run_texts_cons w l c : run_texts (w :: l) c = run_texts l (w c).
Proof. reflexivity. Qed.

Lemma run_texts_fixed l c :
  (forall w, w ∈ l -> w ∈ ws) -> F c = true -> run_texts l c = c.
Proof.
  revert c. induction l as [|w l IH]; intros c Hl Hc; [done|].
  rewrite run_texts_cons. rewrite (ws_fixed w c); [|apply Hl; by left|done].
  apply IH; [|done]. intros w' Hw'. apply Hl. by right.
Qed.

Lemma run_texts_twice_sub l c :
  (forall w, w ∈ l -> w ∈ ws) ->
  run_texts l (run_texts l c) = run_texts l c.
Proof.
  intros Hin.
  destruct (F (run_texts l c)) eqn:Hd; [by apply run_texts_fixed|].
  destruct l as [|w l]; [done|].
  assert (Hw : w ∈ ws) by (apply Hin; by left).
  assert (Hl : forall w', w' ∈ l -> w' ∈ ws) by (intros w' Hw'; apply Hin; by right).
  rewrite !run_texts_cons in *.
  assert (Hwc : F (w c) = false).
  { destruct (F (w c)) eqn:E; [|done].
    rewrite (run_texts_fixed l (w c) Hl E) in Hd. congruence. }
  assert (Hc : F c = false).
  { destruct (F c) eqn:E; [|done]. rewrite (ws_fixed w c Hw E) in Hwc. congruence. }
  by rewrite (ws_const w c (run_texts l (w c)) Hw Hc Hd Hwc).
Qed.

Lemma run_texts_twice c : run_texts ws (run_texts ws c) = run_texts ws c.
Proof. by apply run_texts_twice_sub. Qed.

End FoldTwice.

Lemma acts_text_key_updates k acts c :
  acts_text k acts c = run_texts (key_updates k acts) c.
Proof.
  revert c. induction acts as [|a acts IH]; intros c; [done|].
  unfold acts_text in *. cbn [fold_left key_updates].
  destruct a as [p mode parents exist_ok|o mode parents]; cbn [act_text]; [apply IH|].
  destruct (bool_decide (parts (path o) = k)); [|apply IH].
  rewrite run_texts_cons. apply IH.
Qed.

Lemma elem_of_key_updates k acts w :
  w ∈ key_updates k acts ->
  exists o mode parents,
    AFile o mode parents ∈ acts /\ parts (path o) = k /\
    w = new_content (suffix (path o)) (comment o).
Proof.
  induction acts as [|a acts IH]; cbn [key_updates]; [by intros ?%elem_of_nil|].
  assert (IH' : w ∈ key_updates k acts ->
    exists o mode parents,
      AFile o mode parents ∈ a :: acts /\ parts (path o) = k /\
      w = new_content (suffix (path o)) (comment o)).
  { intros (o & mode & parents & Hin & Hk & Hw)%IH.
    exists o, mode, parents. split; [by right|done]. }
  destruct a as [p mode parents exist_ok|o mode parents]; [done|].
  destruct (bool_decide_reflect (parts (path o) = k)) as [E|]; [|done].
  intros [->|Hin]%elem_of_cons; [|by apply IH'].
  exists o, mode, parents. split; [by left|done].
Qed.

(** A path that is neither "." nor "/" takes its name from its last
    component, so its suffix depends on its components only. *)
Lemma suffix_of_parts (p q : PurePath) :
  is_anchor p = false -> is_anchor q = false -> parts p = parts q ->
  suffix p = suffix q.
Proof.
  intros Hp Hq E. unfold suffix. assert (name p = name q) as ->; [|done].
  unfold name, is_anchor in *. rewrite <- E in *.
  destruct (parts p) as [|x [|y l]]; [done| |].
  - destruct (PyStr.is_empty (root p)), (PyStr.is_empty (root q)); done.
  - destruct (PyStr.is_empty (root p)), (PyStr.is_empty (root q)); done.
Qed.

Lemma acts_text_twice k acts c :
  (forall o mode parents,
     AFile o mode parents ∈ acts -> is_anchor (path o) = false) ->
  acts_text k acts (acts_text k acts c) = acts_text k acts c.
Proof.
  intros Hanchor. rewrite !acts_text_key_updates.
  destruct (key_updates k acts) as [|w0 l0] eqn:Hku; [done|]. rewrite <- Hku.
  assert (Hall : forall w, w ∈ key_updates k acts ->
            exists o, is_anchor (path o) = false /\ parts (path o) = k /\
                      w = new_content (suffix (path o)) (comment o)).
  { intros w (o & mode & parents & Hin & Hk & Hw)%elem_of_key_updates.
    exists o. split; [by eapply Hanchor|done]. }
  destruct (Hall w0) as (o0 & Ha0 & Hk0 & _); [rewrite Hku; by left|].
  apply (run_texts_twice (fixed_text (suffix (path o0)))).
  - intros w c' (o & Ha & Hk & ->)%Hall Hc.
    rewrite (suffix_of_parts (path o) (path o0)) by congruence.
    by apply new_content_fixed.
  - intros w c1 c2 (o & Ha & Hk & ->)%Hall.
    rewrite (suffix_of_parts (path o) (path o0)) by congruence.
    apply new_content_not_fixed.
Qed.

(** ** One run of the actions *)

Lemma mkdir_fuel_exists n :
  forall (p : PurePath) (mode : Z) (parents exist_ok : bool) (f : fs) (u : unit) (f' : fs),
    mkdir_fuel n p mode parents exist_ok f = Return u f' -> entry_at p f' <> None.
Proof.
  assert (Hos : forall (p : PurePath) (f : fs) (u : unit) (f' : fs),
            os_mkdir p f = Return u f' -> entry_at p f' <> None).
  { intros p f u f'. unfold os_mkdir, create. destruct (entry_at p f) eqn:He; [done|].
    destruct (entry_at_None _ _ He) as [Ha _].
    destruct (entry_at (parent p) f) as [[c|]|]; [done| |done].
    intros [= _ <-]. by rewrite entry_at_insert. }
  assert (Hsw : forall (p : PurePath) (exist_ok : bool) (f : fs) (e : exn) (u : unit) (f' : fs),
            (if negb exist_ok || negb (is_dir p f) then Raise e else Return tt f)
              = Return u f' -> entry_at p f' <> None).
  { intros p exist_ok f e u f'. unfold is_dir.
    destruct exist_ok; cbn; [|done].
    destruct (entry_at p f) as [[c|]|] eqn:He; cbn; [done| |done].
    intros [= _ <-]. by rewrite He. }
  induction n as [|n IH]; intros p mode parents exist_ok f u f' H;
    cbn [mkdir_fuel] in H;
    destruct (os_mkdir p f) as [u0 f0|e|] eqn:Hos'; try done;
    try (injection H as _ <-; by eapply Hos).
  - destruct e; try (by eapply Hsw).
    destruct (negb parents || bool_decide (parent p = p)); done.
  - destruct e; try (by eapply Hsw).
    destruct (negb parents || bool_decide (parent p = p)); [done|].
    apply bind_inv in H as (u1 & f1 & E1 & H). by eapply IH.
Qed.

Lemma run_action_dir (p : PurePath) (mode : Z) (parents exist_ok : bool)
    (f : fs) (u : unit) (f' : fs) :
  run_action (ADir p mode parents exist_ok) f = Return u f' ->
  grows f f' /\ entry_at p f' <> None.
Proof.
  cbn [run_action]. unfold bind, path_exists.
  destruct (entry_at p f) eqn:He.
  - intros [= _ <-]. split; [apply grows_refl|]. by rewrite He.
  - intros H. split; [by eapply mkdir_grows | by eapply mkdir_fuel_exists].
Qed.

Lemma run_action_file (o : TreePath) (mode : Z) (parents : bool)
    (f : fs) (u : unit) (f' : fs) :
  run_action (AFile o mode parents) f = Return u f' ->
  exists fa : fs,
    grows f fa /\ is_anchor (path o) = false /\
    fa !! parts (path o) <> Some Dir /\
    f' = <[parts (path o) := File (new_content (suffix (path o)) (comment o)
                                               (cont fa (parts (path o))))]> fa.
Proof.
  cbn [run_action]. intros H. apply bind_inv in H as (u1 & fa & E & H).
  exists fa. split; [|by apply write_comment_inv in H].
  unfold bind, path_exists in E. destruct (entry_at (path o) f).
  - injection E as _ <-. apply grows_refl.
  - by eapply mkdir_grows.
Qed.

Lemma grows_cont_eq (f f' : fs) (k : list string) : grows f f' -> cont f' k = cont f k.
Proof.
  intros Hg. unfold cont. destruct (Hg k) as [->|[-> ->]]; done.
Qed.

Lemma cont_insert (f : fs) (k k' : list string) (c : string) :
  cont (<[k := File c]> f) k' = if bool_decide (k = k') then c else cont f k'.
Proof.
  unfold cont. destruct (bool_decide_reflect (k = k')) as [<-|Hne].
  - by rewrite lookup_insert_eq.
  - by rewrite lookup_insert_ne.
Qed.

(** What one action establishes when it returns. *)
Lemma run_action_facts (a : action) (f : fs) (u : unit) (f' : fs) :
  run_action a f = Return u f' ->
  same_kinds f f' /\ settled a f' /\
  forall k, cont f' k = act_text k a (cont f k).
Proof.
  destruct a as [p mode parents exist_ok|o mode parents]; intros H.
  - apply run_action_dir in H as [Hg He]. split; [by apply grows_same_kinds|].
    split; [done|]. intros k. by apply grows_cont_eq.
  - apply run_action_file in H as (fa & Hg & Ha & Hd & ->).
    split; [|split].
    + eapply same_kinds_trans; [by apply grows_same_kinds|].
      by apply same_kinds_insert_file.
    + cbn. split; [done|]. eexists. apply lookup_insert_eq.
    + intros k. rewrite cont_insert. cbn [act_text].
      rewrite !(grows_cont_eq f fa) by done.
      destruct (bool_decide_reflect (parts (path o) = k)) as [<-|Hne]; done.
Qed.

Lemma acts_text_cons k a acts c :
  acts_text k (a :: acts) c = acts_text k acts (act_text k a c).
Proof. reflexivity. Qed.

(** What a run of a list of actions establishes when it returns. *)
Lemma run_actions_facts (acts : list action) :
  forall (f : fs) (u : unit) (f1 : fs),
    for_each run_action acts f = Return u f1 ->
    same_kinds f f1 /\ Forall (fun a => settled a f1) acts /\
    forall k, cont f1 k = acts_text k acts (cont f k).
Proof.
  induction acts as [|a acts IH]; intros f u f1 H.
  - apply ret_inv in H as [_ <-]. split; [apply same_kinds_refl|]. by split.
  - cbn [for_each] in H. apply bind_inv in H as (u1 & f0 & Ea & H).
    apply run_action_facts in Ea as (K0 & S0 & C0).
    apply IH in H as (K1 & S1 & C1).
    split; [by eapply same_kinds_trans|]. split.
    + constructor; [by eapply same_kinds_settled|done].
    + intros k. by rewrite acts_text_cons, C1, C0.
Qed.

(** ** A second run of the actions *)

Lemma run_action_settled (a : action) (g : fs) :
  settled a g -> run_action a g = Return tt (apply_action a g).
Proof.
  destruct a as [p mode parents exist_ok|o mode parents]; cbn [settled run_action apply_action].
  - intros He. unfold bind, path_exists. by destruct (entry_at p g).
  - intros [Ha [c Hc]].
    assert (He : entry_at (path o) g = Some (File c)) by (unfold entry_at; by rewrite Ha).
    unfold bind at 1 2, path_exists. rewrite He. unfold ret at 1.
    rewrite (write_comment_file _ _ _ He). unfold cont. by rewrite Hc.
Qed.

Lemma apply_action_lookup (a : action) (g : fs) (k : list string) :
  settled a g ->
  apply_action a g !! k =
    match g !! k with
    | Some (File c) => Some (File (act_text k a c))
    | x => x
    end.
Proof.
  destruct a as [p mode parents exist_ok|o mode parents]; cbn [settled apply_action act_text].
  - intros _. by destruct (g !! k) as [[c|]|].
  - intros [Ha [c Hc]]. destruct (bool_decide_reflect (parts (path o) = k)) as [<-|Hne].
    + rewrite lookup_insert_eq. unfold cont. by rewrite Hc.
    + rewrite lookup_insert_ne by done. by destruct (g !! k) as [[c'|]|].
Qed.

Lemma apply_action_same_kinds (a : action) (g : fs) :
  settled a g -> same_kinds g (apply_action a g).
Proof.
  intros Hs k. rewrite (apply_action_lookup a g k Hs).
  destruct (g !! k) as [[c|]|]; split; try done.
  intros c' _. by eexists.
Qed.

Lemma run_actions_settled (acts : list action) :
  forall g : fs,
    Forall (fun a => settled a g) acts ->
    exists g' : fs,
      for_each run_action acts g = Return tt g' /\
      forall k, g' !! k =
                match g !! k with
                | Some (File c) => Some (File (acts_text k acts c))
                | x => x
                end.
Proof.
  induction acts as [|a acts IH]; intros g Hs.
  - exists g. split; [done|]. intros k. by destruct (g !! k) as [[c|]|].
  - apply Forall_cons in Hs as [Ha Hs].
    destruct (IH (apply_action a g)) as (g' & Hrun & Hg').
    { eapply Forall_impl; [exact Hs|]. intros a' Ha'.
      eapply same_kinds_settled; [by apply apply_action_same_kinds|done]. }
    exists g'. split.
    + cbn [for_each]. unfold bind. by rewrite (run_action_settled a g Ha).
    + intros k. rewrite Hg', (apply_action_lookup a g k Ha).
      by destruct (g !! k) as [[c|]|].
Qed.

(** Running the actions again changes nothing. *)
Lemma run_actions_twice (acts : list action) (f : fs) (u : unit) (f1 : fs) :
  for_each run_action acts f = Return u f1 ->
  for_each run_action acts f1 = Return tt f1.
Proof.
  intros H. apply run_actions_facts in H as (_ & Hs & Hc).
  destruct (run_actions_settled acts f1 Hs) as (g' & Hrun & Hg').
  rewrite Hrun. f_equal. apply map_eq. intros k. rewrite Hg'.
  destruct (f1 !! k) as [[c|]|] eqn:Hk; [|done|done].
  assert (Hck : cont f1 k = c) by (unfold cont; by rewrite Hk).
  rewrite <- Hck, Hc. rewrite acts_text_twice; [done|].
  intros o mode parents Hin.
  rewrite Forall_forall in Hs. by destruct (Hs _ Hin) as [Ha _].
Qed.

(** ** The materializer does not run out of fuel on a readable tree *)

Lemma mkdir_fuel_no_parents (n : nat) (p : PurePath) (mode : Z) (exist_ok : bool) (f : fs) :
  mkdir_fuel n p mode false exist_ok f <> Stuck.
Proof.
  destruct n; cbn [mkdir_fuel]; unfold os_mkdir, create;
    destruct (entry_at p f) as [[c|]|];
    try (destruct (negb exist_ok || negb (is_dir p f)); done);
    destruct (entry_at (parent p) f) as [[c|]|]; try done;
    destruct (negb exist_ok || negb (is_dir p f)); done.
Qed.

Lemma parent_shorter (p : PurePath) :
  parent p <> p -> length (parts (parent p)) < length (parts p).
Proof.
  unfold parent. destruct p as [rt ps]. cbn.
  destruct ((length ps =? 1)%nat && negb (PyStr.is_empty rt)); [done|]. cbn.
  destruct ps as [|x ps] using rev_ind; [done|]. intros _.
  rewrite removelast_last, length_app. cbn. lia.
Qed.

Lemma mkdir_fuel_not_stuck n :
  forall (p : PurePath) (mode : Z) (parents exist_ok : bool) (f : fs),
    length (parts p) < n ->
    mkdir_fuel n p mode parents exist_ok f <> Stuck.
Proof.
  induction n as [|n IH]; intros p mode parents exist_ok f Hlen; [lia|].
  cbn [mkdir_fuel]. destruct (os_mkdir p f) as [u f'|e|] eqn:Hos; [done| |].
  - destruct e; try (destruct (negb exist_ok || negb (is_dir p f)); done).
    destruct parents; [|done]. cbn [negb orb].
    destruct (bool_decide_reflect (parent p = p)) as [|Hne]; [done|].
    pose proof (parent_shorter p Hne) as Hp. unfold bind.
    destruct (mkdir_fuel n (parent p) 511 true true f) as [u1 f1| |] eqn:E1; [|done|].
    + apply mkdir_fuel_no_parents.
    + exfalso. revert E1. apply IH. lia.
  - exfalso. revert Hos. unfold os_mkdir, create.
    destruct (entry_at p f) as [[c|]|]; [done..|].
    by destruct (entry_at (parent p) f) as [[c|]|].
Qed.

Lemma write_comment_not_stuck (o : TreePath) (f : fs) : write_comment o f <> Stuck.
Proof.
  assert (Hwt : forall (d : string) (g : fs), write_text (path o) d g <> Stuck).
  { intros d g. unfold write_text, create. destruct (entry_at (path o) g) as [[c|]|]; [done..|].
    by destruct (entry_at (parent (path o)) g) as [[c|]|]. }
  assert (Hrw : forall (k : string -> string) (g : fs),
            (let* s := read_text (path o) in write_text (path o) (k s)) g <> Stuck).
  { intros k g. unfold bind, read_text.
    destruct (entry_at (path o) g) as [[c|]|]; [apply Hwt|done..]. }
  rewrite write_comment_unfold. unfold bind at 1.
  assert (Hh : forall g : fs, write_header o g <> Stuck).
  { intros g. unfold write_header. cbv zeta. unfold bind at 1, read_prefix, bind, read_text.
    destruct (entry_at (path o) g) as [[c|]|] eqn:He; [|done..]. unfold ret at 1.
    destruct (_ && negb (PyStr.startswith TRIPLE_QUOTE _));
      [apply (Hrw (fun s => (TRIPLE_QUOTE ++ comment o ++ TRIPLE_QUOTE ++ NEWLINE ++ s)%string))|].
    destruct (_ && negb (PyStr.startswith "//" _));
      [apply (Hrw (fun s => ("// " ++ comment o ++ NEWLINE ++ s)%string))|].
    destruct (_ && PyStr.is_empty _); [apply Hwt|].
    destruct (_ && negb (PyStr.startswith "# " _));
      [apply (Hrw (fun s => ("# " ++ comment o ++ NEWLINE ++ s)%string))|]. done. }
  unfold bind, path_exists. destruct (entry_at (path o) f) as [e|]; [apply Hh|].
  unfold touch, create. destruct (entry_at (path o) f) as [e|]; [apply Hh|].
  destruct (entry_at (parent (path o)) f) as [[c|]|]; [done|apply Hh|done].
Qed.

Lemma run_action_not_stuck (a : action) (f : fs) : run_action a f <> Stuck.
Proof.
  destruct a as [p mode parents exist_ok|o mode parents]; cbn [run_action];
    unfold bind at 1; unfold bind, path_exists.
  - destruct (entry_at p f); [done|]. apply mkdir_fuel_not_stuck. lia.
  - destruct (entry_at (path o) f); [apply write_comment_not_stuck|].
    destruct (mkdir (parent (path o)) mode parents true f) as [u f'| |] eqn:E;
      [apply write_comment_not_stuck|done|].
    exfalso. revert E. apply mkdir_fuel_not_stuck. lia.
Qed.

(** On a tree that can be walked within [fuel], [mktree] returns or raises
    a Python exception. *)
Lemma mktree_not_stuck (fuel : nat) (h : heap) (self : loc) (mode : Z) (parents exist_ok : bool)
    (acts : list action) (f : fs) :
  actions fuel h self mode parents exist_ok = Some acts ->
  mktree fuel h self mode parents exist_ok f <> Stuck.
Proof.
  intros Ha. rewrite (mktree_run _ _ _ _ _ _ _ Ha). clear Ha.
  assert (for_each run_action acts f <> Stuck) as Hns.
  { revert f. induction acts as [|a acts IH]; intros f; [done|].
    cbn [for_each]. unfold bind.
    destruct (run_action a f) as [u f'| |] eqn:E; [apply IH|done|].
    by apply run_action_not_stuck in E. }
  by destruct (for_each run_action acts f).
Qed.

(** * The claims about the materializer *)

(** C2.  Materializing twice is materializing once: when [mktree]
    returns from a file system [f] with the file system [f1], running it
    again on the same tree from [f1] returns and leaves [f1] as it is.  In
    particular [write_comment] changes nothing in a file that already
    starts with the marker of its extension, such as a [.py] file whose
    text starts with the string-literal delimiter. *)
Theorem mktree_idempotent :
  forall (fuel : nat) (h : heap) (self : loc) (mode : Z) (parents exist_ok : bool)
         (f : fs) (r : loc) (f1 : fs),
    mktree fuel h self mode parents exist_ok f = Return r f1 ->
    mktree fuel h self mode parents exist_ok f1 = Return r f1 /\
    (forall (o : TreePath) (c : string) (g : fs),
       entry_at (path o) g = Some (File c) ->
       fixed_text (suffix (path o)) c = true ->
       write_comment o g = Return tt g) /\
    (forall c : string,
       PyStr.startswith TRIPLE_QUOTE (PyStr.take 4 (universal_newlines c)) = true ->
       fixed_text ".py" c = true).
Proof.
  intros fuel h self mode parents exist_ok f r f1 H. split; [|split].
  - destruct (mktree_actions_exist _ _ _ _ _ _ _ _ _ H) as [acts Hacts].
    rewrite (mktree_run _ _ _ _ _ _ _ Hacts) in H |- *.
    destruct (for_each run_action acts f) as [[] f1'| |] eqn:Hrun; [|done|done].
    cbn in H. injection H as <- <-.
    by rewrite (run_actions_twice _ _ _ _ Hrun).
  - intros o c g He Hfix. rewrite (write_comment_file _ _ _ He).
    rewrite (new_content_fixed _ _ _ Hfix).
    destruct (entry_at_File _ _ _ He) as [_ Hl]. by rewrite insert_id.
  - intros c Hc. unfold fixed_text. cbv zeta. rewrite Hc. reflexivity.
Qed.

Lemma mktree_idempotent_witness :
  exists f1 : fs,
    mktree 3 ex1_heap 0 511 true true ∅ = Return 0 f1 /\
    f1 !! ["a"; "b.py"]%string =
      Some (File (TRIPLE_QUOTE ++ "init" ++ TRIPLE_QUOTE ++ NEWLINE)%string) /\
    mktree 3 ex1_heap 0 511 true true f1 = Return 0 f1.
Proof.
  eexists. split; [vm_compute; reflexivity|]. split; [vm_compute; reflexivity|].
  eapply (proj1 (mktree_idempotent 3 ex1_heap 0 511 true true ∅ 0 _ _)).
  Unshelve. vm_compute. reflexivity.
Defined.

(** C7 fails on the code.  [write_comment] looks at the first four
    characters only: the file of [ex_md_fs] starts with four blanks and has
    text after them, and it is replaced by the annotation. *)
Theorem write_comment_md_loses_text :
  entry_at (path ex_md_node) ex_md_fs =
    Some (File ("    code sample" ++ NEWLINE ++ "More text.")%string) /\
  suffix (path ex_md_node) = ".md"%string /\
  PyStr.is_empty (PyStr.strip ("    code sample" ++ NEWLINE ++ "More text.")%string) = false /\
  write_comment ex_md_node ex_md_fs =
    Return tt {[ ["notes.md"%string] := File "project notes" ]}.
Proof. repeat split; vm_compute; reflexivity. Qed.

(** * Further properties of the parser and the assembler *)

(** ** One line of the first pass, in closed form *)

Lemma py_index_in_range {A} (l : list A) (i : nat) (x : A) :
  l !! i = Some x -> py_index l (Z.of_nat i) = Some x.
Proof.
  intros Hl. pose proof (lookup_lt_Some _ _ _ Hl) as Hlt.
  unfold py_index, py_position.
  destruct (Z.leb_spec 0 (Z.of_nat i)); [|lia].
  destruct (Z.ltb_spec (Z.of_nat i) (Z.of_nat (length l))); [|lia].
  by rewrite Nat2Z.id.
Qed.

(** X1.  A line that names an entry at a level above 0, when the stack
    has a directory at the level below, allocates one node whose path is
    the path of that directory joined with the name, appends it as the last
    child of that directory, and leaves the roots alone; the stack is cut
    down to the level, and the node is pushed when it is a directory. *)
Theorem from_tree_line_attaches :
  forall (cls : string -> M heap loc) (indent_size : Z) (line : string)
         (st : pstate) (h : heap) (e : entry) (k : nat) (p : loc) (po : TreePath),
    read_line indent_size line = Some e ->
    PyStr.is_empty (e_name_part e) = false ->
    e_level e = Z.of_nat (S k) ->
    stack st !! k = Some p ->
    h !! p = Some po ->
    from_tree_line cls indent_size line st h =
      Return
        (MkPState (raw_roots st)
           (take (S k) (stack st) ++ (if e_is_dir e then [length h] else [])))
        (<[p := MkTreePath (path po) (children po ++ [length h]) (comment po)
                           (is_dir_spec po)]> h
         ++ [MkTreePath (from_parts [APath (path po); AStr (e_name e)]) []
                        (e_comment e) (e_is_dir e)]).
Proof.
  intros cls indent_size line st h e k p po He Hne Hlvl Hk Hp.
  pose proof (lookup_lt_Some _ _ _ Hk) as Hlen.
  pose proof (lookup_lt_Some _ _ _ Hp) as Hplt.
  unfold from_tree_line. rewrite He, Hne, Hlvl.
  destruct (Z.eqb_spec (Z.of_nat (S k)) 0); [lia|].
  assert (Hslice : py_slice_to (stack st) (Z.of_nat (S k)) = take (S k) (stack st)).
  { unfold py_slice_to. destruct (Z.leb_spec 0 (Z.of_nat (S k))); [|lia].
    by rewrite Nat2Z.id. }
  rewrite Hslice.
  assert (Hidx : py_index (take (S k) (stack st)) (Z.of_nat (S k) - 1) = Some p).
  { replace (Z.of_nat (S k) - 1)%Z with (Z.of_nat k) by lia.
    apply py_index_in_range. rewrite lookup_take_lt by lia. done. }
  rewrite Hidx. unfold bind at 1. unfold ret at 1. cbn [fst snd].
  unfold bind at 1. unfold bind at 1. unfold load at 1. rewrite Hp.
  unfold new_default, alloc. unfold bind at 1. unfold set_comment.
  rewrite modify_middle. unfold bind at 1. unfold set_is_dir_spec.
  rewrite modify_middle. cbn [path children comment is_dir_spec].
  unfold bind at 1. unfold bind at 1. unfold add_child, bind at 1, modify at 1.
  rewrite (lookup_app_l_Some _ _ _ _ Hp). unfold ret at 1 2.
  rewrite insert_app_l by done.
  assert (Htl : length (take (S k) (stack st)) = S k) by (rewrite length_take; lia).
  rewrite Htl, Z.eqb_refl.
  destruct (e_is_dir e); [done|]. by rewrite app_nil_r.
Qed.

Lemma from_tree_line_attaches_witness :
  from_tree_line cls_plain 2 "  b.py # init" (MkPState [0] [0])
    [MkTreePath (from_parts [AStr "a"]) [] "" true] =
  Return (MkPState [0] [0])
    [MkTreePath (from_parts [AStr "a"]) [1] "" true;
     MkTreePath (from_parts [AStr "a/b.py"]) [] "init" false].
Proof.
  apply (from_tree_line_attaches cls_plain 2 "  b.py # init" (MkPState [0] [0])
           [MkTreePath (from_parts [AStr "a"]) [] "" true]
           (MkEntry 1 "b.py" "init") 0 0
           (MkTreePath (from_parts [AStr "a"]) [] "" true)); reflexivity.
Defined.

(** X2.  A line that names an entry at level 0 allocates one node at the
    path of its name and appends it to the roots.  The stack is not cut
    down: a file leaves it as it is, and a directory replaces its first
    element (or becomes it when the stack is empty), so the directories
    that were open below level 0 stay on the stack. *)
Theorem from_tree_line_root :
  forall (indent_size : Z) (line : string) (st : pstate) (h : heap) (e : entry),
    read_line indent_size line = Some e ->
    PyStr.is_empty (e_name_part e) = false ->
    e_level e = 0%Z ->
    from_tree_line cls_plain indent_size line st h =
      Return
        (MkPState (raw_roots st ++ [length h])
           (if e_is_dir e
            then length h :: List.tl (stack st)
            else stack st))
        (h ++ [MkTreePath (from_parts [AStr (e_name e)]) [] (e_comment e) (e_is_dir e)]).
Proof.
  intros indent_size line st h e He Hne Hlvl.
  unfold from_tree_line. rewrite He, Hne, Hlvl. cbn [Z.eqb].
  unfold bind at 1. unfold ret at 1. cbn [fst snd].
  unfold bind at 1. unfold cls_plain, new_default, alloc.
  unfold bind at 1. unfold set_comment. rewrite modify_middle.
  unfold bind at 1. unfold set_is_dir_spec. rewrite modify_middle.
  cbn [path children comment is_dir_spec].
  unfold bind at 1. unfold ret at 1.
  destruct (e_is_dir e); [|done].
  destruct (stack st) as [|s0 stk]; [done|].
  cbn [length]. destruct (Z.eqb_spec 0 (Z.of_nat (S (length stk)))); [lia|].
  reflexivity.
Qed.

Lemma from_tree_line_root_witness :
  from_tree_line cls_plain 2 "c/" (MkPState [0] [0; 1])
    [MkTreePath (from_parts [AStr "a"]) [1] "" true;
     MkTreePath (from_parts [AStr "a/b"]) [] "" true] =
  Return (MkPState [0; 2] [2; 1])
    [MkTreePath (from_parts [AStr "a"]) [1] "" true;
     MkTreePath (from_parts [AStr "a/b"]) [] "" true;
     MkTreePath (from_parts [AStr "c"]) [] "" true].
Proof.
  apply (from_tree_line_root 2 "c/" (MkPState [0] [0; 1])
           [MkTreePath (from_parts [AStr "a"]) [1] "" true;
            MkTreePath (from_parts [AStr "a/b"]) [] "" true]
           (MkEntry 0 "c/" "")); reflexivity.
Defined.

(** ** Texts without entries, and the indentation size 0 *)

Lemma read_line_Some (indent_size : Z) (line : string) :
  indent_size <> 0%Z -> exists e, read_line indent_size line = Some e.
Proof.
  intros Hi. unfold read_line. destruct (Z.eqb_spec indent_size 0); [done|].
  destruct (PyStr.contains "#" _); [|by eexists].
  destruct (PyStr.split_first "#" _). by eexists.
Qed.

Lemma from_tree_lines_no_entries cls (indent_size : Z) (lines : list string) st (h : heap) :
  indent_size <> 0%Z ->
  entries indent_size lines = [] ->
  from_tree_lines cls indent_size lines st h = Return st h.
Proof.
  intros Hi. induction lines as [|line lines IH]; [done|].
  unfold entries in *. cbn [omap list_omap]. unfold line_entry at 1.
  destruct (read_line_Some indent_size line Hi) as [e He].
  intros Hno. cbn [from_tree_lines]. unfold bind, from_tree_line. rewrite He in *.
  destruct (PyStr.is_empty (e_name_part e)); [|done].
  unfold ret at 1. by apply IH.
Qed.

(** X3.  A tree text without entries (an empty text, or blank and
    comment-only lines alone) with an indentation size other than 0 does
    not fail: [from_tree] returns one fresh node, flagged as a directory,
    with no children and an empty annotation, built from the parent path
    when one is given, otherwise from the root path when one is given,
    otherwise from ".". *)
Theorem from_tree_no_entries :
  forall (os : string -> string) (fuel : nat) (text : string)
         (rp pp : option pyarg) (indent_size : Z) (h : heap)
         (rp' pp' : option PurePath),
    indent_size <> 0%Z ->
    entries indent_size (spec_lines text indent_size) = [] ->
    expand_arg os rp h = Return rp' h ->
    expand_arg os pp h = Return pp' h ->
    from_tree os fuel text rp pp indent_size h =
      Return (length h) (h ++ [MkTreePath (from_parts [top_arg rp' pp']) [] "" true]).
Proof.
  intros os fuel text rp pp indent_size h rp' pp' Hi Hno Hrp Hpp.
  rewrite from_tree_unfold. unfold bind at 1. rewrite Hrp.
  unfold bind at 1. rewrite Hpp. unfold bind at 1, first_pass.
  rewrite from_tree_lines_no_entries by done. cbn [raw_roots from_tree_select].
  assert (Hw : forall arg,
    (let* top := new_default [arg] in
     set_is_dir_spec top true ;;; set_comment top "" ;;;
     let* cs := list_comp (fun r => reparent fuel r top) [] in
     set_children top cs ;;; ret top) h
    = Return (length h) (h ++ [MkTreePath (from_parts [arg]) [] "" true])).
  { intros arg. unfold new_default, alloc, set_is_dir_spec, set_comment, set_children.
    unfold bind. cbv beta iota. rewrite !modify_middle. cbv beta iota.
    cbn [list_comp]. unfold ret. rewrite modify_middle. done. }
  unfold top_arg. destruct pp' as [pp'|]; apply Hw.
Qed.

Lemma from_tree_no_entries_witness :
  from_tree (fun s => s) 0 (String PyStr.LF ("  # nothing here" ++ String PyStr.LF ""))
            (Some (AStr "proj")) None 2 [] =
  Return 0 [MkTreePath (from_parts [AStr "proj"]) [] "" true].
Proof.
  apply (from_tree_no_entries (fun s => s) 0
           (String PyStr.LF ("  # nothing here" ++ String PyStr.LF ""))
           (Some (AStr "proj")) None 2 [] (Some (from_parts [AStr "proj"])) None);
    [done|reflexivity..].
Defined.

(** X4.  With the indentation size 0 every tree text that has a line
    that is not blank makes [from_tree] raise: the first such line raises
    [ZeroDivisionError] at [leading // indent_size], also when it is a
    comment-only line (unless expanding the root or parent path has already
    raised [RuntimeError]). *)
Theorem from_tree_indent_zero :
  forall (os : string -> string) (fuel : nat) (text : string)
         (rp pp : option pyarg) (h : heap),
    spec_lines text 0 <> [] ->
    exists err,
      from_tree os fuel text rp pp 0 h = Raise err /\
      (err = ZeroDivisionError \/ err = RuntimeError).
Proof.
  intros os fuel text rp pp h Hlines.
  rewrite from_tree_unfold. unfold bind at 1.
  destruct (expand_arg_cases os rp h) as [[rp' ->]| ->]; [|eauto].
  unfold bind at 1.
  destruct (expand_arg_cases os pp h) as [[pp' ->]| ->]; [|eauto].
  exists ZeroDivisionError. split; [|by left].
  unfold bind at 1, first_pass.
  destruct (spec_lines text 0) as [|line lines]; [done|].
  cbn [from_tree_lines]. unfold bind at 1. done.
Qed.

Lemma from_tree_indent_zero_witness :
  exists err,
    from_tree (fun s => s) 0 "# only a comment" None None 0 [] = Raise err /\
    (err = ZeroDivisionError \/ err = RuntimeError).
Proof.
  apply (from_tree_indent_zero (fun s => s) 0 "# only a comment" None None []).
  vm_compute. discriminate.
Defined.

(** ** The nodes and the roots that the first pass makes *)

Lemma dir_at_lt' (h : heap) (l : loc) : dir_at h l -> l < length h.
Proof. intros (o & Hl & _). by eapply lookup_lt_Some. Qed.

Lemma same_fields_refl (h : heap) : same_fields h h.
Proof. intros l o Hl. by exists o. Qed.

Lemma same_fields_trans (h1 h2 h3 : heap) :
  same_fields h1 h2 -> same_fields h2 h3 -> same_fields h1 h3.
Proof.
  intros H12 H23 l o Hl. destruct (H12 l o Hl) as (o2 & Hl2 & Hp & Hc & Hd).
  destruct (H23 l o2 Hl2) as (o3 & Hl3 & Hp3 & Hc3 & Hd3).
  exists o3. repeat split; congruence.
Qed.

Lemma same_fields_app (h ext : heap) : same_fields h (h ++ ext).
Proof. intros l o Hl. exists o. split; [by apply lookup_app_l_Some|done]. Qed.

Lemma same_fields_insert (h : heap) (p : loc) (po po' : TreePath) :
  h !! p = Some po -> path po' = path po -> comment po' = comment po ->
  is_dir_spec po' = is_dir_spec po -> same_fields h (<[p := po']> h).
Proof.
  intros Hp E1 E2 E3 l o Hl. destruct (decide (p = l)) as [->|Hne].
  - exists po'. rewrite list_lookup_insert_eq by by eapply lookup_lt_Some.
    assert (o = po) as -> by congruence. done.
  - exists o. by rewrite list_lookup_insert_ne.
Qed.

Lemma root_of_same_fields (h h' : heap) (r : loc) (e : entry) :
  same_fields h h' -> root_of h r e -> root_of h' r e.
Proof.
  intros Hs (o & Hl & Hp & Hc & Hd). destruct (Hs r o Hl) as (o' & Hl' & Hp' & Hc' & Hd').
  exists o'. repeat split; congruence.
Qed.

(** What one line of the first pass does to the store and the roots. *)
Lemma from_tree_line_counts (indent_size : Z) (line : string) (st : pstate) (h : heap)
    (st' : pstate) (h' : heap) :
  (forall l, l ∈ stack st -> l < length h) ->
  from_tree_line cls_plain indent_size line st h = Return st' h' ->
  match line_entry indent_size line with
  | None => st' = st /\ h' = h
  | Some e =>
      length h' = S (length h) /\ same_fields h h' /\
      (exists o, h' !! length h = Some o /\ comment o = e_comment e /\
                 is_dir_spec o = e_is_dir e /\ children o = [] /\
                 ((e_level e = 0)%Z -> path o = from_parts [AStr (e_name e)])) /\
      raw_roots st' = if (e_level e =? 0)%Z
                      then raw_roots st ++ [length h] else raw_roots st
  end.
Proof.
  intros Hst H. unfold from_tree_line in H. unfold line_entry.
  destruct (read_line indent_size line) as [e|] eqn:He; [|done].
  destruct (PyStr.is_empty (e_name_part e)) eqn:Hne.
  { by apply ret_inv in H as [<- <-]. }
  apply bind_inv in H as (ps & g0 & Eps & H).
  assert (Hps : g0 = h /\ ((e_level e =? 0)%Z = true <-> fst ps = None) /\
                (forall p, fst ps = Some p -> p ∈ stack st)).
  { destruct (e_level e =? 0)%Z.
    - apply ret_inv in Eps as [<- <-]. by repeat split.
    - destruct (py_index _ _) as [p|] eqn:Hp; [|done].
      apply ret_inv in Eps as [<- <-]. split; [done|]. cbn. split; [done|].
      intros p' [= <-]. eapply elem_of_py_slice_to, elem_of_py_index, Hp. }
  destruct Hps as (-> & Hlvl & Hpar). destruct ps as [parent stk]. cbn [fst snd] in *.
  apply bind_inv in H as (node & g1 & Enode & H).
  assert (Hnode : node = length h /\
            exists P, g1 = h ++ [MkTreePath P [] "" false] /\
                      (parent = None -> P = from_parts [AStr (e_name e)])).
  { destruct parent as [p|].
    - apply bind_inv in Enode as (po & g & El & Enode). apply load_inv in El as [_ ->].
      apply alloc_inv in Enode as [-> ->]. split; [done|]. eexists. by split.
    - apply alloc_inv in Enode as [-> ->]. split; [done|]. eexists. by split. }
  destruct Hnode as (-> & P & -> & HP). clear Enode.
  apply bind_inv in H as (u1 & g2 & E1 & H).
  unfold set_comment in E1. rewrite modify_middle in E1. injection E1 as _ <-.
  apply bind_inv in H as (u2 & g3 & E2 & H).
  unfold set_is_dir_spec in E2. rewrite modify_middle in E2. injection E2 as _ <-.
  cbn [path children comment is_dir_spec] in H.
  set (onew := MkTreePath P [] (e_comment e) (e_is_dir e)) in *.
  apply bind_inv in H as (roots & g4 & Eroots & H).
  assert (Hfin : h' = g4 /\ raw_roots st' = roots).
  { destruct (e_is_dir e).
    - destruct (e_level e =? Z.of_nat (length stk))%Z.
      + by apply ret_inv in H as [<- <-].
      + destruct (py_setitem stk (e_level e) (length h)); [|done].
        by apply ret_inv in H as [<- <-].
    - by apply ret_inv in H as [<- <-]. }
  destruct Hfin as [-> ->]. clear H.
  destruct parent as [p|].
  - assert ((e_level e =? 0)%Z = false) as Hl0.
    { destruct (e_level e =? 0)%Z; [|done]. by pose proof (proj1 Hlvl eq_refl). }
    rewrite Hl0.
    apply bind_inv in Eroots as (c & g & Ea & Er). apply ret_inv in Er as [<- <-].
    unfold add_child in Ea. apply bind_inv in Ea as (u & g' & Ea & Er).
    apply ret_inv in Er as [_ <-]. apply modify_inv in Ea as (po & Hpo & ->).
    assert (Hplt : p < length h) by (apply Hst; by apply Hpar).
    split; [rewrite length_insert, length_app; cbn; lia|]. split; [|split; [|done]].
    + eapply same_fields_trans; [apply (same_fields_app h [onew])|].
      by eapply same_fields_insert.
    + exists onew. rewrite list_lookup_insert_ne by lia.
      rewrite list_lookup_middle by done. repeat split; try done.
      intros E. by rewrite E in Hl0.
  - assert ((e_level e =? 0)%Z = true) as Hl0 by by apply Hlvl. rewrite Hl0.
    apply ret_inv in Eroots as [<- <-].
    split; [rewrite length_app; cbn; lia|]. split; [apply same_fields_app|].
    split; [|done]. exists onew. rewrite list_lookup_middle by done.
    repeat split; try done. intros _. by apply HP.
Qed.

Lemma from_tree_lines_counts (k : nat) (indent_size : Z) (lines : list string) :
  forall (st : pstate) (h : heap) (st' : pstate) (h' : heap) (es : list entry),
    k <= length h ->
    parse_inv k h st ->
    from_tree_lines cls_plain indent_size lines st h = Return st' h' ->
    Forall2 (root_of h) (raw_roots st) es ->
    length h' = length h + length (entries indent_size lines) /\
    same_fields h h' /\
    Forall2 (root_of h') (raw_roots st') (es ++ root_entries indent_size lines).
Proof.
  induction lines as [|line lines IH]; intros st h st' h' es Hk Hinv H Hroots.
  - apply ret_inv in H as [<- <-]. cbn. rewrite app_nil_r.
    split; [lia|]. split; [apply same_fields_refl|done].
  - cbn [from_tree_lines] in H. apply bind_inv in H as (st1 & h1 & E & H).
    destruct (from_tree_line_inv k _ _ _ _ _ _ Hk Hinv E) as [Hinv1 K1].
    assert (Hst : forall l, l ∈ stack st -> l < length h).
    { intros l Hl. destruct (inv_stack _ _ _ Hinv l Hl) as [_ Hd]. by eapply dir_at_lt'. }
    pose proof (from_tree_line_counts _ _ _ _ _ _ Hst E) as Hc.
    assert (Hent : entries indent_size (line :: lines) =
              match line_entry indent_size line with
              | Some e => e :: entries indent_size lines
              | None => entries indent_size lines
              end) by reflexivity.
    unfold root_entries in *. rewrite Hent. clear Hent.
    destruct (line_entry indent_size line) as [e|].
    + destruct Hc as (Hlen & Hsf & (o & Ho & Hcm & Hd & _ & Hpath) & Hr).
      assert (Hroots1 : Forall2 (root_of h1) (raw_roots st1)
                (es ++ List.filter (fun e => (e_level e =? 0)%Z) [e])).
      { rewrite Hr. cbn [List.filter]. destruct (Z.eqb_spec (e_level e) 0) as [E0|].
        - apply Forall2_app.
          + eapply Forall2_impl; [exact Hroots|]. intros r e'. by apply root_of_same_fields.
          + constructor; [|done]. exists o. repeat split; try done. by apply Hpath.
        - rewrite app_nil_r. eapply Forall2_impl; [exact Hroots|].
          intros r e'. by apply root_of_same_fields. }
      destruct (IH st1 h1 st' h' _ ltac:(lia) Hinv1 H Hroots1) as (Hlen' & Hsf' & HF).
      split; [cbn; lia|]. split; [by eapply same_fields_trans|].
      rewrite <- app_assoc in HF. cbn [List.filter app] in HF |- *.
      by destruct (e_level e =? 0)%Z.
    + destruct Hc as [-> ->]. by apply (IH st h st' h' es).
Qed.

(** X5.  The first pass allocates exactly one node for every line that
    names an entry (blank and comment-only lines make none), changes the
    path, annotation and directory flag of no object, and leaves as roots
    exactly the entries at level 0, in the order of the text: the i-th root
    has the path of the i-th such entry's name, its annotation and its
    directory flag. *)
Theorem first_pass_nodes_and_roots :
  forall (text : string) (indent_size : Z) (h : heap) (st : pstate) (h1 : heap),
    first_pass text indent_size h = Return st h1 ->
    length h1 = length h + length (entries indent_size (spec_lines text indent_size)) /\
    same_fields h h1 /\
    Forall2 (root_of h1) (raw_roots st)
            (root_entries indent_size (spec_lines text indent_size)).
Proof.
  intros text indent_size h st h1 H. unfold first_pass in H.
  eapply (from_tree_lines_counts (length h) _ _ (MkPState [] []) h st h1 []);
    [done| |exact H|constructor].
  constructor; cbn.
  - intros l Hl. by apply elem_of_nil in Hl.
  - intros l Hl. by apply elem_of_nil in Hl.
  - intros l o Hl Ho. apply lookup_lt_Some in Ho. lia.
Qed.

Lemma first_pass_nodes_and_roots_witness :
  length ex1_heap = 0 + length (entries 2 (spec_lines ex1_text 2)) /\
  same_fields [] ex1_heap /\
  Forall2 (root_of ex1_heap) [0] (root_entries 2 (spec_lines ex1_text 2)).
Proof.
  apply (first_pass_nodes_and_roots ex1_text 2 [] (MkPState [0] [0; 2]) ex1_heap).
  vm_compute. reflexivity.
Defined.

(** ** [from_tree] and the objects that were there before *)

Lemma rebase_allocates (n : nat) (self : loc) (p : PurePath) (g : heap) (r : loc) (g' : heap) :
  rebase n self p g = Return r g' -> length g < length g'.
Proof.
  destruct n as [|n]; [done|]. intros H. rewrite rebase_S in H.
  apply bind_inv in H as (nr & g0 & E0 & H). apply alloc_inv in E0 as [-> ->].
  apply bind_inv in H as (me1 & g1 & E1 & H). apply load_inv in E1 as [_ ->].
  apply bind_inv in H as (u2 & g2 & E2 & H).
  apply (modify_keeps (length g)) in E2 as [_ L2]; [|done].
  apply bind_inv in H as (me3 & g3 & E3 & H). apply load_inv in E3 as [_ ->].
  apply bind_inv in H as (u4 & g4 & E4 & H).
  apply (modify_keeps (length g)) in E4 as [_ L4]; [|done].
  apply bind_inv in H as (u5 & g5 & E5 & H).
  apply (modify_keeps (length g)) in E5 as [_ L5]; [|done].
  apply bind_inv in H as (me6 & g6 & E6 & H). apply load_inv in E6 as [_ ->].
  apply bind_inv in H as (u7 & g7 & E7 & H). apply ret_inv in H as [_ <-].
  rewrite length_app in L2. cbn in L2.
  assert (K : keeps (length g) g5 g7); [|destruct K; lia].
  eapply (for_each_keeps (length g)); [|lia|exact E7].
  intros c h u h' _ Hlen Hc. unfold rebase_child, reparent_with, add_child in Hc.
  apply bind_inv in Hc as (c' & h1 & Ec & Hc).
  apply bind_inv in Ec as (np & h2 & Ea & Ec). apply load_inv in Ea as [_ ->].
  apply bind_inv in Ec as (mc & h3 & Ea & Ec). apply load_inv in Ea as [_ ->].
  apply rebase_frame in Ec as [-> Kc].
  apply bind_inv in Hc as (u8 & h4 & Ea & Hc). apply ret_inv in Hc as [_ <-].
  apply bind_inv in Ea as (u9 & h5 & Ea & Eb). apply ret_inv in Eb as [_ <-].
  eapply keeps_trans; [eapply keeps_le; [|exact Kc]; lia|].
  eapply modify_keeps; [|exact Ea]. lia.
Qed.

Lemma reparent_frame (n : nat) (self np : loc) (g : heap) (r : loc) (g' : heap) :
  reparent n self np g = Return r g' ->
  r = length g /\ keeps (length g) g g' /\ length g < length g'.
Proof.
  unfold reparent, reparent_with. intros H.
  apply bind_inv in H as (o1 & h1 & E1 & H). apply load_inv in E1 as [_ ->].
  apply bind_inv in H as (o2 & h2 & E2 & H). apply load_inv in E2 as [_ ->].
  pose proof (rebase_allocates _ _ _ _ _ _ H). by apply rebase_frame in H as [-> K].
Qed.

Lemma list_comp_keeps {A B} (k : nat) (f : A -> M heap B) (l : list A) :
  (forall x g y g', k <= length g -> f x g = Return y g' -> keeps k g g') ->
  forall g ys g', k <= length g -> list_comp f l g = Return ys g' -> keeps k g g'.
Proof.
  intros Hf. induction l as [|x l IH]; intros g ys g' Hk H.
  - apply ret_inv in H as [_ <-]. apply keeps_refl.
  - cbn [list_comp] in H. apply bind_inv in H as (y & g1 & Ex & H).
    apply bind_inv in H as (ys' & g2 & El & H). apply ret_inv in H as [_ <-].
    pose proof (Hf _ _ _ _ Hk Ex) as K1.
    eapply keeps_trans; [exact K1|]. eapply IH; [|exact El]. destruct K1. lia.
Qed.

Lemma wrap_frame (n : nat) (roots : list loc) (arg : pyarg) (h : heap) (r : loc) (h' : heap) :
  (let* top := new_default [arg] in
   set_is_dir_spec top true ;;; set_comment top "" ;;;
   let* cs := list_comp (fun r => reparent n r top) roots in
   set_children top cs ;;; ret top) h = Return r h' ->
  r = length h /\ keeps (length h) h h' /\ length h < length h'.
Proof.
  intros H.
  apply bind_inv in H as (top & g0 & E0 & H). apply alloc_inv in E0 as [-> ->].
  apply bind_inv in H as (u1 & g1 & E1 & H).
  apply (modify_keeps (length h)) in E1 as K1; [|done].
  apply bind_inv in H as (u2 & g2 & E2 & H).
  apply (modify_keeps (length h)) in E2 as K2; [|done].
  apply bind_inv in H as (cs & g3 & E3 & H).
  apply bind_inv in H as (u4 & g4 & E4 & H).
  apply (modify_keeps (length h)) in E4 as K4; [|done].
  apply ret_inv in H as [<- <-].
  assert (K0 : keeps (length h) h (h ++ [MkTreePath (from_parts [arg]) [] "" false])).
  { by apply keeps_app. }
  assert (L2 : S (length h) <= length g2).
  { destruct K1 as [_ L1], K2 as [_ L2]. rewrite length_app in L1. cbn in L1. lia. }
  assert (K3 : keeps (length h) g2 g3).
  { eapply (list_comp_keeps (length h)); [|lia|exact E3].
    intros x g y g' Hg Hx. apply reparent_frame in Hx as (_ & K & _).
    eapply keeps_le; [|exact K]. done. }
  assert (K : keeps (length h) h g4).
  { eapply keeps_trans; [|exact K4]. eapply keeps_trans; [|exact K3].
    eapply keeps_trans; [|exact K2]. eapply keeps_trans; [|exact K1]. exact K0. }
  split; [done|]. split; [done|].
  destruct K3 as [_ L3], K4 as [_ L4]. lia.
Qed.

Lemma select_frame (n : nat) (roots : list loc) (rp pp : option PurePath)
    (k : nat) (h : heap) (r : loc) (h' : heap) :
  k <= length h ->
  (forall x, x ∈ roots -> k <= x < length h) ->
  from_tree_select n roots rp pp h = Return r h' ->
  keeps (length h) h h' /\ k <= r < length h'.
Proof.
  intros Hk Hroots H.
  assert (Hw : forall arg,
    (let* top := new_default [arg] in
     set_is_dir_spec top true ;;; set_comment top "" ;;;
     let* cs := list_comp (fun r => reparent n r top) roots in
     set_children top cs ;;; ret top) h = Return r h' ->
    keeps (length h) h h' /\ k <= r < length h').
  { intros arg (-> & K & L)%wrap_frame. split; [done|lia]. }
  destruct roots as [|base [|r2 roots]]; cbn [from_tree_select] in H.
  - destruct pp; by eapply Hw.
  - destruct pp as [pp|]; [|destruct rp as [rp|]].
    + apply (Hw (APath pp)). rewrite <- H. symmetry.
      unfold bind. cbn [list_comp]. unfold bind, ret.
      repeat match goal with
             | |- context [match ?x with Return _ _ => _ | Raise _ => _ | Stuck => _ end] =>
                 destruct x
             end; done.
    + pose proof (rebase_allocates _ _ _ _ _ _ H).
      apply rebase_frame in H as [-> K]. split; [done|lia].
    + apply ret_inv in H as [<- <-]. split; [apply keeps_refl|].
      apply Hroots. by left.
  - destruct pp; by eapply Hw.
Qed.

(** X6.  [from_tree] returns a node that it allocated itself and leaves
    every object that was in the store before the call exactly as it was:
    building a tree never changes another tree. *)
Theorem from_tree_keeps_store :
  forall (os : string -> string) (fuel : nat) (text : string)
         (rp pp : option pyarg) (indent_size : Z) (h : heap) (r : loc) (h' : heap),
    from_tree os fuel text rp pp indent_size h = Return r h' ->
    (exists ext, h' = h ++ ext) /\
    length h <= r < length h' /\
    (forall l o, h !! l = Some o -> h' !! l = Some o).
Proof.
  intros os fuel text rp pp indent_size h r h' H.
  rewrite from_tree_unfold in H.
  apply bind_inv in H as (rp' & h0 & Erp & H). apply expand_arg_inv in Erp as ->.
  apply bind_inv in H as (pp' & h0 & Epp & H). apply expand_arg_inv in Epp as ->.
  apply bind_inv in H as (st & h1 & Ep & H).
  destruct (first_pass_inv _ _ _ _ _ Ep) as [[Hroots _ _] K1].
  assert (Hle : length h <= length h1) by (destruct K1; lia).
  destruct (select_frame _ _ _ _ (length h) _ _ _ Hle Hroots H) as [K2 Hr].
  assert (K : keeps (length h) h h').
  { eapply keeps_trans; [exact K1|]. eapply keeps_le; [|exact K2]. done. }
  apply keeps_prefix in K as [ext ->].
  split; [by eexists|]. split; [done|].
  intros l o Hl. by apply lookup_app_l_Some.
Qed.

Lemma from_tree_keeps_store_witness :
  exists h',
    from_tree (fun s => s) 2 ex2_text None (Some (AStr "out")) 2 ex1_heap = Return 6 h' /\
    (exists ext, h' = ex1_heap ++ ext) /\
    length ex1_heap <= 6 < length h' /\
    (forall l o, ex1_heap !! l = Some o -> h' !! l = Some o).
Proof.
  eexists. split; [vm_compute; reflexivity|].
  eapply (from_tree_keeps_store (fun s => s) 2 ex2_text None (Some (AStr "out")) 2).
  vm_compute. reflexivity.
Defined.

(** ** One root with a parent path or a root path *)

Lemma from_tree_one_root (os : string -> string) (fuel : nat) (text : string)
    (rp pp : option pyarg) (indent_size : Z) (h : heap)
    (rp' pp' : option PurePath) (st : pstate) (h1 : heap) (r : loc) (t : Node) :
  expand_arg os rp h = Return rp' h ->
  expand_arg os pp h = Return pp' h ->
  first_pass text indent_size h = Return st h1 ->
  raw_roots st = [r] ->
  reify fuel h1 r = Some t ->
  exists top h2,
    from_tree os fuel text rp pp indent_size h = Return top h2 /\
    reify (S fuel) h2 top = Some (assemble_tree [t] rp' pp').
Proof.
  intros Hrp Hpp Hp Hr Ht.
  destruct (select_tree fuel [r] [t] rp' pp' h1) as (top & h2 & Hsel & Htree & _).
  { cbn. by rewrite Ht. }
  exists top, h2. split; [|done].
  rewrite from_tree_unfold. unfold bind at 1. rewrite Hrp.
  unfold bind at 1. rewrite Hpp. unfold bind at 1. rewrite Hp, Hr. done.
Qed.

(** X7.  With one root and a parent path, [from_tree] returns a
    directory node at the (expanded) parent path, with an empty annotation,
    whose only child is the copy of the root re-rooted under it by the
    root's name; a root path given as well is ignored. *)
Theorem from_tree_parent_path_wraps :
  forall (os : string -> string) (fuel : nat) (text : string)
         (rp : option pyarg) (pp : pyarg) (indent_size : Z) (h : heap)
         (rp' : option PurePath) (pp' : PurePath) (st : pstate) (h1 : heap)
         (r : loc) (t : Node),
    expand_arg os rp h = Return rp' h ->
    expand_arg os (Some pp) h = Return (Some pp') h ->
    first_pass text indent_size h = Return st h1 ->
    raw_roots st = [r] ->
    reify fuel h1 r = Some t ->
    exists top h2,
      from_tree os fuel text rp (Some pp) indent_size h = Return top h2 /\
      reify (S fuel) h2 top =
        Some (MkNode (from_parts [APath pp']) true ""
                [rebase_tree t (truediv (from_parts [APath pp']) (name (node_path t)))]).
Proof.
  intros os fuel text rp pp indent_size h rp' pp' st h1 r t Hrp Hpp Hp Hr Ht.
  destruct (from_tree_one_root os fuel text rp (Some pp) indent_size h rp' (Some pp')
              st h1 r t Hrp Hpp Hp Hr Ht) as (top & h2 & Hrun & Htree).
  exists top, h2. split; [exact Hrun|]. rewrite Htree. reflexivity.
Qed.

Lemma from_tree_parent_path_wraps_witness :
  exists top h2,
    from_tree (fun s => s) 3 ex1_text (Some (AStr "ignored")) (Some (AStr "out")) 2 []
      = Return top h2 /\
    reify 4 h2 top =
      Some (MkNode (from_parts [APath (from_parts [AStr "out"])]) true ""
              [rebase_tree ex1_tree
                 (truediv (from_parts [APath (from_parts [AStr "out"])])
                          (name (node_path ex1_tree)))]).
Proof.
  apply (from_tree_parent_path_wraps (fun s => s) 3 ex1_text (Some (AStr "ignored"))
           (AStr "out") 2 [] (Some (from_parts [AStr "ignored"])) (from_parts [AStr "out"])
           (MkPState [0] [0; 2]) ex1_heap 0 ex1_tree); vm_compute; reflexivity.
Defined.

(** X8.  With one root, a root path and no parent path, [from_tree]
    returns the copy of the root re-rooted at the (expanded) root path: the
    root takes the root path in place of its own name, and every
    descendant is placed under it by its name. *)
Theorem from_tree_root_path_relabels :
  forall (os : string -> string) (fuel : nat) (text : string)
         (rp : pyarg) (indent_size : Z) (h : heap)
         (rp' : PurePath) (st : pstate) (h1 : heap) (r : loc) (t : Node),
    expand_arg os (Some rp) h = Return (Some rp') h ->
    first_pass text indent_size h = Return st h1 ->
    raw_roots st = [r] ->
    reify fuel h1 r = Some t ->
    exists top h2,
      from_tree os fuel text (Some rp) None indent_size h = Return top h2 /\
      reify (S fuel) h2 top = Some (rebase_tree t rp').
Proof.
  intros os fuel text rp indent_size h rp' st h1 r t Hrp Hp Hr Ht.
  destruct (from_tree_one_root os fuel text (Some rp) None indent_size h (Some rp') None
              st h1 r t Hrp eq_refl Hp Hr Ht) as (top & h2 & Hrun & Htree).
  exists top, h2. split; [exact Hrun|]. rewrite Htree. reflexivity.
Qed.

Lemma from_tree_root_path_relabels_witness :
  exists top h2,
    from_tree (fun s => s) 3 ex1_text (Some (AStr "test")) None 2 [] = Return top h2 /\
    reify 4 h2 top = Some (rebase_tree ex1_tree (from_parts [AStr "test"])) /\
    tree_paths (rebase_tree ex1_tree (from_parts [AStr "test"])) =
      ["test"; "test/b.py"; "test/c"; "test/c/d.txt"]%string.
Proof.
  destruct (from_tree_root_path_relabels (fun s => s) 3 ex1_text (AStr "test") 2 []
              (from_parts [AStr "test"]) (MkPState [0] [0; 2]) ex1_heap 0 ex1_tree)
    as (top & h2 & H1 & H2); [vm_compute; reflexivity..|].
  exists top, h2. split; [exact H1|]. split; [exact H2|]. reflexivity.
Defined.

(** ** The names that the first pass passes to the constructor *)

(** X9.  No name that the loop of [from_tree] reads from a tree text
    contains a newline, so no constructor call [cls(name)] inside
    [from_tree] takes the tree-text branch of [__new__]: each one builds a
    plain path object. *)
Theorem from_tree_names_are_plain :
  forall (os : string -> string) (fuel : nat) (text : string) (indent_size : Z)
         (line : string) (e : entry),
    line ∈ spec_lines text indent_size ->
    read_line indent_size line = Some e ->
    PyStr.contains PyStr.LF (e_name e) = false /\
    tree_text_arg [AStr (e_name e)] = None /\
    forall h : heap,
      TreePath_new os fuel [AStr (e_name e)] h =
      Return (length h) (h ++ [MkTreePath (from_parts [AStr (e_name e)]) [] "" false]).
Proof.
  intros os fuel text indent_size line e Hline He.
  assert (Hnl : PyStr.contains PyStr.LF (e_name e) = false).
  { eapply read_line_no_newline; [|exact He]. by eapply spec_lines_no_newline. }
  split; [done|]. split.
  - cbn [tree_text_arg]. by rewrite Hnl.
  - intros h. by rewrite TreePath_new_plain.
Qed.

Lemma from_tree_names_are_plain_witness :
  PyStr.contains PyStr.LF (e_name (MkEntry 1 "b.py" "init")) = false /\
  tree_text_arg [AStr (e_name (MkEntry 1 "b.py" "init"))] = None /\
  forall h : heap,
    TreePath_new (fun s => s) 0 [AStr (e_name (MkEntry 1 "b.py" "init"))] h =
    Return (length h)
      (h ++ [MkTreePath (from_parts [AStr (e_name (MkEntry 1 "b.py" "init"))]) [] "" false]).
Proof.
  apply (from_tree_names_are_plain (fun s => s) 0 ex1_text 2 "  b.py # init").
  - vm_compute. right. left.
  - reflexivity.
Defined.

(** * Further properties of [rebase] *)

Lemma rebase_loop_size (n : nat) (h : heap)
    (IH : forall (g : heap) (c : loc) (p : PurePath) (t : Node) (r : loc) (g' : heap),
            reify n g c = Some t -> rebase n c p g = Return r g' ->
            length g' = length g + tree_size t) :
  forall (cs : list loc) (ts : list Node) (g : heap) (u : unit) (g' : heap),
    mapM (reify n h) cs = Some ts ->
    keeps (length h) h g -> length h < length g ->
    for_each (rebase_child n (length h)) cs g = Return u g' ->
    length g' = length g + list_sum (List.map tree_size ts) /\
    keeps (length h) h g'.
Proof.
  induction cs as [|c cs IHcs]; intros ts g u g' Hm K L H.
  - injection Hm as <-. apply ret_inv in H as [_ <-]. cbn. split; [lia|done].
  - rewrite mapM_Some in Hm. apply Forall2_cons_inv_l in Hm as (t & ts' & Hc & Hcs & ->).
    rewrite <- mapM_Some in Hcs.
    cbn [for_each] in H. apply bind_inv in H as (u1 & g1 & Ec & H).
    unfold rebase_child, reparent_with, add_child in Ec.
    apply bind_inv in Ec as (c' & h1 & Ec & Ea).
    apply bind_inv in Ec as (np & h2 & El & Ec). apply load_inv in El as [_ ->].
    apply bind_inv in Ec as (mc & h3 & El & Ec). apply load_inv in El as [_ ->].
    apply bind_inv in Ea as (u8 & h4 & Ea & Er). apply ret_inv in Er as [_ <-].
    apply bind_inv in Ea as (u9 & h5 & Ea & Eb). apply ret_inv in Eb as [_ <-].
    assert (Hcg : reify n g c = Some t).
    { destruct (keeps_prefix h g K) as [ext ->]. by apply reify_extend. }
    pose proof (IH _ _ _ _ _ _ Hcg Ec) as Hlen1.
    apply rebase_frame in Ec as [-> Kc].
    apply modify_inv in Ea as (o & Ho & ->).
    assert (K1 : keeps (length h) h (<[length h := MkTreePath (path o)
                   (children o ++ [length g]) (comment o) (is_dir_spec o)]> h1)).
    { eapply keeps_trans; [exact K|]. eapply keeps_trans.
      - eapply keeps_le; [|exact Kc]. lia.
      - by apply keeps_insert. }
    destruct (IHcs ts' _ _ _ Hcs K1 ltac:(rewrite length_insert; lia) H) as [Hlen2 K2].
    split; [|done]. rewrite Hlen2, length_insert, Hlen1.
    change (list_sum (List.map tree_size (t :: ts')))
      with (tree_size t + list_sum (List.map tree_size ts')). lia.
Qed.

Lemma rebase_size (n : nat) :
  forall (h : heap) (self : loc) (p : PurePath) (t : Node) (r : loc) (h' : heap),
    reify n h self = Some t -> rebase n self p h = Return r h' ->
    length h' = length h + tree_size t.
Proof.
  induction n as [|n IH]; intros h self p t r h' Ht H; [done|].
  rewrite reify_S in Ht. destruct (h !! self) as [o|] eqn:Ho; [|done].
  destruct (mapM (reify n h) (children o)) as [ts|] eqn:Hm; [|done].
  injection Ht as <-. rewrite rebase_S in H.
  apply bind_inv in H as (nr & g0 & E0 & H). apply alloc_inv in E0 as [-> ->].
  apply bind_inv in H as (me1 & g1 & E1 & H). apply load_inv in E1 as [_ ->].
  apply bind_inv in H as (u2 & g2 & E2 & H).
  unfold set_is_dir_spec in E2. rewrite modify_middle in E2. injection E2 as _ <-.
  apply bind_inv in H as (me3 & g3 & E3 & H). apply load_inv in E3 as [_ ->].
  apply bind_inv in H as (u4 & g4 & E4 & H).
  unfold set_comment in E4. rewrite modify_middle in E4. injection E4 as _ <-.
  apply bind_inv in H as (u5 & g5 & E5 & H).
  unfold set_children in E5. rewrite modify_middle in E5. injection E5 as _ <-.
  apply bind_inv in H as (me6 & g6 & E6 & H). apply load_inv in E6 as [E6 ->].
  rewrite (lookup_app_l_Some _ _ _ _ Ho) in E6. injection E6 as <-.
  apply bind_inv in H as (u7 & g7 & E7 & H). apply ret_inv in H as [_ <-].
  eapply (rebase_loop_size n h IH) in E7 as [Hlen _]; [| exact Hm | by apply keeps_app |].
  - rewrite Hlen, length_app. cbn. lia.
  - rewrite length_app. cbn. lia.
Qed.

(** X10.  [rebase] makes a deep copy: on a node with a tree [t] below it,
    it allocates exactly one new object for every node of [t], all of them
    after the objects that were there, and returns the first of them. *)
Theorem rebase_allocates_one_object_per_node :
  forall (n : nat) (h : heap) (self : loc) (p : PurePath) (t : Node),
    reify n h self = Some t ->
    exists ext,
      rebase n self p h = Return (length h) (h ++ ext) /\
      length ext = tree_size t.
Proof.
  intros n h self p t Ht.
  destruct (rebase_ok_all n h self p t Ht) as (ext & Hrun & _).
  exists ext. split; [done|].
  pose proof (rebase_size n h self p t _ _ Ht Hrun) as Hlen.
  rewrite length_app in Hlen. lia.
Qed.

Lemma rebase_allocates_one_object_per_node_witness :
  exists ext,
    rebase 3 0 (from_parts [AStr "out"]) ex1_heap = Return 4 (ex1_heap ++ ext) /\
    length ext = 4.
Proof.
  apply (rebase_allocates_one_object_per_node 3 ex1_heap 0 (from_parts [AStr "out"]) ex1_tree).
  reflexivity.
Defined.

(** * Further properties of the materializer *)

(** ** The actions of [mktree] and the nodes it visits *)

Lemma actions_of_visited (h : heap) (self l : loc) :
  visited h self l ->
  forall (fuel : nat) (mode : Z) (parents exist_ok : bool) (acts : list action) (o : TreePath),
    actions fuel h self mode parents exist_ok = Some acts ->
    h !! l = Some o ->
    exists a, a ∈ acts /\ is_action_of o a.
Proof.
  induction 1 as [self|self o0 c l Hself Hdir Hc Hv IH];
    intros fuel mode parents exist_ok acts o Ha Hl;
    (destruct fuel as [|n]; [done|]); cbn [actions] in Ha.
  - rewrite Hl in Ha. unfold is_action_of. destruct (is_dir_spec o).
    + destruct (mapM _ _) as [ls|]; [|done]. injection Ha as <-.
      eexists. split; [by left|]. by eexists _, _, _.
    + injection Ha as <-. eexists. split; [by left|]. by eexists _, _.
  - rewrite Hself, Hdir in Ha.
    destruct (mapM _ (children o0)) as [ls|] eqn:Hm; [|done]. injection Ha as <-.
    rewrite mapM_Some in Hm.
    destruct (proj1 (list_elem_of_lookup _ _) Hc) as [i Hi].
    destruct (Forall2_lookup_l _ _ _ _ _ Hm Hi) as (acts_c & Hls & Hacts).
    destruct (IH _ _ _ _ _ _ Hacts Hl) as (a & Hin & Hact).
    exists a. split; [|done]. right. apply list_elem_of_In, in_concat.
    exists acts_c. split; apply list_elem_of_In; [|done].
    apply list_elem_of_lookup. eauto.
Qed.

Lemma visited_of_file_action (fuel : nat) :
  forall (h : heap) (self : loc) (mode : Z) (parents exist_ok : bool)
         (acts : list action) (o : TreePath) (m : Z) (p : bool),
    actions fuel h self mode parents exist_ok = Some acts ->
    AFile o m p ∈ acts ->
    exists l, visited h self l /\ h !! l = Some o /\ is_dir_spec o = false.
Proof.
  induction fuel as [|n IH]; intros h self mode parents exist_ok acts o m p Ha Hin; [done|].
  cbn [actions] in Ha. destruct (h !! self) as [o0|] eqn:Hself; [|done].
  destruct (is_dir_spec o0) eqn:Hdir.
  - destruct (mapM _ (children o0)) as [ls|] eqn:Hm; [|done]. injection Ha as <-.
    apply elem_of_cons in Hin as [Hin|Hin]; [done|].
    apply list_elem_of_In, in_concat in Hin as (acts_c & Hls & Hin).
    apply list_elem_of_In, list_elem_of_lookup in Hls as [i Hi].
    rewrite mapM_Some in Hm.
    destruct (Forall2_lookup_r _ _ _ _ _ Hm Hi) as (c & Hc & Hacts).
    destruct (IH _ _ _ _ _ _ _ _ _ Hacts (proj2 (list_elem_of_In _ _) Hin))
      as (l & Hv & Hl & Hd).
    exists l. split; [|done]. eapply visited_child; [done..| |done].
    apply list_elem_of_lookup. eauto.
  - injection Ha as <-. apply list_elem_of_singleton in Hin. injection Hin as -> _ _.
    exists self. split; [constructor|done].
Qed.

(** What a run of [mktree] that returns establishes, through its actions. *)
Lemma mktree_facts (fuel : nat) (h : heap) (self : loc) (mode : Z) (parents exist_ok : bool)
    (f : fs) (r : loc) (f1 : fs) :
  mktree fuel h self mode parents exist_ok f = Return r f1 ->
  exists acts,
    actions fuel h self mode parents exist_ok = Some acts /\
    same_kinds f f1 /\ Forall (fun a => settled a f1) acts /\
    forall k, cont f1 k = acts_text k acts (cont f k).
Proof.
  intros H. destruct (mktree_actions_exist _ _ _ _ _ _ _ _ _ H) as [acts Ha].
  exists acts. split; [done|].
  rewrite (mktree_run _ _ _ _ _ _ _ Ha) in H.
  destruct (for_each run_action acts f) as [u f2| |] eqn:Hrun; [|done|done].
  cbn [lift_unit] in H. injection H as _ <-.
  by eapply run_actions_facts.
Qed.

(** X11.  When [mktree] returns, every node that it visits is on the file
    system: the path of a visited node flagged as a directory exists, and
    the path of a visited node that is not flagged is a regular file. *)
Theorem mktree_materializes_visited (fuel : nat) (h : heap) (self : loc) (mode : Z)
    (parents exist_ok : bool) (f : fs) (r : loc) (f1 : fs) (l : loc) (o : TreePath) :
  mktree fuel h self mode parents exist_ok f = Return r f1 ->
  visited h self l -> h !! l = Some o ->
  if is_dir_spec o then entry_at (path o) f1 <> None
  else exists c, entry_at (path o) f1 = Some (File c).
Proof.
  intros H Hv Hl.
  destruct (mktree_facts _ _ _ _ _ _ _ _ _ H) as (acts & Ha & _ & Hs & _).
  destruct (actions_of_visited _ _ _ Hv _ _ _ _ _ _ Ha Hl) as (a & Hin & Hact).
  rewrite Forall_forall in Hs. specialize (Hs a Hin).
  unfold is_action_of in Hact. destruct (is_dir_spec o).
  - destruct Hact as (m & p & e & ->). exact Hs.
  - destruct Hact as (m & p & ->). destruct Hs as [Hanc [c Hc]].
    exists c. unfold entry_at. by rewrite Hanc.
Qed.

Lemma mktree_materializes_visited_witness :
  exists f1 : fs,
    mktree 3 ex1_heap 0 511 true true ∅ = Return 0 f1 /\
    visited ex1_heap 0 3 /\
    exists c, entry_at (from_parts [AStr "a/c/d.txt"]) f1 = Some (File c).
Proof.
  eexists. split; [reflexivity|].
  assert (Hv : visited ex1_heap 0 3).
  { eapply (visited_child ex1_heap 0 _ 2 3); [reflexivity|reflexivity| |].
    - right. left.
    - eapply (visited_child ex1_heap 2 _ 3 3); [reflexivity|reflexivity|left|constructor]. }
  split; [exact Hv|].
  eapply (mktree_materializes_visited 3 ex1_heap 0 511 true true ∅ 0 _ 3
            (MkTreePath (from_parts [AStr "a/c/d.txt"]) [] "" false)).
  - reflexivity.
  - exact Hv.
  - reflexivity.
Defined.

Lemma acts_text_untouched (k : list string) (acts : list action) (c : string) :
  (forall o m p, AFile o m p ∈ acts -> parts (path o) <> k) ->
  acts_text k acts c = c.
Proof.
  revert c. induction acts as [|a acts IH]; intros c Hne; [done|].
  rewrite acts_text_cons.
  assert (act_text k a c = c) as ->.
  { destruct a as [p mode parents exist_ok|o mode parents]; cbn [act_text]; [done|].
    destruct (bool_decide_reflect (parts (path o) = k)) as [E|]; [|done].
    exfalso. eapply Hne; [by left|done]. }
  apply IH. intros o m p Hin. eapply Hne. by right.
Qed.

(** X12.  [mktree] removes nothing and does not turn a file into a
    directory or a directory into a file.  A file keeps its text when no
    visited node without the directory flag names it; the paths compared
    are written without ".." and from the same root, so that two of them
    name the same file only when their components are the same. *)
Theorem mktree_keeps_entries (fuel : nat) (h : heap) (self : loc) (mode : Z)
    (parents exist_ok : bool) (f : fs) (r : loc) (f1 : fs) :
  mktree fuel h self mode parents exist_ok f = Return r f1 ->
  same_kinds f f1 /\
  forall (q : PurePath) (c : string),
    entry_at q f = Some (File c) ->
    no_dotdot q = true ->
    (forall l o, visited h self l -> h !! l = Some o -> is_dir_spec o = false ->
                 no_dotdot (path o) = true /\ root (path o) = root q /\
                 parts (path o) <> parts q) ->
    entry_at q f1 = Some (File c).
Proof.
  intros H.
  destruct (mktree_facts _ _ _ _ _ _ _ _ _ H) as (acts & Ha & Hk & _ & Hc).
  split; [exact Hk|]. intros q c Hq _ Hne.
  destruct (entry_at_File _ _ _ Hq) as [Hanc Hf].
  unfold entry_at. rewrite Hanc.
  destruct (Hk (parts q)) as [_ HF]. destruct (HF c Hf) as [c' Hc'].
  rewrite Hc'. do 2 f_equal.
  specialize (Hc (parts q)). unfold cont at 1 2 in Hc. rewrite Hc', Hf in Hc.
  rewrite Hc. apply acts_text_untouched. intros o m p Hin.
  destruct (visited_of_file_action _ _ _ _ _ _ _ _ _ _ Ha Hin) as (l & Hv & Hl & Hd).
  by destruct (Hne l o Hv Hl Hd) as (_ & _ & Hparts).
Qed.

Lemma mktree_keeps_entries_witness :
  exists f1 : fs,
    mktree 3 ex1_heap 0 511 true true {[ ["a"; "z.txt"]%string := File "kept" ]} = Return 0 f1 /\
    same_kinds {[ ["a"; "z.txt"]%string := File "kept" ]} f1 /\
    entry_at (from_parts [AStr "a/z.txt"]) f1 = Some (File "kept").
Proof.
  assert (Hrun : exists f1 : fs,
            mktree 3 ex1_heap 0 511 true true {[ ["a"; "z.txt"]%string := File "kept" ]}
            = Return 0 f1) by (eexists; reflexivity).
  destruct Hrun as [f1 Hrun].
  destruct (mktree_keeps_entries 3 ex1_heap 0 511 true true _ 0 f1 Hrun) as [Hk Hc].
  exists f1. split; [exact Hrun|]. split; [exact Hk|].
  apply Hc; [reflexivity|reflexivity|].
  intros l o _ Hl _.
  destruct l as [|[|[|[|l]]]]; [..|discriminate Hl];
    injection Hl as <-; (split; [reflexivity|]); (split; [reflexivity|]);
    vm_compute; discriminate.
Defined.

(** ** The headers after a run of [mktree] *)

(** A text that starts with the marker of its suffix is left alone. *)
Lemma marked_fixed (sfx c m : string) :
  header_marker sfx = Some m ->
  PyStr.startswith m (PyStr.take 4 (universal_newlines c)) = true ->
  fixed_text sfx c = true.
Proof.
  unfold header_marker, fixed_text. cbv zeta.
  destruct (String.eqb_spec sfx ".py") as [->|Hpy].
  { intros [= <-] ->. reflexivity. }
  destruct (String.eqb_spec sfx ".js") as [->|Hjs].
  { intros [= <-] ->. reflexivity. }
  destruct (String.eqb_spec sfx ".ts") as [->|Hts].
  { intros [= <-] ->. reflexivity. }
  destruct (String.eqb_spec sfx ".sh") as [->|Hsh]; [|done].
  intros [= <-] ->. reflexivity.
Qed.

(** What [write_comment] leaves in a file whose suffix has a marker
    starts with the marker. *)
Lemma new_content_marked (sfx cmt c m : string) :
  header_marker sfx = Some m ->
  PyStr.startswith m (PyStr.take 4 (universal_newlines (new_content sfx cmt c))) = true.
Proof.
  unfold header_marker, new_content. cbv zeta.
  destruct (String.eqb_spec sfx ".py") as [->|Hpy].
  { intros [= <-]. cbn [String.eqb Ascii.eqb Bool.eqb andb orb].
    destruct (PyStr.startswith TRIPLE_QUOTE (PyStr.take 4 (universal_newlines c))) eqn:E;
      [exact E|]. cbn [negb]. apply header_py. }
  destruct (String.eqb_spec sfx ".js") as [->|Hjs].
  { intros [= <-]. cbn [String.eqb Ascii.eqb Bool.eqb andb orb].
    destruct (PyStr.startswith "//" (PyStr.take 4 (universal_newlines c))) eqn:E;
      [exact E|]. cbn [negb]. apply header_js. }
  destruct (String.eqb_spec sfx ".ts") as [->|Hts].
  { intros [= <-]. cbn [String.eqb Ascii.eqb Bool.eqb andb orb].
    destruct (PyStr.startswith "//" (PyStr.take 4 (universal_newlines c))) eqn:E;
      [exact E|]. cbn [negb]. apply header_js. }
  destruct (String.eqb_spec sfx ".sh") as [->|Hsh]; [|done].
  intros [= <-]. cbn [String.eqb Ascii.eqb Bool.eqb andb orb].
  destruct (PyStr.startswith "# " (PyStr.take 4 (universal_newlines c))) eqn:E;
    [exact E|]. cbn [negb]. apply header_sh.
Qed.

Lemma key_updates_elem (acts : list action) (o : TreePath) (m : Z) (p : bool) :
  AFile o m p ∈ acts ->
  new_content (suffix (path o)) (comment o) ∈ key_updates (parts (path o)) acts.
Proof.
  induction acts as [|a acts IH]; [by intros ?%elem_of_nil|].
  intros [<-|Hin]%elem_of_cons; cbn [key_updates].
  - rewrite bool_decide_true by done. by left.
  - destruct a as [p' mode parents exist_ok|o' mode parents]; [by apply IH|].
    destruct (bool_decide (parts (path o') = parts (path o))); [right|]; by apply IH.
Qed.

(** After updates that all write the marker of one suffix, the text
    starts with the marker. *)
Lemma run_texts_marked (sfx m : string) (l : list (string -> string)) (c : string) :
  header_marker sfx = Some m ->
  l <> [] ->
  (forall w, w ∈ l -> exists cmt, w = new_content sfx cmt) ->
  PyStr.startswith m (PyStr.take 4 (universal_newlines (run_texts l c))) = true.
Proof.
  intros Hm Hne Hl. destruct l as [|w l]; [done|]. clear Hne.
  rewrite run_texts_cons.
  destruct (Hl w) as [cmt ->]; [by left|].
  rewrite (run_texts_fixed (fixed_text sfx) l) with (l := l).
  - by apply new_content_marked.
  - intros w c' Hw Hc'. destruct (Hl w) as [cmt' ->]; [by right|].
    by apply new_content_fixed.
  - done.
  - eapply marked_fixed; [done|]. by apply new_content_marked.
Qed.

(** X13.  When [mktree] returns, the file of every visited node that is
    not flagged as a directory and whose suffix is .py, .js, .ts or .sh
    starts with the marker that [write_comment] looks for. *)
Theorem mktree_files_start_with_marker (fuel : nat) (h : heap) (self : loc) (mode : Z)
    (parents exist_ok : bool) (f : fs) (r : loc) (f1 : fs)
    (l : loc) (o : TreePath) (m : string) :
  mktree fuel h self mode parents exist_ok f = Return r f1 ->
  visited h self l -> h !! l = Some o -> is_dir_spec o = false ->
  header_marker (suffix (path o)) = Some m ->
  exists c, entry_at (path o) f1 = Some (File c) /\
            PyStr.startswith m (PyStr.take 4 (universal_newlines c)) = true.
Proof.
  intros H Hv Hl Hd Hm.
  destruct (mktree_facts _ _ _ _ _ _ _ _ _ H) as (acts & Ha & _ & Hs & Hc).
  destruct (actions_of_visited _ _ _ Hv _ _ _ _ _ _ Ha Hl) as (a & Hin & Hact).
  unfold is_action_of in Hact. rewrite Hd in Hact. destruct Hact as (md & p & ->).
  rewrite Forall_forall in Hs.
  destruct (Hs _ Hin) as [Hanc [c Hfile]].
  exists c. split; [unfold entry_at; by rewrite Hanc|].
  specialize (Hc (parts (path o))). unfold cont at 1 in Hc. rewrite Hfile in Hc.
  rewrite Hc, acts_text_key_updates.
  apply (run_texts_marked (suffix (path o))); [done| |].
  - intros E. apply key_updates_elem in Hin. rewrite E in Hin. by apply elem_of_nil in Hin.
  - intros w (o' & md' & p' & Hin' & Hk & ->)%elem_of_key_updates.
    exists (comment o'). destruct (Hs _ Hin') as [Hanc' _].
    by rewrite (suffix_of_parts (path o') (path o)).
Qed.

Lemma mktree_files_start_with_marker_witness :
  exists (f1 : fs) (c : string),
    mktree 3 ex1_heap 0 511 true true {[ ["a"]%string := Dir;
                                         ["a"; "b.py"]%string := File "import os" ]}
      = Return 0 f1 /\
    entry_at (from_parts [AStr "a/b.py"]) f1 = Some (File c) /\
    PyStr.startswith TRIPLE_QUOTE (PyStr.take 4 (universal_newlines c)) = true.
Proof.
  assert (Hv : visited ex1_heap 0 1).
  { eapply (visited_child ex1_heap 0 _ 1 1); [reflexivity|reflexivity|left|constructor]. }
  assert (Hrun : exists f1 : fs,
            mktree 3 ex1_heap 0 511 true true
              {[ ["a"]%string := Dir; ["a"; "b.py"]%string := File "import os" ]}
            = Return 0 f1) by (eexists; reflexivity).
  destruct Hrun as [f1 Hrun].
  destruct (mktree_files_start_with_marker 3 ex1_heap 0 511 true true _ 0 f1 1
              (MkTreePath (from_parts [AStr "a/b.py"]) [] "init" false) TRIPLE_QUOTE
              Hrun Hv eq_refl eq_refl eq_refl)
    as (c & Hc & Hm).
  exists f1, c. split; [exact Hrun|]. split; [exact Hc|exact Hm].
Defined.

(** ** [write_comment] by the state of the file *)

Lemma write_comment_dir (o : TreePath) (f : fs) :
  entry_at (path o) f = Some Dir -> write_comment o f = Raise IsADirectoryError.
Proof.
  intros He. rewrite write_comment_unfold.
  unfold bind at 1 2, path_exists. rewrite He. unfold ret at 1.
  unfold write_header, read_prefix, read_text, bind. by rewrite He.
Qed.

Lemma write_comment_absent (o : TreePath) (f : fs) :
  entry_at (path o) f = None ->
  write_comment o f =
    match entry_at (parent (path o)) f with
    | None => Raise FileNotFoundError
    | Some (File _) => Raise NotADirectoryError
    | Some Dir =>
        Return tt (<[parts (path o) := File (new_content (suffix (path o)) (comment o) "")]> f)
    end.
Proof.
  intros He. destruct (entry_at_None _ _ He) as [Ha Hl].
  rewrite write_comment_unfold.
  unfold bind at 1 2, path_exists, touch, create. rewrite He.
  cbv beta iota. rewrite He.
  destruct (entry_at (parent (path o)) f) as [[c|]|] eqn:Hp; cbv beta iota; [done| |done].
  rewrite (write_header_file o _ "") by by apply entry_at_insert.
  by rewrite insert_insert_eq.
Qed.

Lemma known_suffix_fixed (sfx c : string) :
  known_suffix sfx = false -> fixed_text sfx c = true.
Proof.
  unfold known_suffix, fixed_text. cbv zeta.
  destruct (String.eqb sfx ".py"); [done|].
  destruct (String.eqb sfx ".js"); [done|].
  destruct (String.eqb sfx ".ts"); [done|].
  destruct (String.eqb sfx ".md"); [done|].
  destruct (String.eqb sfx ".sh"); done.
Qed.

Lemma write_comment_fixed (o : TreePath) (f : fs) (c : string) :
  entry_at (path o) f = Some (File c) ->
  fixed_text (suffix (path o)) c = true ->
  write_comment o f = Return tt f.
Proof.
  intros He Hfix. rewrite (write_comment_file _ _ _ He).
  rewrite new_content_fixed by done.
  destruct (entry_at_File _ _ _ He) as [_ Hl]. by rewrite insert_id.
Qed.

Lemma append_assoc (a b c : string) : ((a ++ b) ++ c = a ++ (b ++ c))%string.
Proof.
  induction a as [|x a IH]; [done|].
  change (String x ((a ++ b) ++ c) = String x (a ++ (b ++ c)))%string. by rewrite IH.
Qed.

(** The text that [write_comment] leaves when it prepends a header. *)
Lemma new_content_header (sfx cmt c m : string) :
  header_marker sfx = Some m ->
  PyStr.startswith m (PyStr.take 4 (universal_newlines c)) = false ->
  new_content sfx cmt c = (header_line sfx cmt ++ universal_newlines c)%string.
Proof.
  unfold header_marker, new_content, header_line. cbv zeta.
  destruct (String.eqb_spec sfx ".py") as [->|Hpy].
  { intros [= <-] ->. cbn [String.eqb Ascii.eqb Bool.eqb andb orb negb].
    by rewrite !append_assoc. }
  destruct (String.eqb_spec sfx ".js") as [->|Hjs].
  { intros [= <-] ->. cbn [String.eqb Ascii.eqb Bool.eqb andb orb negb].
    by rewrite !append_assoc. }
  destruct (String.eqb_spec sfx ".ts") as [->|Hts].
  { intros [= <-] ->. cbn [String.eqb Ascii.eqb Bool.eqb andb orb negb].
    by rewrite !append_assoc. }
  destruct (String.eqb_spec sfx ".sh") as [->|Hsh]; [|done].
  intros [= <-] ->. cbn [String.eqb Ascii.eqb Bool.eqb andb orb negb].
  by rewrite !append_assoc.
Qed.

(** X14.  When the first characters of the file can be read and its
    suffix is none of .py, .js, .ts, .md and .sh, [write_comment] changes
    nothing: the annotation is dropped.  (The read comes before the test
    of the suffix, so a file that cannot be read fails whatever its
    suffix.) *)
Theorem write_comment_other_suffix (o : TreePath) (f : fs) (st : string) :
  known_suffix (suffix (path o)) = false ->
  read_prefix 4 (path o) f = Return st f ->
  write_comment o f = Return tt f.
Proof.
  intros Hk Hread.
  assert (exists c, entry_at (path o) f = Some (File c)) as [c He].
  { unfold read_prefix, read_text, bind in Hread.
    destruct (entry_at (path o) f) as [[c|]|]; [by exists c|done|done]. }
  apply (write_comment_fixed o f c He). by apply known_suffix_fixed.
Qed.

Lemma write_comment_other_suffix_witness :
  write_comment (MkTreePath (from_parts [AStr "d.txt"]) [] "data" false)
                {[ ["d.txt"]%string := File "old text" ]}
  = Return tt {[ ["d.txt"]%string := File "old text" ]}.
Proof.
  apply (write_comment_other_suffix _ _ "old "); reflexivity.
Defined.

(** X15.  On a file that starts with the marker of its suffix,
    [write_comment] changes nothing, whatever the annotation. *)
Theorem write_comment_marked_file (o : TreePath) (f : fs) (c m : string) :
  entry_at (path o) f = Some (File c) ->
  header_marker (suffix (path o)) = Some m ->
  PyStr.startswith m (PyStr.take 4 (universal_newlines c)) = true ->
  write_comment o f = Return tt f.
Proof.
  intros He Hm Hs. apply (write_comment_fixed o f c He). by eapply marked_fixed.
Qed.

Lemma write_comment_marked_file_witness :
  write_comment (MkTreePath (from_parts [AStr "run.sh"]) [] "entry point" false)
                {[ ["run.sh"]%string := File "# !old" ]}
  = Return tt {[ ["run.sh"]%string := File "# !old" ]}.
Proof.
  apply (write_comment_marked_file _ _ "# !old" "# "); reflexivity.
Defined.

(** X16.  On a file with the suffix .py, .js, .ts or .sh that does not
    start with the marker, [write_comment] prepends the header line; the
    old text follows it, with its line ends translated to newlines. *)
Theorem write_comment_prepends_header (o : TreePath) (f : fs) (c m : string) :
  entry_at (path o) f = Some (File c) ->
  header_marker (suffix (path o)) = Some m ->
  PyStr.startswith m (PyStr.take 4 (universal_newlines c)) = false ->
  write_comment o f =
    Return tt (<[parts (path o) :=
                   File (header_line (suffix (path o)) (comment o)
                         ++ universal_newlines c)%string]> f).
Proof.
  intros He Hm Hs. rewrite (write_comment_file _ _ _ He).
  by rewrite (new_content_header _ _ _ _ Hm Hs).
Qed.

Lemma write_comment_prepends_header_witness :
  write_comment (MkTreePath (from_parts [AStr "app.js"]) [] "entry" false)
                {[ ["app.js"]%string := File (String PyStr.CR (String PyStr.LF "run()")) ]}
  = Return tt {[ ["app.js"]%string := File ("// entry" ++ NEWLINE ++ NEWLINE ++ "run()")%string ]}.
Proof.
  rewrite (write_comment_prepends_header _ _ (String PyStr.CR (String PyStr.LF "run()")) "//");
    [|reflexivity..].
  reflexivity.
Defined.

(** X17.  For a path that does not exist in a directory that does,
    [write_comment] creates the file: with the header line for .py, .js,
    .ts and .sh, with the annotation alone for .md, and empty otherwise. *)
Theorem write_comment_creates_file (o : TreePath) (f : fs) :
  entry_at (path o) f = None ->
  entry_at (parent (path o)) f = Some Dir ->
  write_comment o f =
    Return tt (<[parts (path o) :=
                   File (match header_marker (suffix (path o)) with
                         | Some _ => header_line (suffix (path o)) (comment o)
                         | None => if String.eqb (suffix (path o)) ".md"
                                   then comment o else ""
                         end)]> f).
Proof.
  intros He Hp. rewrite (write_comment_absent _ _ He), Hp. do 3 f_equal.
  set (sfx := suffix (path o)). set (cmt := comment o).
  unfold header_marker, new_content, header_line. cbv zeta.
  destruct (String.eqb_spec sfx ".py") as [->|Hpy].
  { reflexivity. }
  destruct (String.eqb_spec sfx ".js") as [->|Hjs].
  { reflexivity. }
  destruct (String.eqb_spec sfx ".ts") as [->|Hts].
  { reflexivity. }
  destruct (String.eqb_spec sfx ".sh") as [->|Hsh].
  { reflexivity. }
  cbn [orb andb]. destruct (String.eqb sfx ".md"); reflexivity.
Qed.

Lemma write_comment_creates_file_witness :
  write_comment (MkTreePath (from_parts [AStr "README.md"]) [] "about" false) ∅
  = Return tt {[ ["README.md"]%string := File "about" ]}.
Proof.
  rewrite (write_comment_creates_file _ ∅); [|reflexivity..].
  reflexivity.
Defined.

(** X18.  Three failures of [write_comment], for a path written without
    "..": [IsADirectoryError] when the path is a directory;
    [NotADirectoryError] when the path does not exist and its parent is a
    file; [FileNotFoundError] when the path does not exist, its parent
    does not exist either and no directory above it is a file. *)
Theorem write_comment_failures (o : TreePath) (f : fs) :
  no_dotdot (path o) = true ->
  (entry_at (path o) f = Some Dir ->
   write_comment o f = Raise IsADirectoryError) /\
  (entry_at (path o) f = None ->
   (exists c, entry_at (parent (path o)) f = Some (File c)) ->
   write_comment o f = Raise NotADirectoryError) /\
  (entry_at (path o) f = None ->
   entry_at (parent (path o)) f = None ->
   (forall (n : nat) (c : string),
      entry_at (Nat.iter n parent (path o)) f <> Some (File c)) ->
   write_comment o f = Raise FileNotFoundError).
Proof.
  intros _. split; [|split].
  - apply write_comment_dir.
  - intros He [c Hp]. by rewrite (write_comment_absent _ _ He), Hp.
  - intros He Hp _. by rewrite (write_comment_absent _ _ He), Hp.
Qed.

Lemma write_comment_failures_witness :
  write_comment (MkTreePath (from_parts [AStr "docs"]) [] "" false)
                {[ ["docs"]%string := Dir ]} = Raise IsADirectoryError /\
  write_comment (MkTreePath (from_parts [AStr "f/x.py"]) [] "" false)
                {[ ["f"]%string := File "text" ]} = Raise NotADirectoryError /\
  write_comment (MkTreePath (from_parts [AStr "a/b/x.py"]) [] "" false)
                {[ ["a"]%string := Dir ]} = Raise FileNotFoundError.
Proof.
  split; [|split].
  - apply (proj1 (write_comment_failures
                    (MkTreePath (from_parts [AStr "docs"]) [] "" false)
                    {[ ["docs"]%string := Dir ]} eq_refl)).
    reflexivity.
  - apply (proj1 (proj2 (write_comment_failures
                    (MkTreePath (from_parts [AStr "f/x.py"]) [] "" false)
                    {[ ["f"]%string := File "text" ]} eq_refl))).
    + reflexivity.
    + exists "text"%string. reflexivity.
  - apply (proj2 (proj2 (write_comment_failures
                    (MkTreePath (from_parts [AStr "a/b/x.py"]) [] "" false)
                    {[ ["a"]%string := Dir ]} eq_refl))).
    + reflexivity.
    + reflexivity.
    + intros n c.
      assert (Hfix : forall k : nat,
                Nat.iter k parent (MkPath "" []) = MkPath "" []).
      { induction k as [|k IH]; [done|]. by rewrite Nat.iter_succ, IH. }
      destruct n as [|[|[|n]]]; [vm_compute; discriminate..|].
      rewrite !Nat.iter_succ_r.
      change (parent (parent (parent
                (path (MkTreePath (from_parts [AStr "a/b/x.py"]) [] "" false)))))
        with (MkPath "" []).
      rewrite Hfix. vm_compute. discriminate.
Defined.

(** ** The flag [exist_ok] *)

(** [mkdir] writes no entry below the directory that it is asked for. *)
Lemma mkdir_fuel_deeper (n : nat) :
  forall (p : PurePath) (mode : Z) (parents exist_ok : bool) (f : fs) (u : unit) (f' : fs),
    mkdir_fuel n p mode parents exist_ok f = Return u f' ->
    forall k : list string, length (parts p) < length k -> f' !! k = f !! k.
Proof.
  assert (Hos : forall (p : PurePath) (f : fs) (u : unit) (f' : fs),
            os_mkdir p f = Return u f' ->
            forall k : list string, length (parts p) < length k -> f' !! k = f !! k).
  { intros p f u f'. unfold os_mkdir, create. destruct (entry_at p f); [done|].
    destruct (entry_at (parent p) f) as [[c|]|]; [done| |done].
    intros [= _ <-] k Hk. apply lookup_insert_ne. intros E. rewrite E in Hk. lia. }
  assert (Hsw : forall (p : PurePath) (exist_ok : bool) (f : fs) (e : exn) (u : unit) (f' : fs),
            (if negb exist_ok || negb (is_dir p f) then Raise e else Return tt f)
              = Return u f' -> f' = f).
  { intros p exist_ok f e u f'.
    destruct (negb exist_ok || negb (is_dir p f)); [done|]. by intros [= _ <-]. }
  induction n as [|n IH]; intros p mode parents exist_ok f u f' H k Hk;
    cbn [mkdir_fuel] in H;
    destruct (os_mkdir p f) as [u0 f0|e|] eqn:Hos'; try done;
    try (injection H as _ <-; by eapply Hos).
  - destruct e; try (by rewrite (Hsw _ _ _ _ _ _ H)).
    destruct (negb parents || bool_decide (parent p = p)); done.
  - destruct e; try (by rewrite (Hsw _ _ _ _ _ _ H)).
    destruct (negb parents) eqn:Hpar; [done|]. cbn [orb] in H.
    destruct (bool_decide_reflect (parent p = p)) as [|Hne]; [done|].
    apply bind_inv in H as (u1 & f1 & E1 & H).
    rewrite (IH _ _ _ _ _ _ _ H k Hk).
    apply (IH _ _ _ _ _ _ _ E1 k). pose proof (parent_shorter p Hne). lia.
Qed.

(** On a path that does not exist, [mkdir] does not look at [exist_ok]. *)
Lemma mkdir_fuel_exist_ok (n : nat) :
  forall (p : PurePath) (mode : Z) (parents b b' : bool) (f : fs),
    entry_at p f = None ->
    mkdir_fuel n p mode parents b f = mkdir_fuel n p mode parents b' f.
Proof.
  induction n as [|n IH]; intros p mode parents b b' f He; cbn [mkdir_fuel];
    unfold os_mkdir, create, is_dir; rewrite He;
    destruct (entry_at (parent p) f) as [[c|]|]; try done;
    try (by rewrite !orb_true_r).
  destruct (negb parents) eqn:Hpar; [done|]. cbn [orb].
  destruct (bool_decide_reflect (parent p = p)) as [|Hne]; [done|].
  unfold bind.
  destruct (mkdir_fuel n (parent p) 511 true true f) as [u1 f1| |] eqn:E1; [|done|done].
  apply IH. destruct (entry_at_None _ _ He) as [Ha Hl].
  unfold entry_at. rewrite Ha.
  rewrite (mkdir_fuel_deeper _ _ _ _ _ _ _ _ E1); [done|].
  by apply parent_shorter.
Qed.

Lemma for_each_ext {St A} (g g' : A -> M St unit) (l : list A) :
  (forall x, x ∈ l -> forall s, g x s = g' x s) ->
  forall s, for_each g l s = for_each g' l s.
Proof.
  induction l as [|x l IH]; intros Hg s; [done|].
  cbn [for_each]. unfold bind. rewrite (Hg x) by by left.
  destruct (g' x s) as [u s'| |]; [|done|done].
  apply IH. intros y Hy. apply Hg. by right.
Qed.

(** X19.  On a tree whose directory nodes have paths without "..",
    [mktree] gives the same outcome for both values of [exist_ok]: it asks
    for a directory only after it has found that the path does not exist,
    and creating the missing ancestors does not create the path itself, so
    the flag has nothing left to decide. *)
Theorem mktree_ignores_exist_ok (fuel : nat) :
  forall (h : heap) (self : loc) (mode : Z) (parents b b' : bool) (f : fs),
    (forall l o, visited h self l -> h !! l = Some o -> is_dir_spec o = true ->
                 no_dotdot (path o) = true) ->
    mktree fuel h self mode parents b f = mktree fuel h self mode parents b' f.
Proof.
  induction fuel as [|n IH]; intros h self mode parents b b' f Hplain; [done|].
  cbn [mktree]. destruct (h !! self) as [o|] eqn:Hself; [|done].
  destruct (is_dir_spec o) eqn:Hdir; [|done].
  assert (Hcs : forall f0 : fs,
            for_each (fun child => mktree n h child mode false b ;;; ret tt) (children o) f0
            = for_each (fun child => mktree n h child mode false b' ;;; ret tt)
                       (children o) f0).
  { apply for_each_ext. intros c Hc s. unfold bind.
    rewrite (IH h c mode false b b' s); [done|].
    intros l o' Hv. apply Hplain. by eapply visited_child. }
  unfold bind, path_exists in *.
  destruct (entry_at (path o) f) eqn:He.
  - unfold ret at 1 4. by rewrite Hcs.
  - unfold mkdir. rewrite (mkdir_fuel_exist_ok _ _ _ _ b b' _ He).
    destruct (mkdir_fuel _ (path o) mode parents b' f) as [u f1| |]; [|done|done].
    by rewrite Hcs.
Qed.

Lemma mktree_ignores_exist_ok_witness :
  mktree 3 ex1_heap 0 511 true true ∅ = mktree 3 ex1_heap 0 511 true false ∅.
Proof.
  apply mktree_ignores_exist_ok.
  intros l o _ Hl _.
  destruct l as [|[|[|[|l]]]]; [..|discriminate Hl]; injection Hl as <-; reflexivity.
Defined.
